(** * CVSS converter: vector codec, score engine and cross-version converter

    A shallow embedding of the CVSS converter script (the widget behind
    cvss-converter/): [generateVector], [parseVector],
    [calculateCVSSv3Score], [calculateCVSSv4Score], [roundUp],
    [getSeverity], [convertVector] and [maxImpact]; then the handlers
    around them, [initializeDefaultMetrics], [switchVersion],
    [selectMetric], [clearAll] and [updateUI], with the listeners of
    [setupEventListeners] as the events of a session.

    Modelling conventions.
    - A JavaScript number is an IEEE 754 binary64 value: Rocq's primitive
      [float], whose operations are the hardware ones.  A decimal literal
      denotes the nearest double, in JavaScript as here.
    - A JavaScript string is a [string]; one [ascii] stands for one code
      unit below 256.  Code units above 255 are outside the model.
    - A JavaScript object used as a dictionary is a [gmap] keyed by
      property name; [None] is [undefined].  Properties inherited from
      [Object.prototype] are outside the model, except that assigning to
      ["__proto__"] is known to create no own property.
    - The two globals [currentVersion] and [currentMetrics] are threaded
      explicitly as a [State].  The handlers are first modelled on the
      globals alone: what the script reads from the document is an
      argument, what it shows ([alert], the converted vector, the list
      of warnings) is returned.  The module [Widget] then models them
      with the page: the properties of the document that the script
      writes, threaded along with the state.  The clipboard
      ([copyToClipboard]) is not modelled.
    - [Math.pow] is implementation-approximated in ECMAScript, so it is a
      parameter of the score engine, constrained only by [pow_accurate]. *)

From Stdlib Require Import ZArith QArith Qround Qminmax Qabs Floats Uint63 Ascii String List Lia Lqa.
From Stdlib Require Import DecimalString.
From stdpp Require Import base option gmap strings list fin_maps.

Set Warnings "-inexact-float".
#[local] Open Scope string_scope.
#[local] Open Scope list_scope.

(** ** JavaScript values used by the script *)

(** A dictionary object with string values ([currentMetrics], [newMetrics],
    [convertedMetrics]). *)
Abbreviation Metrics := (gmap string string).

(** A dictionary object with number values (one weight table). *)
Abbreviation Weights := (gmap string float).

Module JS.

(** [ToPropertyKey]: an [undefined] subscript names the property "undefined". *)
Definition ToPropertyKey (k : option string) : string :=
  match k with Some s => s | None => "undefined" end.

(** [obj[k]] on a dictionary object. *)
Definition get {V} (obj : gmap string V) (k : option string) : option V :=
  obj !! ToPropertyKey k.

(** [obj[k] = v]: an own property is created or overwritten, except for
    ["__proto__"], whose inherited setter ignores a string. *)
Definition set (obj : Metrics) (k v : string) : Metrics :=
  if decide (k = "__proto__") then obj else <[k:=v]> obj.

(** Interpolation [${e}] in a template literal. *)
Definition interp (v : option string) : string :=
  match v with Some s => s | None => "undefined" end.

(** [ToBoolean] of a string-or-undefined value: only a non-empty string
    is truthy. *)
Definition truthy (v : option string) : bool :=
  match v with
  | Some s => negb (String.eqb s "")
  | None => false
  end.

(** [ToNumber] of a number-or-undefined value. *)
Definition ToNumber (v : option float) : float :=
  match v with Some x => x | None => nan end.

(** [a === b] on string-or-undefined values. *)
Definition strict_eq (a b : option string) : bool :=
  match a, b with
  | Some x, Some y => String.eqb x y
  | None, None => true
  | _, _ => false
  end.

(** White space and line terminators below code unit 256: the characters
    [String.prototype.trim] strips. *)
Definition is_white (c : ascii) : bool :=
  let n := nat_of_ascii c in
  ((9 <=? n)%nat && (n <=? 13)%nat) || (n =? 32)%nat || (n =? 160)%nat.

Fixpoint trimStart (s : string) : string :=
  match s with
  | String c s' => if is_white c then trimStart s' else s
  | EmptyString => EmptyString
  end.

(** Strips trailing white space: a character is kept when it is not
    white or when something is kept after it. *)
Fixpoint trimEnd (s : string) : string :=
  match s with
  | String c s' =>
      match trimEnd s' with
      | EmptyString => if is_white c then EmptyString else String c EmptyString
      | r => String c r
      end
  | EmptyString => EmptyString
  end.

Definition trim (s : string) : string := trimEnd (trimStart s).

(** [s.startsWith(p)]. *)
Definition startsWith (s p : string) : bool := String.prefix p s.

(** [s.split(sep)] for a one-character separator: never empty, and
    [split sep ""] is [[""]]. *)
Fixpoint split (sep : ascii) (s : string) : list string :=
  match s with
  | EmptyString => [EmptyString]
  | String c s' =>
      if Ascii.eqb c sep then EmptyString :: split sep s'
      else match split sep s' with
           | h :: t => String c h :: t
           | [] => [String c EmptyString]
           end
  end.

(** [Math.ceil]: NaN, the zeros and the infinities are returned as they
    are, so is a double that is already an integer; otherwise the least
    integer not below the argument, with [-0] for arguments in (-1, 0). *)
Definition Math_ceil (x : float) : float :=
  match Prim2SF x with
  | S754_finite s m e =>
      if (0 <=? e)%Z then x
      else
        let q := Z.shiftr (Zpos m) (- e) in
        let exact := (Z.shiftl q (- e) =? Zpos m)%Z in
        if s then
          (if (q =? 0)%Z then neg_zero else - of_uint63 (Uint63.of_Z q))%float
        else of_uint63 (Uint63.of_Z (if exact then q else q + 1))
  | _ => x
  end.

(** [Math.min] and [Math.max] of two numbers: NaN is contagious and
    [-0] counts as smaller than [+0]. *)
Definition Math_min (a b : float) : float :=
  if is_nan a || is_nan b then nan
  else if (a <? b)%float then a
  else if (b <? a)%float then b
  else if get_sign a then a else b.

Definition Math_max (a b : float) : float :=
  if is_nan a || is_nan b then nan
  else if (b <? a)%float then a
  else if (a <? b)%float then b
  else if get_sign a then b else a.

End JS.

(** ** Global state of the script *)

Record State := mkState {
  currentVersion : Z;
  currentMetrics : Metrics
}.

(** The object literals of [initializeDefaultMetrics] and [switchVersion]. *)
Definition defaultMetricsV3 : Metrics :=
  <["AV":="N"]> (<["AC":="L"]> (<["PR":="N"]> (<["UI":="N"]> (<["S":="U"]>
  (<["C":="N"]> (<["I":="N"]> (<["A":="N"]> ∅))))))).

Definition defaultMetricsV4 : Metrics :=
  <["AV":="N"]> (<["AC":="L"]> (<["AT":="N"]> (<["PR":="N"]> (<["UI":="N"]>
  (<["VC":="N"]> (<["VI":="N"]> (<["VA":="N"]>
  (<["SC":="N"]> (<["SI":="N"]> (<["SA":="N"]> ∅)))))))))).

(** [switchVersion(version)]: sets the version and resets the metrics to
    the defaults of that version (anything but 3 is treated as v4). *)
Definition switchVersion (version : Z) (st : State) : State :=
  {| currentVersion := version;
     currentMetrics := if (version =? 3)%Z then defaultMetricsV3 else defaultMetricsV4 |}.

(** ** Vector codec *)

(** [generateVector()] *)
Definition generateVector (st : State) : string :=
  let m := currentMetrics st in
  let f (k : string) := JS.interp (m !! k) in
  if (currentVersion st =? 3)%Z then
    "CVSS:3.1/AV:" ++ f "AV" ++ "/AC:" ++ f "AC" ++ "/PR:" ++ f "PR"
      ++ "/UI:" ++ f "UI" ++ "/S:" ++ f "S" ++ "/C:" ++ f "C"
      ++ "/I:" ++ f "I" ++ "/A:" ++ f "A"
  else
    "CVSS:4.0/AV:" ++ f "AV" ++ "/AC:" ++ f "AC" ++ "/AT:" ++ f "AT"
      ++ "/PR:" ++ f "PR" ++ "/UI:" ++ f "UI" ++ "/VC:" ++ f "VC"
      ++ "/VI:" ++ f "VI" ++ "/VA:" ++ f "VA" ++ "/SC:" ++ f "SC"
      ++ "/SI:" ++ f "SI" ++ "/SA:" ++ f "SA".

(** The messages of the three [alert] calls of [parseVector]. *)
Definition EmptyInput : string := "Please enter a CVSS vector string".

Definition InvalidFormat : string :=
  "Invalid CVSS vector string. Must start with CVSS:3.0, CVSS:3.1, or CVSS:4.0".

Definition MissingMetric (metric : string) : string :=
  "Missing required metric: " ++ metric.

(** The [required] arrays of [parseVector]. *)
Definition requiredV3 : list string := ["AV"; "AC"; "PR"; "UI"; "S"; "C"; "I"; "A"].

Definition requiredV4 : list string :=
  ["AV"; "AC"; "AT"; "PR"; "UI"; "VC"; "VI"; "VA"; "SC"; "SI"; "SA"].

Definition required (version : Z) : list string :=
  if (version =? 3)%Z then requiredV3 else requiredV4.

(** The version test at the head of [parseVector]; [None] is the branch
    that alerts. *)
Definition versionOf (vectorString : string) : option Z :=
  if JS.startsWith vectorString "CVSS:3.0" || JS.startsWith vectorString "CVSS:3.1"
  then Some 3%Z
  else if JS.startsWith vectorString "CVSS:4.0" then Some 4%Z
  else None.

(** One iteration of the extraction loop:
    [const [key, value] = parts[i].split(':'); if (key && value) newMetrics[key] = value]. *)
Definition extractSegment (newMetrics : Metrics) (part : string) : Metrics :=
  let pieces := JS.split ":" part in
  match pieces !! 0%nat, pieces !! 1%nat with
  | Some key, Some value =>
      if JS.truthy (Some key) && JS.truthy (Some value)
      then JS.set newMetrics key value
      else newMetrics
  | _, _ => newMetrics
  end.

(** The whole loop, [for (let i = 1; i < parts.length; i++)], from the
    empty object. *)
Definition extractMetrics (parts : list string) : Metrics :=
  fold_left extractSegment (drop 1 parts) ∅.

(** The validation loop: the first [metric] of [required] with
    [!newMetrics[metric]]. *)
Fixpoint firstMissing (required : list string) (newMetrics : Metrics) : option string :=
  match required with
  | [] => None
  | metric :: rest =>
      if negb (JS.truthy (newMetrics !! metric)) then Some metric
      else firstMissing rest newMetrics
  end.

(** [parseVector()], on the text of the input field.  Returns the state
    it leaves and the message it alerted, if any.  The version switch
    happens before validation, as in the script.  The closing call of
    [updateUI] only renders the state that was stored (vector, score,
    severity) and is not part of the result; see [illegal_values_scored]
    for what it computes on illegal values. *)
Definition parseVector (input : string) (st : State) : State * option string :=
  let vectorString := JS.trim input in
  if String.eqb vectorString "" then (st, Some EmptyInput)
  else
    match versionOf vectorString with
    | None => (st, Some InvalidFormat)
    | Some version =>
        let st1 :=
          if negb (version =? currentVersion st)%Z then switchVersion version st else st in
        let parts := JS.split "/" vectorString in
        let newMetrics := extractMetrics parts in
        match firstMissing (required version) newMetrics with
        | Some metric => (st1, Some (MissingMetric metric))
        | None =>
            ({| currentVersion := currentVersion st1; currentMetrics := newMetrics |}, None)
        end
    end.

(** ** Score engine *)

#[local] Open Scope float_scope.

(** [CVSS3_WEIGHTS] *)
Module CVSS3_WEIGHTS.
Definition AV : Weights := <["N":=0.85]> (<["A":=0.62]> (<["L":=0.55]> (<["P":=0.2]> ∅))).
Definition AC : Weights := <["L":=0.77]> (<["H":=0.44]> ∅).
Definition PR : gmap string Weights :=
  <["N":= <["U":=0.85]> (<["C":=0.85]> ∅)]>
  (<["L":= <["U":=0.62]> (<["C":=0.68]> ∅)]>
  (<["H":= <["U":=0.27]> (<["C":=0.50]> ∅)]> ∅)).
Definition UI : Weights := <["N":=0.85]> (<["R":=0.62]> ∅).
Definition C : Weights := <["N":=0]> (<["L":=0.22]> (<["H":=0.56]> ∅)).
Definition I : Weights := <["N":=0]> (<["L":=0.22]> (<["H":=0.56]> ∅)).
Definition A : Weights := <["N":=0]> (<["L":=0.22]> (<["H":=0.56]> ∅)).
End CVSS3_WEIGHTS.

(** [roundUp(value)] *)
Definition roundUp (value : float) : float := JS.Math_ceil (value * 10) / 10.

(** [getSeverity(score)] *)
Definition getSeverity (score : float) : string :=
  if score =? 0 then "None"
  else if score <? 4.0 then "Low"
  else if score <? 7.0 then "Medium"
  else if score <? 9.0 then "High"
  else "Critical".

Section ScoreEngine.

(** [Math.pow], as the engine at hand implements it. *)
Variable Math_pow : float -> float -> float.

(** The body of [calculateCVSSv3Score] below its destructuring
    [const { AV, AC, PR, UI, S, C, I, A } = currentMetrics].  [None] when
    the script throws a TypeError (reading [[S]] of an undefined
    [CVSS3_WEIGHTS.PR[PR]]).  The tables hold their own properties only:
    a value naming a property inherited from [Object.prototype] is
    outside the model. *)
Definition v3Score (AV AC PR UI S C I A : option string) : option float :=
  let avScore := JS.ToNumber (JS.get CVSS3_WEIGHTS.AV AV) in
  let acScore := JS.ToNumber (JS.get CVSS3_WEIGHTS.AC AC) in
  match JS.get CVSS3_WEIGHTS.PR PR with
  | None => None
  | Some prTable =>
      let prScore := JS.ToNumber (JS.get prTable S) in
      let uiScore := JS.ToNumber (JS.get CVSS3_WEIGHTS.UI UI) in
      let cScore := JS.ToNumber (JS.get CVSS3_WEIGHTS.C C) in
      let iScore := JS.ToNumber (JS.get CVSS3_WEIGHTS.I I) in
      let aScore := JS.ToNumber (JS.get CVSS3_WEIGHTS.A A) in
      let iss := 1 - ((1 - cScore) * (1 - iScore) * (1 - aScore)) in
      let impact :=
        if JS.strict_eq S (Some "U"%string) then 6.42 * iss
        else 7.52 * (iss - 0.029) - 3.25 * Math_pow (iss - 0.02) 15 in
      let exploitability := 8.22 * avScore * acScore * prScore * uiScore in
      let baseScore :=
        if impact <=? 0 then 0
        else if JS.strict_eq S (Some "U"%string)
             then JS.Math_min (impact + exploitability) 10
             else JS.Math_min (1.08 * (impact + exploitability)) 10 in
      Some (roundUp baseScore)
  end.

(** [calculateCVSSv3Score()] *)
Definition calculateCVSSv3Score (st : State) : option float :=
  let m := currentMetrics st in
  v3Score (m !! "AV") (m !! "AC") (m !! "PR") (m !! "UI") (m !! "S")
          (m !! "C") (m !! "I") (m !! "A").

(** The body of [calculateCVSSv4Score] below its destructuring: the
    script's closed-form approximation of the v4 score. *)
Definition v4Score (AV AC AT PR UI VC VI VA SC SI SA : option string) : float :=
  let impactTable : Weights := <["N":=0]> (<["L":=0.22]> (<["H":=0.56]> ∅)) in
  let avWeight :=
    JS.ToNumber (JS.get (<["N":=0.85]> (<["A":=0.62]> (<["L":=0.55]> (<["P":=0.2]> ∅)))) AV) in
  let acWeight := JS.ToNumber (JS.get (<["L":=0.77]> (<["H":=0.44]> ∅)) AC) in
  let atWeight := JS.ToNumber (JS.get (<["N":=1.0]> (<["P":=0.8]> ∅)) AT) in
  let prWeight := JS.ToNumber (JS.get (<["N":=0.85]> (<["L":=0.62]> (<["H":=0.27]> ∅))) PR) in
  let uiWeight := JS.ToNumber (JS.get (<["N":=0.85]> (<["P":=0.70]> (<["A":=0.62]> ∅))) UI) in
  let vcWeight := JS.ToNumber (JS.get impactTable VC) in
  let viWeight := JS.ToNumber (JS.get impactTable VI) in
  let vaWeight := JS.ToNumber (JS.get impactTable VA) in
  let scWeight := JS.ToNumber (JS.get impactTable SC) in
  let siWeight := JS.ToNumber (JS.get impactTable SI) in
  let saWeight := JS.ToNumber (JS.get impactTable SA) in
  let exploitability := 8.22 * avWeight * acWeight * atWeight * prWeight * uiWeight in
  let vulnImpact := 1 - ((1 - vcWeight) * (1 - viWeight) * (1 - vaWeight)) in
  let subImpact := 1 - ((1 - scWeight) * (1 - siWeight) * (1 - saWeight)) in
  let impact := 6.42 * JS.Math_max vulnImpact subImpact in
  let baseScore := JS.Math_min (impact + exploitability) 10 in
  roundUp baseScore.

(** [calculateCVSSv4Score()] *)
Definition calculateCVSSv4Score (st : State) : float :=
  let m := currentMetrics st in
  v4Score (m !! "AV") (m !! "AC") (m !! "AT") (m !! "PR") (m !! "UI")
          (m !! "VC") (m !! "VI") (m !! "VA") (m !! "SC") (m !! "SI") (m !! "SA").

(** [calculateScore()] *)
Definition calculateScore (st : State) : option float :=
  if (currentVersion st =? 3)%Z then calculateCVSSv3Score st
  else Some (calculateCVSSv4Score st).

End ScoreEngine.


(** ** Cross-version converter *)

(** The texts pushed on [warnings]. *)
Definition noteUIv3 : string :=
  "UI:R mapped to UI:P (Passive). Consider if UI:A (Active) is more appropriate.".
Definition noteScopeChanged : string :=
  "Scope:Changed mapped to both Vulnerable and Subsequent system impacts. Review appropriateness.".
Definition noteATset : string :=
  "AT (Attack Requirements) set to None - no v3 equivalent.".
Definition noteUIv4 : string :=
  "UI:P or UI:A mapped to UI:R (Required). v3 has less granularity.".
Definition noteSubsequent : string :=
  "Subsequent system impacts detected - Scope set to Changed.".
Definition noteATdropped : string :=
  "AT (Attack Requirements) metric has no v3 equivalent and was dropped.".
Definition noteMerged : string :=
  "Impact metrics merged from Vulnerable and Subsequent systems (using maximum).".

(** [obj.k = e] for a fixed property name [k] and a string-or-undefined
    [e].  A property holding [undefined] reads like an absent one, and
    the script never enumerates keys, so it is modelled as absent. *)
Definition assign (obj : Metrics) (k : string) (v : option string) : Metrics :=
  match v with
  | Some s => <[k:=s]> obj
  | None => delete k obj
  end.

(** [maxImpact(impact1, impact2)].  The table [order] holds its own
    three properties only: an argument naming a property inherited from
    [Object.prototype] is outside the model. *)
Definition maxImpact (impact1 impact2 : option string) : option string :=
  let order : Weights := <["N":=0]> (<["L":=1]> (<["H":=2]> ∅)) in
  if JS.ToNumber (JS.get order impact2) <=? JS.ToNumber (JS.get order impact1)
  then impact1
  else impact2.

(** What [convertVector] computes and shows: the converted metrics, the
    conversion notes, and the vector string put on the page. *)
Record Conversion := mkConversion {
  convertedMetrics : Metrics;
  warnings : list string;
  convertedVector : string
}.

(** The v3 to v4 branch of [convertVector]. *)
Definition convertV3toV4 (currentMetrics : Metrics) : Metrics * list string :=
  let cm := assign ∅ "AV" (currentMetrics !! "AV") in
  let cm := assign cm "AC" (currentMetrics !! "AC") in
  let cm := assign cm "AT" (Some "N"%string) in
  let cm := assign cm "PR" (currentMetrics !! "PR") in
  let '(cm, w) :=
    if JS.strict_eq (currentMetrics !! "UI") (Some "N"%string)
    then (assign cm "UI" (Some "N"%string), [])
    else (assign cm "UI" (Some "P"%string),
          [noteUIv3]) in
  let '(cm, w) :=
    if JS.strict_eq (currentMetrics !! "S") (Some "U"%string)
    then
      let cm := assign cm "VC" (currentMetrics !! "C") in
      let cm := assign cm "VI" (currentMetrics !! "I") in
      let cm := assign cm "VA" (currentMetrics !! "A") in
      let cm := assign cm "SC" (Some "N"%string) in
      let cm := assign cm "SI" (Some "N"%string) in
      let cm := assign cm "SA" (Some "N"%string) in
      (cm, w)
    else
      let cm := assign cm "VC" (currentMetrics !! "C") in
      let cm := assign cm "VI" (currentMetrics !! "I") in
      let cm := assign cm "VA" (currentMetrics !! "A") in
      let cm := assign cm "SC" (currentMetrics !! "C") in
      let cm := assign cm "SI" (currentMetrics !! "I") in
      let cm := assign cm "SA" (currentMetrics !! "A") in
      (cm, w ++ [noteScopeChanged]) in
  (cm, w ++ [noteATset]).

(** The v4 to v3 branch of [convertVector]. *)
Definition convertV4toV3 (currentMetrics : Metrics) : Metrics * list string :=
  let cm := assign ∅ "AV" (currentMetrics !! "AV") in
  let cm := assign cm "AC" (currentMetrics !! "AC") in
  let cm := assign cm "PR" (currentMetrics !! "PR") in
  let '(cm, w) :=
    if JS.strict_eq (currentMetrics !! "UI") (Some "N"%string)
    then (assign cm "UI" (Some "N"%string), [])
    else (assign cm "UI" (Some "R"%string),
          [noteUIv4]) in
  let hasSubsequentImpact :=
    negb (JS.strict_eq (currentMetrics !! "SC") (Some "N"%string))
    || negb (JS.strict_eq (currentMetrics !! "SI") (Some "N"%string))
    || negb (JS.strict_eq (currentMetrics !! "SA") (Some "N"%string)) in
  let cm := assign cm "S" (Some (if hasSubsequentImpact then "C" else "U")%string) in
  let w :=
    if hasSubsequentImpact
    then w ++ [noteSubsequent]
    else w in
  let cm := assign cm "C" (maxImpact (currentMetrics !! "VC") (currentMetrics !! "SC")) in
  let cm := assign cm "I" (maxImpact (currentMetrics !! "VI") (currentMetrics !! "SI")) in
  let cm := assign cm "A" (maxImpact (currentMetrics !! "VA") (currentMetrics !! "SA")) in
  let w := w ++ [noteATdropped] in
  let w := w ++ [noteMerged] in
  (cm, w).

(** [convertVector()]: converts the current metrics to the other
    version, renders the converted vector from them, and finally calls
    [switchVersion(targetVersion)], which leaves the defaults of the
    target version in [currentMetrics]. *)
Definition convertVector (st : State) : Conversion * State :=
  let targetVersion := if (currentVersion st =? 3)%Z then 4%Z else 3%Z in
  let '(cm, w) :=
    if (currentVersion st =? 3)%Z then convertV3toV4 (currentMetrics st)
    else convertV4toV3 (currentMetrics st) in
  let st1 := {| currentVersion := targetVersion; currentMetrics := cm |} in
  ({| convertedMetrics := cm; warnings := w; convertedVector := generateVector st1 |},
   switchVersion targetVersion st1).

(** ** Legal metric sets *)

(** The value codes of every metric, per version: the keys of the weight
    tables of the score engine, in the order of [generateVector]. *)
Definition shapeV3 : list (string * list string) :=
  [("AV", ["N"; "A"; "L"; "P"]); ("AC", ["L"; "H"]); ("PR", ["N"; "L"; "H"]);
   ("UI", ["N"; "R"]); ("S", ["U"; "C"]);
   ("C", ["N"; "L"; "H"]); ("I", ["N"; "L"; "H"]); ("A", ["N"; "L"; "H"])]%string.

Definition shapeV4 : list (string * list string) :=
  [("AV", ["N"; "A"; "L"; "P"]); ("AC", ["L"; "H"]); ("AT", ["N"; "P"]);
   ("PR", ["N"; "L"; "H"]); ("UI", ["N"; "P"; "A"]);
   ("VC", ["N"; "L"; "H"]); ("VI", ["N"; "L"; "H"]); ("VA", ["N"; "L"; "H"]);
   ("SC", ["N"; "L"; "H"]); ("SI", ["N"; "L"; "H"]); ("SA", ["N"; "L"; "H"])]%string.

(** The value codes of a key in a shape, if it is one of its keys. *)
Fixpoint legalValues (shape : list (string * list string)) (k : string) : option (list string) :=
  match shape with
  | [] => None
  | (k', vs) :: rest => if String.eqb k k' then Some vs else legalValues rest k
  end.

(** A legal metric set of a shape: every key of the shape holds one of
    its value codes, and there is no other key. *)
Definition legal (shape : list (string * list string)) (m : Metrics) : Prop :=
  ∀ k : string,
    match legalValues shape k with
    | Some vs => ∃ v : string, m !! k = Some v ∧ v ∈ vs
    | None => m !! k = None
    end.

(** A state showing a legal metric set of its version. *)
Definition legalState (st : State) : Prop :=
  (currentVersion st = 3%Z ∧ legal shapeV3 (currentMetrics st))
  ∨ (currentVersion st = 4%Z ∧ legal shapeV4 (currentMetrics st)).

(** The metric set holding the given values under the given keys. *)
Definition metricsOf (keys vals : list string) : Metrics := list_to_map (zip keys vals).

(** ** Accuracy asked of [Math.pow] *)

(** The fifteenth power by squaring: six rounded multiplications. *)
Definition pow15 (x : float) : float :=
  let x2 := x * x in
  let x4 := x2 * x2 in
  let x8 := x4 * x4 in
  x8 * x4 * x2 * x.

Fixpoint ups (k : nat) (c : float) : list float :=
  match k with
  | O => []
  | S k' => next_up c :: ups k' (next_up c)
  end.

Fixpoint downs (k : nat) (c : float) : list float :=
  match k with
  | O => []
  | S k' => next_down c :: downs k' (next_down c)
  end.

(** The doubles at most [k] units in the last place away from [c]. *)
Definition within_ulps (k : nat) (c : float) : list float := downs k c ++ c :: ups k c.

(** An engine whose [Math.pow(x, 15)] lands, on [-1, 1], within sixteen
    units in the last place of the power by squaring (whose own error is
    below fifteen). *)
Definition pow_accurate (Math_pow : float -> float -> float) : Prop :=
  ∀ x : float, (abs x <=? 1) = true → Math_pow x 15 ∈ within_ulps 16 (pow15 x).

#[local] Close Scope float_scope.

(** ** The codec, read piece by piece *)

(** The text of [s] before its first [sep] (all of [s] without one), and
    the text after it, if there is one. *)
Fixpoint before (sep : ascii) (s : string) : string :=
  match s with
  | EmptyString => EmptyString
  | String c s' => if Ascii.eqb c sep then EmptyString else String c (before sep s')
  end.

Fixpoint after (sep : ascii) (s : string) : option string :=
  match s with
  | EmptyString => None
  | String c s' => if Ascii.eqb c sep then Some s' else after sep s'
  end.

(** The pair a segment stands for: its text before the first colon and
    the text between the first and the second colon (or the end), when
    both are non-empty; later pieces are dropped. *)
Definition keyValue (segment : string) : option (string * string) :=
  match after ":" segment with
  | Some rest =>
      let key := before ":" segment in
      let value := before ":" rest in
      if negb (String.eqb key "") && negb (String.eqb value "") then Some (key, value) else None
  | None => None
  end.

(** The pairs of the segments of a trimmed vector: everything up to the
    first slash is set aside, segments that stand for no pair are dropped. *)
Definition pairsOf (vectorString : string) : list (string * string) :=
  omap keyValue (drop 1 (JS.split "/" vectorString)).

(** The object the pairs build, later pairs overwriting earlier ones. *)
Definition objectOf (pairs : list (string * string)) : Metrics :=
  fold_left (λ obj kv, JS.set obj kv.1 kv.2) pairs ∅.

(** The value of the last pair with a given key. *)
Definition lastValue (key : string) (pairs : list (string * string)) : option string :=
  snd <$> last (filter (λ kv, kv.1 = key) pairs).

(** [sep] does not occur in [s]. *)
Fixpoint noChar (sep : ascii) (s : string) : bool :=
  match s with
  | EmptyString => true
  | String c s' => negb (Ascii.eqb c sep) && noChar sep s'
  end.

(** Segments joined by slashes. *)
Fixpoint join (segments : list string) : string :=
  match segments with
  | [] => EmptyString
  | [s] => s
  | s :: rest => s ++ String "/" (join rest)
  end.

(** A value that survives serialisation and parsing: non-empty, free of
    slashes and colons, and not ending in white space. *)
Definition cleanb (v : string) : bool :=
  negb (String.eqb v "") && noChar "/" v && noChar ":" v && String.eqb (JS.trimEnd v) v.

(** The segment a key and a value are serialised to, and a key that the
    codec can carry: non-empty and free of slashes and colons. *)
Definition segmentOf (kv : string * string) : string := kv.1 ++ String ":" kv.2.

Definition keyb (k : string) : bool :=
  negb (String.eqb k "") && noChar "/" k && noChar ":" k.

(** ** Between rationals and doubles *)

(** From an integer to the double of the same value (exact below 2^53). *)
Definition Z2double (n : Z) : float :=
  match n with
  | Z0 => 0
  | Zpos _ => of_uint63 (Uint63.of_Z n)
  | Zneg p => - of_uint63 (Uint63.of_Z (Zpos p))
  end.

(** From a rational to a double: the correctly rounded quotient of the
    reduced numerator and denominator, which is the double nearest to
    the rational when both are below 2^53.  A score such as 98/10 is
    sent to the double that the literal [9.8] denotes. *)
Definition Q2double (q : Q) : float :=
  let r := Qred q in Z2double (Qnum r) / Z2double (Zpos (Qden r)).

(** The exact value of a finite double. *)
Definition double2Q (x : float) : Q :=
  match Prim2SF x with
  | S754_finite s m e =>
      let a := (inject_Z (Zpos m) * Qpower 2 e)%Q in if s then (- a)%Q else a
  | _ => 0%Q
  end.

(** ** The scores and the codec as the specification words them *)

(** Exact rational arithmetic throughout. *)
Module Spec.
#[local] Open Scope Q_scope.

Fixpoint lookupQ (table : list (string * Q)) (code : string) : Q :=
  match table with
  | [] => 0
  | (c, w) :: rest => if String.eqb code c then w else lookupQ rest code
  end.

(** Weight of a value code in a table; an absent or unknown code weighs 0. *)
Definition weight (table : list (string * Q)) (v : option string) : Q :=
  match v with Some code => lookupQ table code | None => 0 end.

Definition isCode (v : option string) (code : string) : bool :=
  match v with Some c => String.eqb c code | None => false end.

(** Score rule: multiply by 10, take the ceiling, divide by 10. *)
Definition roundUp (x : Q) : Q := inject_Z (Qceiling (x * 10)) / 10.

(** *** scoreV3 *)
Definition AVw := weight [("N", 0.85); ("A", 0.62); ("L", 0.55); ("P", 0.20)]%string.
Definition ACw := weight [("L", 0.77); ("H", 0.44)]%string.
Definition PRw (S : option string) :=
  if isCode S "U"
  then weight [("N", 0.85); ("L", 0.62); ("H", 0.27)]%string
  else weight [("N", 0.85); ("L", 0.68); ("H", 0.50)]%string.
Definition UIw := weight [("N", 0.85); ("R", 0.62)]%string.
Definition CIAw := weight [("N", 0); ("L", 0.22); ("H", 0.56)]%string.

Definition ISS (C I A : option string) : Q :=
  1 - (1 - CIAw C) * (1 - CIAw I) * (1 - CIAw A).

Definition ImpactV3 (S : option string) (iss : Q) : Q :=
  if isCode S "U" then 6.42 * iss
  else 7.52 * (iss - 0.029) - 3.25 * (iss - 0.02) ^ 15.

Definition ExploitabilityV3 (AV AC PR UI S : option string) : Q :=
  8.22 * AVw AV * ACw AC * PRw S PR * UIw UI.

Definition BaseScoreV3 (S : option string) (impact exploitability : Q) : Q :=
  if Qle_bool impact 0 then 0
  else if isCode S "U" then Qmin (impact + exploitability) 10
  else Qmin (1.08 * (impact + exploitability)) 10.

Definition scoreV3 (m : Metrics) : Q :=
  let S := m !! "S"%string in
  roundUp (BaseScoreV3 S
             (ImpactV3 S (ISS (m !! "C"%string) (m !! "I"%string) (m !! "A"%string)))
             (ExploitabilityV3 (m !! "AV"%string) (m !! "AC"%string)
                               (m !! "PR"%string) (m !! "UI"%string) S)).

(** *** scoreV4 *)
Definition AV4w := weight [("N", 0.85); ("A", 0.62); ("L", 0.55); ("P", 0.20)]%string.
Definition AC4w := weight [("L", 0.77); ("H", 0.44)]%string.
Definition AT4w := weight [("N", 1.00); ("P", 0.80)]%string.
Definition PR4w := weight [("N", 0.85); ("L", 0.62); ("H", 0.27)]%string.
Definition UI4w := weight [("N", 0.85); ("P", 0.70); ("A", 0.62)]%string.
Definition impactW := weight [("N", 0); ("L", 0.22); ("H", 0.56)]%string.

Definition ExploitabilityV4 (AV AC AT PR UI : option string) : Q :=
  8.22 * AV4w AV * AC4w AC * AT4w AT * PR4w PR * UI4w UI.

(** VulnImpact and SubImpact: the same formula on two triads. *)
Definition triadImpact (X Y Z : option string) : Q :=
  1 - (1 - impactW X) * (1 - impactW Y) * (1 - impactW Z).

Definition ImpactV4 (VC VI VA SC SI SA : option string) : Q :=
  6.42 * Qmax (triadImpact VC VI VA) (triadImpact SC SI SA).

Definition BaseScoreV4 (impact exploitability : Q) : Q :=
  Qmin (impact + exploitability) 10.

Definition scoreV4 (m : Metrics) : Q :=
  roundUp (BaseScoreV4
             (ImpactV4 (m !! "VC"%string) (m !! "VI"%string) (m !! "VA"%string)
                       (m !! "SC"%string) (m !! "SI"%string) (m !! "SA"%string))
             (ExploitabilityV4 (m !! "AV"%string) (m !! "AC"%string) (m !! "AT"%string)
                               (m !! "PR"%string) (m !! "UI"%string))).

(** *** Severity *)
Definition severity (score : Q) : string :=
  if Qeq_bool score 0 then "None"
  else if Qle_bool 4 score then
    if Qle_bool 7 score then
      if Qle_bool 9 score then "Critical" else "High"
    else "Medium"
  else "Low".

(** *** Segment extraction of parse, as worded: the text after the
    eight-character prefix is split on slashes, and every segment is
    split once, at its first colon, into a key and a value *)
Definition remainder (vectorString : string) : string :=
  String.substring 8 (String.length vectorString - 8) vectorString.

Definition splitOnce (segment : string) : option (string * string) :=
  match after ":" segment with
  | Some value => Some (before ":" segment, value)
  | None => None
  end.

Definition segmentPair (segment : string) : option (string * string) :=
  match splitOnce segment with
  | Some (key, value) =>
      if negb (String.eqb key "") && negb (String.eqb value "") then Some (key, value) else None
  | None => None
  end.

Definition extract (vectorString : string) : Metrics :=
  fold_left (λ (obj : Metrics) kv, <[kv.1:=kv.2]> obj)
            (omap segmentPair (JS.split "/" (remainder vectorString))) ∅.

(** *** Merging two impact codes: the maximum under N < L < H *)
Definition rank (code : string) : nat :=
  if String.eqb code "H" then 2 else if String.eqb code "L" then 1 else 0.

Definition maxNLH (x y : string) : string :=
  if (rank x <? rank y)%nat then y else x.

End Spec.

(** ** The score functions, read piece by piece *)

#[local] Open Scope float_scope.

(** Exploitability, one triad of impacts, and the last steps of
    [v4Score], as functions of their own. *)
Definition v4Exploitability (AV AC AT PR UI : option string) : float :=
  8.22
  * JS.ToNumber (JS.get (<["N":=0.85]> (<["A":=0.62]> (<["L":=0.55]> (<["P":=0.2]> ∅))) : Weights) AV)
  * JS.ToNumber (JS.get (<["L":=0.77]> (<["H":=0.44]> ∅) : Weights) AC)
  * JS.ToNumber (JS.get (<["N":=1.0]> (<["P":=0.8]> ∅) : Weights) AT)
  * JS.ToNumber (JS.get (<["N":=0.85]> (<["L":=0.62]> (<["H":=0.27]> ∅)) : Weights) PR)
  * JS.ToNumber (JS.get (<["N":=0.85]> (<["P":=0.70]> (<["A":=0.62]> ∅)) : Weights) UI).

Definition v4Triad (X Y Z : option string) : float :=
  let impactTable : Weights := <["N":=0]> (<["L":=0.22]> (<["H":=0.56]> ∅)) in
  1 - ((1 - JS.ToNumber (JS.get impactTable X)) * (1 - JS.ToNumber (JS.get impactTable Y))
       * (1 - JS.ToNumber (JS.get impactTable Z))).

Definition v4Final (exploitability triad : float) : float :=
  roundUp (JS.Math_min (6.42 * triad + exploitability) 10).

#[local] Close Scope float_scope.

(** The value codes as lists, and their products. *)
Definition codesNLH : list string := ["N"; "L"; "H"].

Definition triads : list (string * (string * string)) :=
  list_prod codesNLH (list_prod codesNLH codesNLH).

Definition exploitsV4 : list (string * (string * (string * (string * string)))) :=
  list_prod ["N"; "A"; "L"; "P"] (list_prod ["L"; "H"] (list_prod ["N"; "P"]
    (list_prod ["N"; "L"; "H"] ["N"; "P"; "A"]))).

Definition triadF (t : string * (string * string)) : float :=
  v4Triad (Some t.1) (Some t.2.1) (Some t.2.2).

Definition triadQ (t : string * (string * string)) : Q :=
  Spec.triadImpact (Some t.1) (Some t.2.1) (Some t.2.2).

(** The binary64 maximum of two triads is a triad whose exact value is
    the exact maximum. *)
Definition maxAgrees : bool :=
  forallb (λ t1, forallb (λ t2,
    let m := JS.Math_max (triadF t1) (triadF t2) in
    (PrimFloat.Leibniz.eqb m (triadF t1) && Qle_bool (triadQ t2) (triadQ t1))
    || (PrimFloat.Leibniz.eqb m (triadF t2) && Qle_bool (triadQ t1) (triadQ t2)))
    triads) triads.

(** For every exploitability and every triad, the binary64 score is the
    double nearest to the exact one. *)
Definition finalAgreesV4 : bool :=
  forallb (λ e,
    let ef := v4Exploitability (Some e.1) (Some e.2.1) (Some e.2.2.1)
                               (Some e.2.2.2.1) (Some e.2.2.2.2) in
    let eq := Qred (Spec.ExploitabilityV4 (Some e.1) (Some e.2.1) (Some e.2.2.1)
                                          (Some e.2.2.2.1) (Some e.2.2.2.2)) in
    forallb (λ t,
      PrimFloat.Leibniz.eqb (v4Final ef (triadF t))
        (Q2double (Spec.roundUp (Spec.BaseScoreV4 (6.42 * triadQ t) eq))))
      triads) exploitsV4.

#[local] Open Scope float_scope.

(** The impact sub score, the exploitability and the base score of
    [v3Score], as functions of their own; [p] stands for the value of
    [Math.pow(iss - 0.02, 15)]. *)
Definition v3ISS (C I A : option string) : float :=
  1 - ((1 - JS.ToNumber (JS.get CVSS3_WEIGHTS.C C)) * (1 - JS.ToNumber (JS.get CVSS3_WEIGHTS.I I))
       * (1 - JS.ToNumber (JS.get CVSS3_WEIGHTS.A A))).

Definition v3Exploitability (AV AC PR UI S : option string) : option float :=
  match JS.get CVSS3_WEIGHTS.PR PR with
  | None => None
  | Some prTable =>
      Some (8.22 * JS.ToNumber (JS.get CVSS3_WEIGHTS.AV AV)
            * JS.ToNumber (JS.get CVSS3_WEIGHTS.AC AC)
            * JS.ToNumber (JS.get prTable S)
            * JS.ToNumber (JS.get CVSS3_WEIGHTS.UI UI))
  end.

Definition v3Base (S : option string) (iss p exploitability : float) : float :=
  let impact :=
    if JS.strict_eq S (Some "U"%string) then 6.42 * iss
    else 7.52 * (iss - 0.029) - 3.25 * p in
  if impact <=? 0 then 0
  else if JS.strict_eq S (Some "U"%string)
       then JS.Math_min (impact + exploitability) 10
       else JS.Math_min (1.08 * (impact + exploitability)) 10.

#[local] Close Scope float_scope.

Definition exploitsV3 : list (string * (string * (string * string))) :=
  list_prod ["N"; "A"; "L"; "P"] (list_prod ["L"; "H"] (list_prod ["N"; "L"; "H"] ["N"; "R"])).

Definition issF (t : string * (string * string)) : float :=
  v3ISS (Some t.1) (Some t.2.1) (Some t.2.2).

Definition issQ (t : string * (string * string)) : Q :=
  Spec.ISS (Some t.1) (Some t.2.1) (Some t.2.2).

Definition explF (S : string) (e : string * (string * (string * string))) : option float :=
  v3Exploitability (Some e.1) (Some e.2.1) (Some e.2.2.1) (Some e.2.2.2) (Some S).

Definition explQ (S : string) (e : string * (string * (string * string))) : Q :=
  Spec.ExploitabilityV3 (Some e.1) (Some e.2.1) (Some e.2.2.1) (Some e.2.2.2) (Some S).

(** Scope unchanged: for every impact triad and every exploitability, the
    binary64 score is the double nearest to the exact one. *)
Definition finalAgreesV3U : bool :=
  forallb (λ t,
    let iss := issF t in
    let impact := Qred (6.42 * issQ t) in
    forallb (λ e,
      match explF "U" e with
      | Some ef =>
          PrimFloat.Leibniz.eqb (roundUp (v3Base (Some "U") iss 0 ef))
            (Q2double (Spec.roundUp (Spec.BaseScoreV3 (Some "U") impact (Qred (explQ "U" e)))))
      | None => false
      end) exploitsV3) triads.

(** Scope changed.  The exact fifteenth power is enclosed between two
    rationals 10^-18 apart, and so is the exact impact. *)
Definition powLo (t : string * (string * string)) : Q :=
  (Qfloor ((issQ t - 0.02) ^ 15 * inject_Z (10 ^ 18)) # 10 ^ 18)%Q.

Definition impactLoC (t : string * (string * string)) : Q :=
  Qred (7.52 * (issQ t - 0.029) - 3.25 * (powLo t + (1 # 10 ^ 18)))%Q.

Definition impactHiC (t : string * (string * string)) : Q :=
  Qred (7.52 * (issQ t - 0.029) - 3.25 * powLo t)%Q.

(** For every impact triad, every exploitability and every double within
    sixteen units in the last place of the power by squaring, the
    binary64 score is the double nearest to the exact score, which is the
    same at both ends of the enclosure. *)
Definition finalAgreesV3C : bool :=
  forallb (λ t,
    let iss := issF t in
    let candidates := within_ulps 16 (pow15 (iss - 0.02)%float) in
    let lo := impactLoC t in
    let hi := impactHiC t in
    (abs (iss - 0.02) <=? 1)%float
    && forallb (λ e,
         let eq := Qred (explQ "C" e) in
         let score := Spec.roundUp (Spec.BaseScoreV3 (Some "C") lo eq) in
         match explF "C" e with
         | Some ef =>
             Qle_bool 0 eq
             && Qeq_bool score (Spec.roundUp (Spec.BaseScoreV3 (Some "C") hi eq))
             && forallb (λ p,
                  PrimFloat.Leibniz.eqb (roundUp (v3Base (Some "C") iss p ef)) (Q2double score))
                  candidates
         | None => false
         end) exploitsV3) triads.

(** One-decimal scores and their doubles: [Q2double (n # 10)] is at
    least as close to n/10 as the doubles next to it on either side. *)
Definition tenthNearest (n : Z) : bool :=
  let q := (n # 10)%Q in
  let d := Q2double q in
  let err (x : float) := Qabs (double2Q x - q) in
  Qle_bool (err d) (err (next_up d)) && Qle_bool (err d) (err (next_down d)).

(** [getSeverity] on the double of a one-decimal score agrees with the
    severity bands on the score itself. *)
Definition severityAgrees (n : Z) : bool :=
  String.eqb (getSeverity (Q2double (n # 10))) (Spec.severity (n # 10)).

(** ** Enumerating legal metric sets *)

(** The values a metric set holds under the keys of a shape, in order. *)
Definition valuesOf (shape : list (string * list string)) (m : Metrics) : list string :=
  (λ kv, default "" (m !! kv.1)) <$> shape.

(** ** Inputs of the scenarios *)

(** Scenario 1 as a state; the same with Scope changed; a v4 state with
    SC=H and VC=N, once with UI=N and once with UI=P. *)
Definition stateScenario1 : State :=
  mkState 3 (metricsOf shapeV3.*1 ["N"; "L"; "N"; "N"; "U"; "H"; "H"; "H"]).

Definition stateScopeChanged : State :=
  mkState 3 (metricsOf shapeV3.*1 ["N"; "L"; "N"; "N"; "C"; "H"; "L"; "N"]).

Definition stateSubsequentHigh : State :=
  mkState 4 (metricsOf shapeV4.*1 ["N"; "L"; "N"; "N"; "N"; "N"; "N"; "N"; "H"; "N"; "N"]).

Definition stateSubsequentHighPassive : State :=
  mkState 4 (metricsOf shapeV4.*1 ["N"; "L"; "N"; "N"; "P"; "N"; "N"; "N"; "H"; "N"; "N"]).

(** Vectors used as examples: scenario 1; the same behind a blank; an
    illegal value of AV, and one of PR, which is no key of
    [CVSS3_WEIGHTS.PR]; a segment with two colons; a pair glued to the
    prefix; a key written twice, in a complete and in an incomplete
    vector. *)
Definition scenario1 : string := "CVSS:3.1/AV:N/AC:L/PR:N/UI:N/S:U/C:H/I:H/A:H".
Definition vectorLeadingSpace : string := " CVSS:3.1/AV:N/AC:L/PR:N/UI:N/S:U/C:H/I:H/A:H".
Definition vectorIllegalValue : string := "CVSS:3.1/AV:X/AC:L/PR:N/UI:N/S:U/C:H/I:H/A:H".
Definition vectorIllegalPR : string := "CVSS:3.1/AV:N/AC:L/PR:X/UI:N/S:U/C:H/I:H/A:H".
Definition vectorTwoColons : string := "CVSS:3.1/AV:N:X/AC:L/PR:N/UI:N/S:U/C:H/I:H/A:H".
Definition vectorGluedPair : string := "CVSS:3.1AV:N/AC:L/PR:N/UI:N/S:U/C:H/I:H/A:H".
Definition vectorDuplicate : string := "CVSS:3.1/AV:N/AC:L/PR:N/UI:N/S:U/C:H/I:H/A:H/AV:L".
Definition vectorDuplicateOnly : string := "CVSS:3.1/AV:N/AV:L".
Definition vectorDuplicateProto : string :=
  "CVSS:3.1/AV:N/AC:L/PR:N/UI:N/S:U/C:H/I:H/A:H/__proto__:a/__proto__:b".

(** ** The handlers that touch the two globals only *)

(** [initializeDefaultMetrics()]: the defaults of v3, under whatever
    version is current. *)
Definition initializeDefaultMetrics (st : State) : State :=
  {| currentVersion := currentVersion st; currentMetrics := defaultMetricsV3 |}.

(** [clearAll()] *)
Definition clearAll (st : State) : State := initializeDefaultMetrics st.

(** [selectMetric(metric, value, button)]: [currentMetrics[metric] = value],
    both read from the [dataset] of the button that was clicked, where
    an attribute that is not there reads [undefined].  The setter of
    ["__proto__"] ignores strings and [undefined]. *)
Definition selectMetric (metric value : option string) (st : State) : State :=
  let key := JS.ToPropertyKey metric in
  {| currentVersion := currentVersion st;
     currentMetrics :=
       if decide (key = "__proto__") then currentMetrics st
       else assign (currentMetrics st) key value |}.

(** The globals as the script declares them, and as the listener of
    [DOMContentLoaded] leaves them. *)
Definition declared : State := mkState 3 ∅.

Definition loaded : State := initializeDefaultMetrics declared.

(** The listeners that [setupEventListeners] installs: the two version
    buttons, the parse button (and Enter in the input field) with the
    text of the field, the clear and convert buttons, and a metric
    button with its [dataset]. *)
Inductive Event :=
  | ClickV3
  | ClickV4
  | ClickParse (text : string)
  | ClickClear
  | ClickConvert
  | ClickMetric (metric value : option string).

Definition handle (st : State) (ev : Event) : State :=
  match ev with
  | ClickV3 => switchVersion 3 st
  | ClickV4 => switchVersion 4 st
  | ClickParse text => fst (parseVector text st)
  | ClickClear => clearAll st
  | ClickConvert => snd (convertVector st)
  | ClickMetric metric value => selectMetric metric value st
  end.

(** The shape of a version, as [generateVector] and [calculateScore]
    tell versions apart. *)
Definition shapeOf (version : Z) : list (string * list string) :=
  if (version =? 3)%Z then shapeV3 else shapeV4.

(** The events of a session at the buttons: the metric buttons of the
    container on show, each carrying a key of the current version and
    one of its value codes; the version and convert buttons; the clear
    button while v3 is current; and parsing a vector generated from a
    legal state. *)
Definition atButtons (st : State) (ev : Event) : Prop :=
  match ev with
  | ClickV3 | ClickV4 | ClickConvert => True
  | ClickParse text => ∃ st' : State, legalState st' ∧ text = generateVector st'
  | ClickClear => currentVersion st = 3%Z
  | ClickMetric (Some metric) (Some value) =>
      ∃ vs : list string,
        legalValues (shapeOf (currentVersion st)) metric = Some vs ∧ value ∈ vs
  | ClickMetric _ _ => False
  end.

(** The states of such sessions. *)
Inductive reachable : State → Prop :=
  | reachable_loaded : reachable loaded
  | reachable_handle (st : State) (ev : Event) :
      reachable st → atButtons st ev → reachable (handle st ev).

(** ** What a generated vector spells *)

(** The metric set that the vector generated from a state spells out:
    under every key of the version, the text interpolated for it. *)
Definition spelled (st : State) : Metrics :=
  let keys := required (currentVersion st) in
  metricsOf keys ((λ k, JS.interp (currentMetrics st !! k)) <$> keys).

(** A v4 state holding the v3 defaults. *)
Definition stateV4WithV3Defaults : State := mkState 4 defaultMetricsV3.

(** ** The exact score of a state, and its numeral *)

(** The exact score of the version that is current. *)
Definition exactScore (st : State) : Q :=
  if (currentVersion st =? 3)%Z then Spec.scoreV3 (currentMetrics st)
  else Spec.scoreV4 (currentMetrics st).

(** Digits of a natural number, and the numeral of a non-negative
    rational cut after one decimal. *)
Definition digits (n : Z) : string := NilZero.string_of_uint (N.to_uint (Z.to_N n)).

Definition oneDecimal (q : Q) : string :=
  let n := Qfloor (q * 10) in
  (digits (n / 10) ++ "." ++ digits (n mod 10))%string.

(** ** The page *)

(** [String.prototype.toLowerCase] on code units below 256: the capital
    letters A to Z and the capital letters of Latin-1 (192 to 222 but
    for the multiplication sign) move up by 32. *)
Definition String_toLowerCase_unit (c : ascii) : ascii :=
  let n := nat_of_ascii c in
  if ((65 <=? n) && (n <=? 90) || (192 <=? n) && (n <=? 222) && negb (n =? 215))%nat
  then ascii_of_nat (n + 32) else c.

Fixpoint String_toLowerCase (s : string) : string :=
  match s with
  | EmptyString => EmptyString
  | String c s' => String (String_toLowerCase_unit c) (String_toLowerCase s')
  end.

(** How a handler ends: it returns, it returns after an [alert], or it is
    left by the TypeError thrown in [calculateCVSSv3Score]. *)
Inductive Outcome :=
  | Returned
  | Alerted (message : string)
  | Thrown.

Module Widget.

(** The properties of the document that the script writes, one field for
    each, named after the id of the element: the [value] of the input
    field, the [textContent] of the current vector, of the score, of the
    severity, of the converted vector and of the convert target, the
    [className] of the severity, the [style.display] of the result
    sections and of the metric containers, whether the version buttons
    carry the class [active], and what [innerHTML] of the warning box
    lists ([None] for the empty text, else the items under the heading).
    Every element the script looks up by id is taken to exist.  Which
    metric buttons carry the class [selected] is left out. *)
Record Page := mkPage {
  vector_string : string;
  current_vector : string;
  score_display : string;
  severity_display : string;
  severity_display_className : string;
  results_section : string;
  conversion_result : string;
  converted_vector : string;
  conversion_warning : option (list string);
  v3_btn_active : bool;
  v4_btn_active : bool;
  v3_metrics : string;
  v4_metrics : string;
  convert_target : string
}.

(** The globals and the page a handler leaves, and how it ended. *)
Record Run := mkRun {
  state : State;
  page : Page;
  outcome : Outcome
}.

Section Handlers.

(** [Math.pow] and, for numbers from 10^21 on, [Number.prototype.toString],
    as the engine at hand implements them. *)
Variable Math_pow : float → float → float.
Variable Number_toString : float → string.

(** [x.toFixed(1)]: the text of a number that is not finite; else the
    sign, and for a magnitude below 10^21 the digits of the integer n
    nearest to ten times the magnitude (the larger of two), padded to
    two digits, with a point before the last. *)
Definition Number_toFixed1 (x : float) : string :=
  match Prim2SF x with
  | S754_nan => "NaN"
  | S754_infinity s => if s then "-Infinity" else "Infinity"
  | S754_zero _ => "0.0"
  | S754_finite s _ _ =>
      let sign := if s then "-" else "" in
      let magnitude := abs x in
      if (1e21 <=? magnitude)%float then (sign ++ Number_toString magnitude)%string
      else
        let n := Qfloor (double2Q magnitude * 10 + (1 # 2)) in
        let m := NilZero.string_of_uint (N.to_uint (Z.to_N n)) in
        let m := if (String.length m <=? 1)%nat then ("0" ++ m)%string else m in
        let k := String.length m in
        (sign ++ substring 0 (k - 1) m ++ "." ++ substring (k - 1) 1 m)%string
  end.

(** [updateUI()]: writes the vector twice, then the score and what comes
    after it unless the score throws. *)
Definition updateUI (st : State) (pg : Page) : Page * Outcome :=
  let vector := generateVector st in
  match calculateScore Math_pow st with
  | Some score =>
      ({| vector_string := vector;
          current_vector := vector;
          score_display := Number_toFixed1 score;
          severity_display := getSeverity score;
          severity_display_className :=
            ("severity-display " ++ String_toLowerCase (getSeverity score))%string;
          results_section := "block";
          conversion_result := "none";
          converted_vector := converted_vector pg;
          conversion_warning := conversion_warning pg;
          v3_btn_active := v3_btn_active pg;
          v4_btn_active := v4_btn_active pg;
          v3_metrics := v3_metrics pg;
          v4_metrics := v4_metrics pg;
          convert_target := convert_target pg |}, Returned)
  | None =>
      ({| vector_string := vector;
          current_vector := vector;
          score_display := score_display pg;
          severity_display := severity_display pg;
          severity_display_className := severity_display_className pg;
          results_section := results_section pg;
          conversion_result := conversion_result pg;
          converted_vector := converted_vector pg;
          conversion_warning := conversion_warning pg;
          v3_btn_active := v3_btn_active pg;
          v4_btn_active := v4_btn_active pg;
          v3_metrics := v3_metrics pg;
          v4_metrics := v4_metrics pg;
          convert_target := convert_target pg |}, Thrown)
  end.

(** [initializeDefaultMetrics()] *)
Definition initializeDefaultMetrics (st : State) (pg : Page) : Run :=
  let st1 := {| currentVersion := currentVersion st; currentMetrics := defaultMetricsV3 |} in
  let '(pg1, o) := updateUI st1 pg in
  mkRun st1 pg1 o.

(** [switchVersion(version)] *)
Definition switchVersion (version : Z) (st : State) (pg : Page) : Run :=
  let pg1 :=
    {| vector_string := vector_string pg;
       current_vector := current_vector pg;
       score_display := score_display pg;
       severity_display := severity_display pg;
       severity_display_className := severity_display_className pg;
       results_section := results_section pg;
       conversion_result := conversion_result pg;
       converted_vector := converted_vector pg;
       conversion_warning := conversion_warning pg;
       v3_btn_active := (version =? 3)%Z;
       v4_btn_active := (version =? 4)%Z;
       v3_metrics := if (version =? 3)%Z then "block" else "none";
       v4_metrics := if (version =? 4)%Z then "block" else "none";
       convert_target := if (version =? 3)%Z then "CVSS v4.0" else "CVSS v3.1" |} in
  let st1 :=
    {| currentVersion := version;
       currentMetrics := if (version =? 3)%Z then defaultMetricsV3 else defaultMetricsV4 |} in
  let '(pg2, o) := updateUI st1 pg1 in
  mkRun st1 pg2 o.

(** [selectMetric(metric, value, button)] *)
Definition selectMetric (metric value : option string) (st : State) (pg : Page) : Run :=
  let key := JS.ToPropertyKey metric in
  let st1 :=
    {| currentVersion := currentVersion st;
       currentMetrics :=
         if decide (key = "__proto__") then currentMetrics st
         else assign (currentMetrics st) key value |} in
  let '(pg1, o) := updateUI st1 pg in
  mkRun st1 pg1 o.

(** [parseVector()], reading the input field.  The text is read once, so
    the switch of version, which rewrites the field, does not change
    what is parsed. *)
Definition parseVector (st : State) (pg : Page) : Run :=
  let vectorString := JS.trim (vector_string pg) in
  if String.eqb vectorString "" then mkRun st pg (Alerted EmptyInput)
  else
    match versionOf vectorString with
    | None => mkRun st pg (Alerted InvalidFormat)
    | Some version =>
        let r1 :=
          if negb (version =? currentVersion st)%Z then switchVersion version st pg
          else mkRun st pg Returned in
        match outcome r1 with
        | Returned =>
            let newMetrics := extractMetrics (JS.split "/" vectorString) in
            match firstMissing (required version) newMetrics with
            | Some metric => mkRun (state r1) (page r1) (Alerted (MissingMetric metric))
            | None =>
                let st2 :=
                  {| currentVersion := currentVersion (state r1);
                     currentMetrics := newMetrics |} in
                let '(pg2, o) := updateUI st2 (page r1) in
                mkRun st2 pg2 o
            end
        | _ => r1
        end
    end.

(** [convertVector()] *)
Definition convertVector (st : State) (pg : Page) : Run :=
  let targetVersion := if (currentVersion st =? 3)%Z then 4%Z else 3%Z in
  let '(cm, w) :=
    if (currentVersion st =? 3)%Z then convertV3toV4 (currentMetrics st)
    else convertV4toV3 (currentMetrics st) in
  let st1 := {| currentVersion := targetVersion; currentMetrics := cm |} in
  let convertedVector := generateVector st1 in
  let pg1 :=
    {| vector_string := vector_string pg;
       current_vector := current_vector pg;
       score_display := score_display pg;
       severity_display := severity_display pg;
       severity_display_className := severity_display_className pg;
       results_section := results_section pg;
       conversion_result := "block";
       converted_vector := convertedVector;
       conversion_warning := if (0 <? length w)%nat then Some w else None;
       v3_btn_active := v3_btn_active pg;
       v4_btn_active := v4_btn_active pg;
       v3_metrics := v3_metrics pg;
       v4_metrics := v4_metrics pg;
       convert_target := convert_target pg |} in
  switchVersion targetVersion st1 pg1.

(** [clearAll()] *)
Definition clearAll (st : State) (pg : Page) : Run :=
  let pg1 :=
    {| vector_string := "";
       current_vector := current_vector pg;
       score_display := score_display pg;
       severity_display := severity_display pg;
       severity_display_className := severity_display_className pg;
       results_section := results_section pg;
       conversion_result := "none";
       converted_vector := converted_vector pg;
       conversion_warning := conversion_warning pg;
       v3_btn_active := v3_btn_active pg;
       v4_btn_active := v4_btn_active pg;
       v3_metrics := v3_metrics pg;
       v4_metrics := v4_metrics pg;
       convert_target := convert_target pg |} in
  initializeDefaultMetrics st pg1.

End Handlers.

End Widget.

(** [toFixed(1)] on the double of a one-decimal score stays below 10^21
    and prints the numeral of the score. *)
Definition numeralAgrees (n : Z) : bool :=
  let d := Q2double (n # 10) in
  negb (1e21 <=? abs d)%float
  && String.eqb (Widget.Number_toFixed1 (λ _, EmptyString) d) (oneDecimal (n # 10)).

(** The names of the properties that every object inherits from
    [Object.prototype]; a table of the script read under one of them
    yields the inherited value, which the model leaves out. *)
Definition Object_prototype_names : list string :=
  ["constructor"; "__defineGetter__"; "__defineSetter__"; "hasOwnProperty";
   "__lookupGetter__"; "__lookupSetter__"; "isPrototypeOf"; "propertyIsEnumerable";
   "toString"; "valueOf"; "__proto__"; "toLocaleString"].

(** The default vectors, and the vector of v4 read off the defaults of v3. *)
Definition defaultVectorV3 : string := "CVSS:3.1/AV:N/AC:L/PR:N/UI:N/S:U/C:N/I:N/A:N".

Definition defaultVectorV4 : string :=
  "CVSS:4.0/AV:N/AC:L/AT:N/PR:N/UI:N/VC:N/VI:N/VA:N/SC:N/SI:N/SA:N".

Definition undefinedVectorV4 : string :=
  "CVSS:4.0/AV:N/AC:L/AT:undefined/PR:N/UI:N/VC:undefined/VI:undefined/VA:undefined/SC:undefined/SI:undefined/SA:undefined".

(** A page with nothing written on it yet. *)
Definition blankPage : Widget.Page :=
  Widget.mkPage "" "" "" "" "" "" "" "" None false false "" "" "".

(** A v3 vector whose PR is no key of [CVSS3_WEIGHTS.PR], as a page of
    its own: scenario 1 is on show and the vector is in the input field. *)
Definition pageIllegalPR : Widget.Page :=
  Widget.mkPage vectorIllegalPR scenario1 "9.8" "Critical" "severity-display critical"
    "block" "none" "" None true false "block" "none" "CVSS v4.0".

(** The same vector typed into the page of the v4 defaults. *)
Definition pageIllegalPRv4 : Widget.Page :=
  Widget.mkPage vectorIllegalPR defaultVectorV4 "3.9" "Low" "severity-display low"
    "block" "none" "" None false true "none" "block" "CVSS v3.1".

(** ** Scores across the conversion, and scores of no impact *)

(** Attack vector, complexity and privileges, with no user interaction
    under Scope unchanged: the v3 exploitability is the v4 one with no
    attack requirements. *)
Definition exploitsUN : list (string * (string * string)) :=
  list_prod ["N"; "A"; "L"; "P"] (list_prod ["L"; "H"] ["N"; "L"; "H"]).

Definition exploitabilityKept (e : string * (string * string)) : bool :=
  match v3Exploitability (Some e.1) (Some e.2.1) (Some e.2.2) (Some "N") (Some "U") with
  | Some ef =>
      PrimFloat.Leibniz.eqb ef
        (v4Exploitability (Some e.1) (Some e.2.1) (Some "N") (Some e.2.2) (Some "N"))
  | None => false
  end.

(** A triad against no subsequent impact: the maximum is the triad, the
    v3 impact sub score; and 6.42 times it is positive unless the triad
    is all N. *)
Definition impactKept (t : string * (string * string)) : bool :=
  PrimFloat.Leibniz.eqb (JS.Math_max (triadF t) (triadF ("N", ("N", "N")))) (issF t)
  && (bool_decide (t = ("N", ("N", "N"))) || negb (6.42 * issF t <=? 0)%float).

(** The exact v3 impact is positive for every triad but the one of no
    impact, under either scope; the exact v4 exploitability is positive. *)
Definition impactSign (t : string * (string * string)) : bool :=
  if bool_decide (t = ("N", ("N", "N")))
  then Qle_bool (6.42 * issQ t) 0 && Qle_bool (impactHiC t) 0
  else negb (Qle_bool (6.42 * issQ t) 0) && negb (Qle_bool (impactLoC t) 0).

Definition exploitabilityV4Positive (e : string * (string * (string * (string * string)))) : bool :=
  negb (Qle_bool (Spec.ExploitabilityV4 (Some e.1) (Some e.2.1) (Some e.2.2.1)
                                        (Some e.2.2.2.1) (Some e.2.2.2.2)) 0).

(** The double of a one-decimal score from 0.1 on is at least the double 0.1. *)
Definition tenthPositive (n : Z) : bool := (0.1 <=? Q2double (n # 10))%float.

(** The ratings of a score that is not zero. *)
Definition ratings : list string := ["Low"; "Medium"; "High"; "Critical"].

(** ** Comparing metric sets *)

(** The exact weights of a metric set, in the order of the vector; a
    metric set is at least as severe as another when none of its weights
    is lower. *)
Definition weightsV3 (m : Metrics) : list Q :=
  [Spec.AVw (m !! "AV"); Spec.ACw (m !! "AC"); Spec.PRw (m !! "S") (m !! "PR");
   Spec.UIw (m !! "UI");
   Spec.CIAw (m !! "C"); Spec.CIAw (m !! "I"); Spec.CIAw (m !! "A")].

Definition weightsV4 (m : Metrics) : list Q :=
  [Spec.AV4w (m !! "AV"); Spec.AC4w (m !! "AC"); Spec.AT4w (m !! "AT");
   Spec.PR4w (m !! "PR"); Spec.UI4w (m !! "UI");
   Spec.impactW (m !! "VC"); Spec.impactW (m !! "VI"); Spec.impactW (m !! "VA");
   Spec.impactW (m !! "SC"); Spec.impactW (m !! "SI"); Spec.impactW (m !! "SA")].

(** The doubles of two one-decimal scores are ordered as the scores. *)
Definition tenthsOrdered (ab : Z * Z) : bool :=
  implb (ab.1 <=? ab.2)%Z (Q2double (ab.1 # 10) <=? Q2double (ab.2 # 10))%float.

(** The impact sub score of a triad with the enclosure of its exact
    impact under Scope changed; of two triads, the one with the higher
    sub score has the higher impact. *)
Definition enclosure (t : string * (string * string)) : Q * (Q * Q) :=
  (Qred (issQ t), (impactLoC t, impactHiC t)).

Definition impactOrdered (ab : (Q * (Q * Q)) * (Q * (Q * Q))) : bool :=
  implb (Qle_bool ab.1.1 ab.2.1)
        (Qeq_bool ab.1.1 ab.2.1 || Qle_bool ab.1.2.2 ab.2.2.1).

(** A value that no table of the script resolves through
    [Object.prototype]: [undefined], or a string that is not the name of
    an inherited property. *)
Definition plain (v : option string) : Prop :=
  ∀ s : string, v = Some s → s ∉ Object_prototype_names.

(** One of the impact codes N, L and H. *)
Definition isNLH (v : option string) : bool :=
  match v with
  | Some s => bool_decide (s ∈ ["N"; "L"; "H"])
  | None => false
  end.

(** ** Metrics beyond those of the version *)

(** Two metric sets agree on the keys of a version. *)
Definition agreeOn (keys : list string) (m m' : Metrics) : Prop :=
  ∀ k : string, k ∈ keys → m !! k = m' !! k.

(** Scenario 1 followed by three temporal metrics. *)
Definition vectorWithTemporal : string :=
  "CVSS:3.1/AV:N/AC:L/PR:N/UI:N/S:U/C:H/I:H/A:H/E:P/RL:O/RC:C".

(** ** Tactics *)

(** The value a legal metric set holds under a key, with its membership
    in the value codes of the key. *)
Tactic Notation "legal_key" hyp(H) constr(k) ident(v) :=
  let Hv := fresh "H" v in
  let Hin := fresh "Hin" v in
  destruct (H k) as (v & Hv & Hin).

(** Case analysis on membership in a list of literals. *)
Ltac cases_in H :=
  apply list_elem_of_In in H; simpl in H;
  repeat match type of H with
         | _ ∨ _ => destruct H as [<-|H]
         | False => destruct H
         end.

(** A table of weights between 0 and 1. *)
Ltac unit_table :=
  repeat (apply Forall_cons; split; [split; apply Qle_bool_iff; reflexivity|]);
  by apply Forall_nil.

(** Facts about how a handler ended, read off closed terms. *)
Ltac outcome_facts :=
  repeat split; try done; try (intuition congruence);
  try (intros; match goal with H : is_Some None |- _ => by destruct H end).

(** ** From v4 to v3 and back *)

(** A v4 metric set converted to v3 and the result converted back. *)
Definition viaV3 (m : Metrics) : Metrics :=
  convertedMetrics (fst (convertVector (mkState 3
    (convertedMetrics (fst (convertVector (mkState 4 m))))))).

(** A v4 state with active user interaction and an attack requirement. *)
Definition stateActivePresent : State :=
  mkState 4 (metricsOf shapeV4.*1 ["N"; "L"; "P"; "N"; "A"; "H"; "L"; "N"; "N"; "N"; "N"]).

(** * Properties *)

(** ** Shape of the result of [parseVector] *)

(** On a vector of a recognised version whose required metrics were all
    extracted, [parseVector] alerts nothing and leaves exactly the
    extracted metrics under that version, whatever the state before. *)
Lemma parseVector_success (input : string) (st : State) (version : Z) :
  String.eqb (JS.trim input) "" = false →
  versionOf (JS.trim input) = Some version →
  firstMissing (required version) (extractMetrics (JS.split "/" (JS.trim input))) = None →
  parseVector input st
  = (mkState version (extractMetrics (JS.split "/" (JS.trim input))), None).
Proof.
  intros Hne Hv Hm. unfold parseVector. rewrite Hne, Hv, Hm.
  destruct (Z.eqb_spec version (currentVersion st)) as [->|_]; reflexivity.
Qed.

(** A missing required metric is reported by name, and the state before
    is kept unless the version differs (then the defaults of the new
    version are shown). *)
Lemma parseVector_missing (input : string) (st : State) (version : Z) (metric : string) :
  String.eqb (JS.trim input) "" = false →
  versionOf (JS.trim input) = Some version →
  firstMissing (required version) (extractMetrics (JS.split "/" (JS.trim input))) = Some metric →
  parseVector input st
  = (if (version =? currentVersion st)%Z then st else switchVersion version st,
     Some (MissingMetric metric)).
Proof.
  intros Hne Hv Hm. unfold parseVector. rewrite Hne, Hv, Hm.
  destruct (version =? currentVersion st)%Z; reflexivity.
Qed.

(** ** Scenario 1 *)

(** C1. Parsing CVSS:3.1/AV:N/AC:L/PR:N/UI:N/S:U/C:H/I:H/A:H succeeds from
    any state, under any [Math.pow]; scoring the parsed metrics (through
    [calculateScore] as through [calculateCVSSv3Score]) returns the
    double 9.8, and [getSeverity] of 9.8 is Critical. *)
Theorem scenario1_score_9_8_critical :
  ∀ (Math_pow : float → float → float) (st : State),
    snd (parseVector scenario1 st) = None
    ∧ calculateCVSSv3Score Math_pow (fst (parseVector scenario1 st)) = Some 9.8%float
    ∧ calculateScore Math_pow (fst (parseVector scenario1 st)) = Some 9.8%float
    ∧ getSeverity 9.8%float = "Critical".
Proof.
  intros Math_pow st.
  rewrite (parseVector_success scenario1 st 3) by (vm_compute; reflexivity).
  repeat split; vm_compute; reflexivity.
Qed.

(** ** Legal metric sets, enumerated *)

Lemma legalValues_Some shape k vs :
  legalValues shape k = Some vs → (k, vs) ∈ shape.
Proof.
  induction shape as [|[k' vs'] rest IH]; simpl; [done|].
  destruct (String.eqb_spec k k') as [->|Hne].
  - intros [= ->]. left.
  - intros H. right. auto.
Qed.

Lemma legalValues_None shape k :
  legalValues shape k = None → k ∉ shape.*1.
Proof.
  induction shape as [|[k' vs'] rest IH]; simpl.
  - intros _. apply not_elem_of_nil.
  - destruct (String.eqb_spec k k') as [->|Hne]; [done|].
    intros H. apply not_elem_of_cons. split; auto.
Qed.

Lemma legalValues_elem shape k vs :
  NoDup shape.*1 → (k, vs) ∈ shape → legalValues shape k = Some vs.
Proof.
  induction shape as [|[k' vs'] rest IH]; simpl; intros Hnd Hin.
  - by apply elem_of_nil in Hin.
  - apply NoDup_cons in Hnd as [Hk Hnd].
    apply elem_of_cons in Hin as [[= -> ->]|Hin].
    + by rewrite String.eqb_refl.
    + destruct (String.eqb_spec k k') as [->|Hne]; [|auto].
      exfalso. apply Hk. apply list_elem_of_fmap. by exists (k', vs).
Qed.

Lemma zip_keys_values {A} (f : string * A → string) (l : list (string * A)) :
  zip l.*1 (f <$> l) = (λ kv, (kv.1, f kv)) <$> l.
Proof. induction l as [|kv l IH]; csimpl; [done|]. by rewrite IH. Qed.

(** A legal metric set is the one built from its own values, each of
    them a value code of its key. *)
Lemma legal_metricsOf shape m :
  NoDup shape.*1 → legal shape m →
  Forall2 (λ kv v, v ∈ kv.2) shape (valuesOf shape m)
  ∧ m = metricsOf shape.*1 (valuesOf shape m).
Proof.
  intros Hnd Hm. split.
  - unfold valuesOf. apply Forall2_fmap_r, Forall_Forall2_diag, Forall_forall.
    intros [k vs] Hin. specialize (Hm k). rewrite (legalValues_elem _ _ _ Hnd Hin) in Hm.
    destruct Hm as (v & Hv & Hin'). simpl. by rewrite Hv.
  - apply map_eq. intros k. unfold metricsOf, valuesOf.
    rewrite zip_keys_values.
    assert (Hfst : ((λ kv : string * list string, (kv.1, default "" (m !! kv.1))) <$> shape).*1
                   = shape.*1).
    { rewrite <-list_fmap_compose. apply list_fmap_ext. by intros ? []. }
    specialize (Hm k). destruct (legalValues shape k) as [vs|] eqn:E.
    + destruct Hm as (v & Hv & _). rewrite Hv. symmetry.
      apply elem_of_list_to_map_1.
      * by rewrite Hfst.
      * apply list_elem_of_fmap. exists (k, vs). split; [|by apply legalValues_Some].
        simpl. by rewrite Hv.
    + rewrite Hm. symmetry. apply not_elem_of_list_to_map_1.
      rewrite Hfst. by apply legalValues_None.
Qed.

(** Conversely, values drawn from the value codes make a legal set. *)
Lemma metricsOf_legal shape vals :
  Forall2 (λ kv v, v ∈ kv.2) shape vals → legal shape (metricsOf shape.*1 vals).
Proof.
  induction 1 as [|[k0 vs0] v0 shape vals Hv0 _ IH]; intros k; simpl.
  - apply lookup_empty.
  - unfold metricsOf; simpl. destruct (String.eqb_spec k k0) as [->|Hne].
    + exists v0. split; [apply lookup_insert_eq|done].
    + rewrite lookup_insert_ne by done. apply IH.
Qed.

(** ** Cross-version converter *)

Lemma lookup_assign_eq (m : Metrics) k v : assign m k v !! k = v.
Proof. destruct v; simpl; [apply lookup_insert_eq|apply lookup_delete_eq]. Qed.

Lemma lookup_assign_ne (m : Metrics) k k' v : k ≠ k' → assign m k v !! k' = m !! k'.
Proof. intros. destruct v; simpl; [by apply lookup_insert_ne|by apply lookup_delete_ne]. Qed.

(** Closed form of the v3 to v4 branch on metrics whose UI and S are
    present. *)
Lemma convertV3toV4_closed (m : Metrics) (ui s : string) :
  m !! "UI" = Some ui → m !! "S" = Some s →
  let cm := (convertV3toV4 m).1 in
  cm !! "AV" = m !! "AV" ∧ cm !! "AC" = m !! "AC" ∧ cm !! "PR" = m !! "PR"
  ∧ cm !! "AT" = Some "N"
  ∧ cm !! "UI" = Some (if String.eqb ui "N" then "N" else "P")
  ∧ cm !! "VC" = m !! "C" ∧ cm !! "VI" = m !! "I" ∧ cm !! "VA" = m !! "A"
  ∧ cm !! "SC" = (if String.eqb s "U" then Some "N" else m !! "C")
  ∧ cm !! "SI" = (if String.eqb s "U" then Some "N" else m !! "I")
  ∧ cm !! "SA" = (if String.eqb s "U" then Some "N" else m !! "A")
  ∧ (convertV3toV4 m).2
    = (if String.eqb ui "N" then [] else [noteUIv3])
      ++ (if String.eqb s "U" then [] else [noteScopeChanged]) ++ [noteATset].
Proof.
  intros Hui Hs cm. subst cm. unfold convertV3toV4.
  rewrite Hui, Hs. cbn [JS.strict_eq].
  destruct (String.eqb ui "N"); destruct (String.eqb s "U"); cbn [fst snd];
    repeat first [ rewrite lookup_assign_eq | rewrite lookup_assign_ne by discriminate ];
    repeat split; reflexivity.
Qed.

(** C9. Converting a legal v3 metric set with Scope=U and UI=N gives
    AT=N, UI=N, VC,VI,VA equal to C,I,A, SC,SI,SA all N, and exactly one
    note, the AT note; with Scope=C the triad C,I,A is copied into both
    VC,VI,VA and SC,SI,SA. *)
Theorem v3ToV4_fields_and_notes :
  ∀ st : State,
    currentVersion st = 3%Z → legal shapeV3 (currentMetrics st) →
    let m := currentMetrics st in
    let r := fst (convertVector st) in
    (m !! "S" = Some "U" → m !! "UI" = Some "N" →
       convertedMetrics r !! "AT" = Some "N" ∧ convertedMetrics r !! "UI" = Some "N"
       ∧ convertedMetrics r !! "VC" = m !! "C" ∧ convertedMetrics r !! "VI" = m !! "I"
       ∧ convertedMetrics r !! "VA" = m !! "A"
       ∧ convertedMetrics r !! "SC" = Some "N" ∧ convertedMetrics r !! "SI" = Some "N"
       ∧ convertedMetrics r !! "SA" = Some "N"
       ∧ warnings r = [noteATset])
    ∧ (m !! "S" = Some "C" →
       convertedMetrics r !! "VC" = m !! "C" ∧ convertedMetrics r !! "VI" = m !! "I"
       ∧ convertedMetrics r !! "VA" = m !! "A"
       ∧ convertedMetrics r !! "SC" = m !! "C" ∧ convertedMetrics r !! "SI" = m !! "I"
       ∧ convertedMetrics r !! "SA" = m !! "A").
Proof.
  intros [v m] Hv Hm; simpl in *; subst v.
  legal_key Hm "UI" ui. legal_key Hm "S" s.
  destruct (convertV3toV4_closed m ui s Hui Hs)
    as (_ & _ & _ & HAT & HUI & HVC & HVI & HVA & HSC & HSI & HSA & HW).
  unfold convertVector; simpl. destruct (convertV3toV4 m) as [cm w]; simpl in *.
  rewrite HAT, HUI, HVC, HVI, HVA, HSC, HSI, HSA, HW.
  split.
  - intros HS HU. assert (s = "U") as -> by congruence. assert (ui = "N") as -> by congruence.
    repeat split; reflexivity.
  - intros HS. assert (s = "C") as -> by congruence.
    repeat split; reflexivity.
Qed.

Lemma v3ToV4_fields_and_notes_witness :
  (let m := currentMetrics stateScenario1 in
   let r := fst (convertVector stateScenario1) in
   convertedMetrics r !! "AT" = Some "N" ∧ convertedMetrics r !! "UI" = Some "N"
   ∧ convertedMetrics r !! "VC" = m !! "C" ∧ convertedMetrics r !! "VI" = m !! "I"
   ∧ convertedMetrics r !! "VA" = m !! "A"
   ∧ convertedMetrics r !! "SC" = Some "N" ∧ convertedMetrics r !! "SI" = Some "N"
   ∧ convertedMetrics r !! "SA" = Some "N"
   ∧ warnings r = [noteATset])
  ∧ (let m := currentMetrics stateScopeChanged in
     let r := fst (convertVector stateScopeChanged) in
     convertedMetrics r !! "VC" = m !! "C" ∧ convertedMetrics r !! "VI" = m !! "I"
     ∧ convertedMetrics r !! "VA" = m !! "A"
     ∧ convertedMetrics r !! "SC" = m !! "C" ∧ convertedMetrics r !! "SI" = m !! "I"
     ∧ convertedMetrics r !! "SA" = m !! "A").
Proof.
  split.
  - apply (v3ToV4_fields_and_notes stateScenario1);
      [reflexivity | apply metricsOf_legal; repeat constructor | reflexivity | reflexivity].
  - apply (v3ToV4_fields_and_notes stateScopeChanged);
      [reflexivity | apply metricsOf_legal; repeat constructor | reflexivity].
Defined.

(** Closed form of the v4 to v3 branch on metrics whose seven inputs of
    interest are present. *)
Lemma convertV4toV3_closed (m : Metrics) (ui vc vi va sc si sa : string) :
  m !! "UI" = Some ui →
  m !! "VC" = Some vc → m !! "VI" = Some vi → m !! "VA" = Some va →
  m !! "SC" = Some sc → m !! "SI" = Some si → m !! "SA" = Some sa →
  let sub := negb (String.eqb sc "N") || negb (String.eqb si "N") || negb (String.eqb sa "N") in
  let cm := (convertV4toV3 m).1 in
  cm !! "AV" = m !! "AV" ∧ cm !! "AC" = m !! "AC" ∧ cm !! "PR" = m !! "PR"
  ∧ cm !! "UI" = Some (if String.eqb ui "N" then "N" else "R")
  ∧ cm !! "S" = Some (if sub then "C" else "U")
  ∧ cm !! "C" = maxImpact (Some vc) (Some sc)
  ∧ cm !! "I" = maxImpact (Some vi) (Some si)
  ∧ cm !! "A" = maxImpact (Some va) (Some sa)
  ∧ (convertV4toV3 m).2
    = (if String.eqb ui "N" then [] else [noteUIv4])
      ++ (if sub then [noteSubsequent] else []) ++ [noteATdropped; noteMerged].
Proof.
  intros Hui Hvc Hvi Hva Hsc Hsi Hsa sub cm. subst cm. unfold convertV4toV3.
  rewrite Hui, Hvc, Hvi, Hva, Hsc, Hsi, Hsa. cbn [JS.strict_eq]. fold sub.
  destruct (String.eqb ui "N"); destruct sub; cbn [fst snd];
    repeat first [ rewrite lookup_assign_eq | rewrite lookup_assign_ne by discriminate ];
    repeat split; reflexivity.
Qed.

Lemma maxImpact_legal (x y : string) :
  x ∈ ["N"; "L"; "H"] → y ∈ ["N"; "L"; "H"] →
  maxImpact (Some x) (Some y) = Some (Spec.maxNLH x y).
Proof. intros Hx Hy. cases_in Hx; cases_in Hy; vm_compute; reflexivity. Qed.

(** C8 (as amended). Converting a legal v4 metric set: the v3 Scope is C
    exactly when one of SC, SI, SA is not N, and U otherwise; C, I, A are
    the maxima of (VC,SC), (VI,SI), (VA,SA) under N < L < H; with SC=H and
    VC=N the result has Scope=C and C=H, and the notes are the three
    (Scope changed, AT dropped, impacts merged) when UI=N, preceded by
    the UI note, four in all, when UI is P or A. *)
Theorem v4ToV3_scope_impacts_notes :
  ∀ (st : State) (ui vc vi va sc si sa : string),
    currentVersion st = 4%Z → legal shapeV4 (currentMetrics st) →
    currentMetrics st !! "UI" = Some ui →
    currentMetrics st !! "VC" = Some vc → currentMetrics st !! "VI" = Some vi →
    currentMetrics st !! "VA" = Some va →
    currentMetrics st !! "SC" = Some sc → currentMetrics st !! "SI" = Some si →
    currentMetrics st !! "SA" = Some sa →
    let r := fst (convertVector st) in
    (convertedMetrics r !! "S" = Some "C" ↔ sc ≠ "N" ∨ si ≠ "N" ∨ sa ≠ "N")
    ∧ (convertedMetrics r !! "S" = Some "U" ↔ sc = "N" ∧ si = "N" ∧ sa = "N")
    ∧ convertedMetrics r !! "C" = Some (Spec.maxNLH vc sc)
    ∧ convertedMetrics r !! "I" = Some (Spec.maxNLH vi si)
    ∧ convertedMetrics r !! "A" = Some (Spec.maxNLH va sa)
    ∧ (sc = "H" → vc = "N" →
         convertedMetrics r !! "S" = Some "C" ∧ convertedMetrics r !! "C" = Some "H"
         ∧ (ui = "N" → warnings r = [noteSubsequent; noteATdropped; noteMerged])
         ∧ (ui ≠ "N" → warnings r = [noteUIv4; noteSubsequent; noteATdropped; noteMerged])).
Proof.
  intros [v m] ui vc vi va sc si sa Hv Hm Hui Hvc Hvi Hva Hsc Hsi Hsa; simpl in *; subst v.
  assert (Ivc : vc ∈ ["N"; "L"; "H"]) by (destruct (Hm "VC") as (? & E & ?); congruence).
  assert (Ivi : vi ∈ ["N"; "L"; "H"]) by (destruct (Hm "VI") as (? & E & ?); congruence).
  assert (Iva : va ∈ ["N"; "L"; "H"]) by (destruct (Hm "VA") as (? & E & ?); congruence).
  assert (Isc : sc ∈ ["N"; "L"; "H"]) by (destruct (Hm "SC") as (? & E & ?); congruence).
  assert (Isi : si ∈ ["N"; "L"; "H"]) by (destruct (Hm "SI") as (? & E & ?); congruence).
  assert (Isa : sa ∈ ["N"; "L"; "H"]) by (destruct (Hm "SA") as (? & E & ?); congruence).
  destruct (convertV4toV3_closed m ui vc vi va sc si sa Hui Hvc Hvi Hva Hsc Hsi Hsa)
    as (_ & _ & _ & _ & HS & HC & HI & HA & HW).
  rewrite maxImpact_legal in HC, HI, HA by assumption.
  unfold convertVector; simpl. destruct (convertV4toV3 m) as [cm w]; simpl in *.
  rewrite HS, HC, HI, HA, HW. clear HS HC HI HA HW Hm.
  assert (Hsub : negb (String.eqb sc "N") || negb (String.eqb si "N") || negb (String.eqb sa "N")
                 = false ↔ sc = "N" ∧ si = "N" ∧ sa = "N").
  { destruct (String.eqb_spec sc "N"), (String.eqb_spec si "N"), (String.eqb_spec sa "N");
      simpl; intuition congruence. }
  destruct (negb (String.eqb sc "N") || negb (String.eqb si "N") || negb (String.eqb sa "N")).
  - assert (Hn : ¬ (sc = "N" ∧ si = "N" ∧ sa = "N")) by (intros H; apply Hsub in H; discriminate).
    split; [|split]; [split; [intros _|reflexivity]|split; [intros [=]|intros H; contradiction]|].
    + destruct (String.eqb_spec sc "N"), (String.eqb_spec si "N"), (String.eqb_spec sa "N"); tauto.
    + do 3 (split; [reflexivity|]). intros -> ->.
      do 2 (split; [reflexivity|]).
      split; intros Hu; destruct (String.eqb_spec ui "N"); done.
  - assert (Hn : sc = "N" ∧ si = "N" ∧ sa = "N") by (by apply Hsub).
    destruct Hn as (-> & -> & ->).
    split; [|split]; [split; [intros [=]|intros [|[|]]; contradiction]|split; [tauto|reflexivity]|].
    do 3 (split; [reflexivity|]). discriminate.
Qed.

Lemma v4ToV3_scope_impacts_notes_witness :
  let r := fst (convertVector stateSubsequentHigh) in
  convertedMetrics r !! "S" = Some "C" ∧ convertedMetrics r !! "C" = Some "H"
  ∧ warnings r = [noteSubsequent; noteATdropped; noteMerged].
Proof.
  destruct (v4ToV3_scope_impacts_notes stateSubsequentHigh "N" "N" "N" "N" "H" "N" "N")
    as (_ & _ & _ & _ & _ & H);
    [reflexivity | apply metricsOf_legal; repeat constructor | reflexivity ..|].
  destruct (H eq_refl eq_refl) as (HS & HC & HW & _).
  exact (conj HS (conj HC (HW eq_refl))).
Defined.

(** Four notes, not three: a legal v4 metric set with SC=H and VC=N, but
    UI=P. *)
Lemma v4ToV3_three_notes_counterexample :
  currentVersion stateSubsequentHighPassive = 4%Z
  ∧ legal shapeV4 (currentMetrics stateSubsequentHighPassive)
  ∧ currentMetrics stateSubsequentHighPassive !! "SC" = Some "H"
  ∧ currentMetrics stateSubsequentHighPassive !! "VC" = Some "N"
  ∧ warnings (fst (convertVector stateSubsequentHighPassive))
    = [noteUIv4; noteSubsequent; noteATdropped; noteMerged]
  ∧ length (warnings (fst (convertVector stateSubsequentHighPassive))) = 4%nat.
Proof.
  split; [reflexivity|]. split; [apply metricsOf_legal; repeat constructor|].
  repeat split; vm_compute; reflexivity.
Qed.

(** ** [split] *)

Lemma split_before_after (sep : ascii) (s : string) :
  JS.split sep s
  = before sep s :: match after sep s with Some rest => JS.split sep rest | None => [] end.
Proof.
  induction s as [|c s IH]; simpl; [done|].
  destruct (Ascii.eqb c sep); [done|]. by rewrite IH.
Qed.

Lemma split_first (sep : ascii) (s : string) : JS.split sep s !! 0%nat = Some (before sep s).
Proof. by rewrite split_before_after. Qed.

Lemma split_second (sep : ascii) (s : string) :
  JS.split sep s !! 1%nat = before sep <$> after sep s.
Proof.
  rewrite split_before_after. destruct (after sep s) as [rest|]; simpl; [|done].
  apply split_first.
Qed.

Lemma before_noChar sep s : noChar sep s = true → before sep s = s.
Proof.
  induction s as [|c s IH]; simpl; [done|].
  destruct (Ascii.eqb c sep); simpl; [done|]. intros H. by rewrite IH.
Qed.

Lemma after_noChar sep s : noChar sep s = true → after sep s = None.
Proof.
  induction s as [|c s IH]; simpl; [done|].
  destruct (Ascii.eqb c sep); simpl; [done|]. auto.
Qed.

Lemma before_app sep a rest : noChar sep a = true → before sep (a ++ String sep rest)%string = a.
Proof.
  induction a as [|c a IH]; simpl.
  - by rewrite Ascii.eqb_refl.
  - destruct (Ascii.eqb c sep); simpl; [done|]. intros H. by rewrite IH.
Qed.

Lemma after_app sep a rest : noChar sep a = true → after sep (a ++ String sep rest)%string = Some rest.
Proof.
  induction a as [|c a IH]; simpl.
  - by rewrite Ascii.eqb_refl.
  - destruct (Ascii.eqb c sep); simpl; [done|]. auto.
Qed.

Lemma split_noChar sep s : noChar sep s = true → JS.split sep s = [s].
Proof. intros H. by rewrite split_before_after, before_noChar, after_noChar. Qed.

Lemma split_app sep a rest :
  noChar sep a = true → JS.split sep (a ++ String sep rest)%string = a :: JS.split sep rest.
Proof. intros H. by rewrite split_before_after, before_app, after_app. Qed.

Lemma split_join (segments : list string) :
  segments ≠ [] → Forall (λ s, noChar "/" s = true) segments →
  JS.split "/" (join segments) = segments.
Proof.
  induction segments as [|s rest IH]; [done|]. intros _ Hall.
  apply Forall_cons in Hall as [Hs Hrest].
  destruct rest as [|s' rest]; [by apply split_noChar|].
  change (join (s :: s' :: rest)) with (s ++ String "/" (join (s' :: rest)))%string.
  rewrite split_app by done. f_equal. by apply IH.
Qed.

(** ** The extraction loop *)

Lemma extractSegment_keyValue (obj : Metrics) (segment : string) :
  extractSegment obj segment
  = match keyValue segment with Some kv => JS.set obj kv.1 kv.2 | None => obj end.
Proof.
  unfold extractSegment, keyValue. rewrite split_first, split_second.
  destruct (after ":" segment) as [rest|]; simpl; [|done].
  by destruct (negb (before ":" segment =? "") && negb (before ":" rest =? "")).
Qed.

Lemma fold_extractSegment (segments : list string) (obj : Metrics) :
  fold_left extractSegment segments obj
  = fold_left (λ obj kv, JS.set obj kv.1 kv.2) (omap keyValue segments) obj.
Proof.
  revert obj. induction segments as [|s rest IH]; intros obj; simpl; [done|].
  rewrite IH, extractSegment_keyValue. by destruct (keyValue s).
Qed.

Lemma extractMetrics_pairs (vectorString : string) :
  extractMetrics (JS.split "/" vectorString) = objectOf (pairsOf vectorString).
Proof. apply fold_extractSegment. Qed.

(** ** The object built from the pairs *)

Lemma lookup_set (obj : Metrics) (k v k' : string) :
  JS.set obj k v !! k'
  = if decide (k = k' ∧ k ≠ "__proto__") then Some v else obj !! k'.
Proof.
  unfold JS.set. destruct (decide (k = "__proto__")) as [->|Hp].
  - rewrite decide_False; [done|]. intros [_ H]. by apply H.
  - destruct (decide (k = k')) as [->|Hne].
    + rewrite lookup_insert_eq, decide_True; done.
    + rewrite lookup_insert_ne, decide_False; [done| |done]. by intros [? _].
Qed.

Lemma lastValue_cons (key : string) (kv : string * string) (pairs : list (string * string)) :
  lastValue key (kv :: pairs)
  = match lastValue key pairs with
    | Some v => Some v
    | None => if decide (kv.1 = key) then Some kv.2 else None
    end.
Proof.
  unfold lastValue. rewrite filter_cons. destruct (decide (kv.1 = key)) as [E|E].
  - rewrite last_cons. by destruct (last _).
  - by destruct (last _).
Qed.

Lemma fold_set_lookup (pairs : list (string * string)) (obj : Metrics) (key : string) :
  key ≠ "__proto__" →
  fold_left (λ obj kv, JS.set obj kv.1 kv.2) pairs obj !! key
  = match lastValue key pairs with Some v => Some v | None => obj !! key end.
Proof.
  intros Hp. revert obj. induction pairs as [|kv pairs IH]; intros obj; [done|].
  simpl. rewrite IH, lastValue_cons, lookup_set.
  destruct (lastValue key pairs); [done|].
  destruct (decide (kv.1 = key)) as [E|E].
  - rewrite decide_True; [done|]. split; [done|congruence].
  - rewrite decide_False; [done|]. by intros [? _].
Qed.

(** The object maps a key to the value of its last pair. *)
Lemma objectOf_lookup (pairs : list (string * string)) (key : string) :
  key ≠ "__proto__" → objectOf pairs !! key = lastValue key pairs.
Proof.
  intros Hp. unfold objectOf. rewrite fold_set_lookup by done.
  destruct (lastValue key pairs); [done|apply lookup_empty].
Qed.

Lemma lastValue_elem (key v : string) (pairs : list (string * string)) :
  lastValue key pairs = Some v → (key, v) ∈ pairs.
Proof.
  unfold lastValue. destruct (last _) as [[k x]|] eqn:E; [|done]. simpl. intros [= ->].
  apply last_Some_elem_of, list_elem_of_filter in E as [Hk Hin]. simpl in Hk. by subst.
Qed.

Lemma lastValue_None (key : string) (pairs : list (string * string)) :
  lastValue key pairs = None ↔ key ∉ pairs.*1.
Proof.
  unfold lastValue. rewrite fmap_None, last_None. split.
  - intros E [kv [-> Hin]]%list_elem_of_fmap.
    assert (kv ∈ filter (λ kv' : string * string, kv'.1 = kv.1) pairs) as H
      by (by apply list_elem_of_filter).
    rewrite E in H. by apply elem_of_nil in H.
  - intros Hn. induction pairs as [|kv pairs IH]; [done|].
    rewrite fmap_cons, not_elem_of_cons in Hn. destruct Hn as [Hk Hn].
    rewrite filter_cons, decide_False by done. by apply IH.
Qed.

Lemma keyValue_nonempty (segment k v : string) :
  keyValue segment = Some (k, v) → k ≠ "" ∧ v ≠ "".
Proof.
  unfold keyValue. destruct (after ":" segment) as [rest|]; [|done].
  destruct (String.eqb_spec (before ":" segment) ""), (String.eqb_spec (before ":" rest) "");
    simpl; [done..|]. by intros [= <- <-].
Qed.

Lemma pairsOf_nonempty (vectorString k v : string) :
  (k, v) ∈ pairsOf vectorString → k ≠ "" ∧ v ≠ "".
Proof.
  unfold pairsOf. intros (segment & _ & H)%list_elem_of_omap. by apply keyValue_nonempty in H.
Qed.

(** A required key is reported missing exactly when no pair has it. *)
Lemma truthy_objectOf (vectorString key : string) :
  key ≠ "__proto__" →
  JS.truthy (objectOf (pairsOf vectorString) !! key) = true
  ↔ is_Some (objectOf (pairsOf vectorString) !! key).
Proof.
  intros Hp. destruct (objectOf (pairsOf vectorString) !! key) as [v|] eqn:E; simpl.
  - rewrite objectOf_lookup in E by done. apply lastValue_elem, pairsOf_nonempty in E as [_ Hv].
    split; [eauto|]. intros _. by destruct (String.eqb_spec v "").
  - split; [done|]. by intros [? ?].
Qed.

(** ** The validation loop *)

Lemma firstMissing_None (required : list string) (obj : Metrics) :
  firstMissing required obj = None ↔ ∀ k, k ∈ required → JS.truthy (obj !! k) = true.
Proof.
  induction required as [|k0 rest IH]; simpl.
  - split; [|done]. intros _ k Hk. by apply elem_of_nil in Hk.
  - destruct (JS.truthy (obj !! k0)) eqn:E; simpl.
    + rewrite IH. split.
      * intros H k [->|Hk]%elem_of_cons; auto.
      * intros H k Hk. apply H. by right.
    + split; [done|]. intros H. specialize (H k0). rewrite E in H. discriminate H. by left.
Qed.

Lemma firstMissing_Some (required : list string) (obj : Metrics) (metric : string) :
  firstMissing required obj = Some metric ↔
  ∃ pre post, required = pre ++ metric :: post
              ∧ (∀ k, k ∈ pre → JS.truthy (obj !! k) = true)
              ∧ JS.truthy (obj !! metric) = false.
Proof.
  induction required as [|k0 rest IH]; simpl.
  - split; [done|]. intros (pre & post & E & _). by destruct pre.
  - destruct (JS.truthy (obj !! k0)) eqn:E; simpl.
    + rewrite IH. split.
      * intros (pre & post & -> & Hpre & Hm). exists (k0 :: pre), post.
        split; [done|]. split; [|done]. intros k [->|Hk]%elem_of_cons; auto.
      * intros (pre & post & Heq & Hpre & Hm). destruct pre as [|p pre]; simpl in Heq.
        -- injection Heq as -> _. congruence.
        -- injection Heq as -> ->. exists pre, post. split; [done|]. split; [|done].
           intros k Hk. apply Hpre. by right.
    + split.
      * intros [= <-]. exists [], rest. split; [done|]. split; [|done].
        intros k Hk. by apply elem_of_nil in Hk.
      * intros (pre & post & Heq & Hpre & Hm). destruct pre as [|p pre]; simpl in Heq.
        -- by injection Heq as ->.
        -- injection Heq as -> ->. rewrite Hpre in E; [done|by left].
Qed.

(** ** [parseVector], case by case *)

Lemma parseVector_cases (input : string) (st : State) :
  parseVector input st
  = let vectorString := JS.trim input in
    if String.eqb vectorString "" then (st, Some EmptyInput)
    else match versionOf vectorString with
         | None => (st, Some InvalidFormat)
         | Some version =>
             let obj := objectOf (pairsOf vectorString) in
             match firstMissing (required version) obj with
             | Some metric =>
                 (if (version =? currentVersion st)%Z then st else switchVersion version st,
                  Some (MissingMetric metric))
             | None => (mkState version obj, None)
             end
         end.
Proof.
  unfold parseVector. cbv zeta. rewrite extractMetrics_pairs.
  destruct (String.eqb (JS.trim input) ""); [done|].
  destruct (versionOf (JS.trim input)) as [version|]; [|done].
  destruct (firstMissing _ _); destruct (Z.eqb_spec version (currentVersion st)) as [->|]; done.
Qed.

(** ** [trim] *)

Lemma trimEnd_cons (c : ascii) (s : string) :
  JS.trimEnd s ≠ "" → JS.trimEnd (String c s) = String c (JS.trimEnd s).
Proof. simpl. by destruct (JS.trimEnd s). Qed.

Lemma trimEnd_fixed_cons (c : ascii) (s : string) :
  s ≠ "" → JS.trimEnd (String c s) = String c s → JS.trimEnd s = s.
Proof.
  intros Hs. simpl. destruct (JS.trimEnd s) eqn:E.
  - destruct (JS.is_white c); [done|]. intros [= <-]. done.
  - by intros [= <-].
Qed.

(** A prefix that [trimEnd] keeps is kept in front of any continuation. *)
Lemma trimEnd_prefix (p rest : string) :
  p ≠ "" → JS.trimEnd p = p → ∃ r, JS.trimEnd (p ++ rest)%string = (p ++ r)%string.
Proof.
  induction p as [|c p IH]; [done|]. intros _ Hfix.
  destruct (decide (p = "")) as [->|Hp].
  - change (String c "" ++ rest)%string with (String c rest).
    simpl in Hfix. simpl. destruct (JS.is_white c) eqn:W; [discriminate Hfix|].
    destruct (JS.trimEnd rest) as [|c' r]; [exists ""|exists (String c' r)]; reflexivity.
  - destruct IH as [r Hr]; [done|by apply trimEnd_fixed_cons in Hfix|].
    exists r. change (String c p ++ rest)%string with (String c (p ++ rest)%string).
    rewrite trimEnd_cons; rewrite Hr; [done|]. by destruct p.
Qed.

(** A suffix that [trimEnd] keeps protects everything before it. *)
Lemma trimEnd_suffix (a b : string) :
  b ≠ "" → JS.trimEnd b = b → JS.trimEnd (a ++ b)%string = (a ++ b)%string.
Proof.
  intros Hb Hfix. induction a as [|c a IH]; [done|].
  change (String c a ++ b)%string with (String c (a ++ b)%string).
  rewrite trimEnd_cons; rewrite IH; [done|]. destruct a; [done|discriminate].
Qed.

(** ** The three alerts are distinct *)

Lemma MissingMetric_not_InvalidFormat metric : MissingMetric metric ≠ InvalidFormat.
Proof. discriminate. Qed.

Lemma versionOf_Some (v : string) (version : Z) :
  versionOf v = Some version →
  (version = 3%Z ∧ (JS.startsWith v "CVSS:3.0" = true ∨ JS.startsWith v "CVSS:3.1" = true))
  ∨ (version = 4%Z ∧ JS.startsWith v "CVSS:4.0" = true).
Proof.
  unfold versionOf.
  destruct (JS.startsWith v "CVSS:3.0") eqn:E0; simpl; [intros [= <-]; auto|].
  destruct (JS.startsWith v "CVSS:3.1") eqn:E1; simpl; [intros [= <-]; auto|].
  destruct (JS.startsWith v "CVSS:4.0") eqn:E4; simpl; [intros [= <-]; auto|done].
Qed.

Lemma versionOf_None (v : string) :
  versionOf v = None ↔
  JS.startsWith v "CVSS:3.0" = false ∧ JS.startsWith v "CVSS:3.1" = false
  ∧ JS.startsWith v "CVSS:4.0" = false.
Proof.
  unfold versionOf.
  destruct (JS.startsWith v "CVSS:3.0"), (JS.startsWith v "CVSS:3.1"),
    (JS.startsWith v "CVSS:4.0"); simpl; intuition congruence.
Qed.

Lemma required_not_proto (version : Z) (k : string) : k ∈ required version → k ≠ "__proto__".
Proof.
  unfold required. intros Hk. destruct (version =? 3)%Z; cases_in Hk; discriminate.
Qed.


(** ** Error contract of [parseVector] *)

(** C5 (as amended). [parseVector] first trims the input.  An empty
    trimmed input is answered by the alert asking for a vector; the
    InvalidFormat alert is raised exactly when the trimmed input is not
    empty and starts with none of CVSS:3.0, CVSS:3.1, CVSS:4.0 (so
    CVSS:2.0/... is InvalidFormat); otherwise, with the metrics extracted
    from the slash-separated segments, if a required key of the
    version is absent the alert is MissingMetric of the first absent key
    in the order of the [required] array. *)
Theorem parse_error_contract :
  ∀ (input : string) (st : State),
    let v := JS.trim input in
    let obj := extractMetrics (JS.split "/" v) in
    let alert := snd (parseVector input st) in
    (v = "" → alert = Some EmptyInput)
    ∧ (alert = Some InvalidFormat ↔
         v ≠ "" ∧ JS.startsWith v "CVSS:3.0" = false ∧ JS.startsWith v "CVSS:3.1" = false
         ∧ JS.startsWith v "CVSS:4.0" = false)
    ∧ (∀ rest : string, snd (parseVector ("CVSS:2.0/" ++ rest) st) = Some InvalidFormat)
    ∧ (∀ version : Z, v ≠ "" → versionOf v = Some version →
         ((version = 3%Z
           ∧ (JS.startsWith v "CVSS:3.0" = true ∨ JS.startsWith v "CVSS:3.1" = true))
          ∨ (version = 4%Z ∧ JS.startsWith v "CVSS:4.0" = true))
         ∧ ∀ k : string, k ∈ required version → obj !! k = None →
             ∃ (pre : list string) (metric : string) (post : list string),
               required version = pre ++ metric :: post
               ∧ (∀ k' : string, k' ∈ pre → is_Some (obj !! k'))
               ∧ obj !! metric = None
               ∧ alert = Some (MissingMetric metric)).
Proof.
  intros input st v obj alert. subst alert obj. rewrite parseVector_cases. cbv zeta. fold v.
  rewrite extractMetrics_pairs.
  split; [|split; [|split]].
  - intros ->. reflexivity.
  - destruct (String.eqb_spec v "") as [E|E]; simpl.
    + split; [discriminate|]. intros [H _]. contradiction.
    + rewrite <-versionOf_None. destruct (versionOf v) as [version|].
      * split; [|intros [_ [=]]].
        destruct (firstMissing _ _); simpl; [|discriminate].
        intros H. exfalso. apply (MissingMetric_not_InvalidFormat s). congruence.
      * done.
  - intros rest. rewrite parseVector_cases. cbv zeta.
    destruct (trimEnd_prefix "CVSS:2.0/" rest) as [r Hr]; [done..|].
    unfold JS.trim. change (JS.trimStart ("CVSS:2.0/" ++ rest)) with ("CVSS:2.0/" ++ rest)%string.
    rewrite Hr. reflexivity.
  - intros version Hne Hv. split; [by apply versionOf_Some|].
    intros k Hk Hnone.
    destruct (String.eqb_spec v "") as [E|_]; [contradiction|]. rewrite Hv.
    destruct (firstMissing (required version) (objectOf (pairsOf v))) as [metric|] eqn:F.
    + apply firstMissing_Some in F as (pre & post & Hreq & Hpre & Hm).
      assert (Hin : metric ∈ required version) by (rewrite Hreq, elem_of_app; right; left).
      exists pre, metric, post. split; [done|]. split; [|split; [|done]].
      * intros k' Hk'. apply truthy_objectOf; [|by apply Hpre].
        apply (required_not_proto version). rewrite Hreq, elem_of_app. by left.
      * destruct (objectOf (pairsOf v) !! metric) eqn:O; [|done].
        assert (JS.truthy (objectOf (pairsOf v) !! metric) = true) as Ht.
        { apply truthy_objectOf; [by apply (required_not_proto version)|]. by rewrite O. }
        congruence.
    + exfalso. rewrite firstMissing_None in F. specialize (F k Hk).
      rewrite Hnone in F. discriminate F.
Qed.

(** Without the trimming and the empty-input alert the contract would
    fail: a vector behind a leading blank starts with none of the
    prefixes and is parsed all the same, and the empty input is answered
    by another alert than InvalidFormat. *)
Lemma parse_error_contract_counterexample :
  JS.startsWith vectorLeadingSpace "CVSS:3.0" = false
  ∧ JS.startsWith vectorLeadingSpace "CVSS:3.1" = false
  ∧ JS.startsWith vectorLeadingSpace "CVSS:4.0" = false
  ∧ parseVector vectorLeadingSpace (mkState 4 defaultMetricsV4) = (stateScenario1, None)
  ∧ snd (parseVector "" stateScenario1) = Some EmptyInput
  ∧ EmptyInput ≠ InvalidFormat.
Proof. repeat split; try (vm_compute; reflexivity). discriminate. Qed.

(** ** Shape of a segment that stands for a pair *)

Lemma before_after_decompose (sep : ascii) (s : string) :
  s = (before sep s ++ match after sep s with Some rest => String sep rest | None => "" end)%string.
Proof.
  induction s as [|c s IH]; simpl; [done|].
  destruct (Ascii.eqb_spec c sep) as [->|Hne]; [done|].
  transitivity (String c (before sep s
     ++ match after sep s with Some rest => String sep rest | None => "" end)%string);
    [by rewrite <-IH|reflexivity].
Qed.

Lemma noChar_before (sep : ascii) (s : string) : noChar sep (before sep s) = true.
Proof.
  induction s as [|c s IH]; simpl; [done|].
  destruct (Ascii.eqb c sep) eqn:E; simpl; [done|]. by rewrite E.
Qed.


Lemma append_empty_r (s : string) : (s ++ "")%string = s.
Proof.
  induction s as [|c s IH]; [done|].
  change (String c s ++ "")%string with (String c (s ++ "")%string). by rewrite IH.
Qed.

(** A segment stands for the pair (key, value) exactly when it reads
    key:value, or key:value: followed by anything, with key and value
    non-empty and free of colons. *)
Lemma keyValue_Some (segment key value : string) :
  keyValue segment = Some (key, value) ↔
  key ≠ "" ∧ value ≠ "" ∧ noChar ":" key = true ∧ noChar ":" value = true
  ∧ (segment = (key ++ String ":" value)%string
     ∨ ∃ more : string, segment = (key ++ String ":" (value ++ String ":" more))%string).
Proof.
  split.
  - unfold keyValue. intros H.
    pose proof (before_after_decompose ":" segment) as Hseg.
    destruct (after ":" segment) as [rest|]; [|done].
    pose proof (before_after_decompose ":" rest) as Hrest.
    destruct (String.eqb_spec (before ":" segment) ""); [done|].
    destruct (String.eqb_spec (before ":" rest) ""); [done|].
    simpl in H. injection H as <- <-.
    do 2 (split; [done|]). do 2 (split; [apply noChar_before|]).
    destruct (after ":" rest) as [more|].
    + right. exists more. by rewrite <-Hrest.
    + left. rewrite append_empty_r in Hrest. by rewrite <-Hrest.
  - intros (Hk & Hv & Nk & Nv & [->| [more ->]]); unfold keyValue.
    + rewrite after_app, before_app, before_noChar by done.
      destruct (String.eqb_spec key ""), (String.eqb_spec value ""); done.
    + rewrite after_app, !before_app by done.
      destruct (String.eqb_spec key ""), (String.eqb_spec value ""); done.
Qed.

(** ** No validation of values *)

(** C6 (as amended). [parseVector] never checks a value against the
    value codes of its key.  Its only alerts are the empty-input alert,
    InvalidFormat, and MissingMetric of a required key that no segment
    supplied; and on a recognised prefix, as soon as every required key
    has some extracted value, the parse succeeds with the values as
    written, legal or not.  There is no InvalidValue. *)
Theorem parse_accepts_any_value :
  ∀ (input : string) (st : State),
    let v := JS.trim input in
    let obj := extractMetrics (JS.split "/" v) in
    let alert := snd (parseVector input st) in
    (alert = None ∨ alert = Some EmptyInput ∨ alert = Some InvalidFormat
     ∨ ∃ (version : Z) (metric : string),
         versionOf v = Some version ∧ metric ∈ required version
         ∧ obj !! metric = None ∧ alert = Some (MissingMetric metric))
    ∧ (∀ version : Z, v ≠ "" → versionOf v = Some version →
         (∀ k : string, k ∈ required version → is_Some (obj !! k)) →
         parseVector input st = (mkState version obj, None)).
Proof.
  intros input st v obj alert. subst alert obj. rewrite parseVector_cases. cbv zeta. fold v.
  rewrite extractMetrics_pairs. split.
  - destruct (String.eqb v ""); [auto|].
    destruct (versionOf v) as [version|] eqn:Hv; [|auto].
    destruct (firstMissing _ _) as [metric|] eqn:F; [|auto].
    do 3 right. exists version, metric.
    apply firstMissing_Some in F as (pre & post & Hreq & _ & Hm).
    assert (Hin : metric ∈ required version) by (rewrite Hreq, elem_of_app; right; left).
    do 2 (split; [done|]). split; [|done].
    destruct (objectOf (pairsOf v) !! metric) eqn:O; [|done].
    assert (JS.truthy (objectOf (pairsOf v) !! metric) = true) as Ht.
    { apply truthy_objectOf; [by apply (required_not_proto version)|]. by rewrite O. }
    congruence.
  - intros version Hne Hv Hall.
    destruct (String.eqb_spec v "") as [E|_]; [contradiction|]. rewrite Hv.
    assert (firstMissing (required version) (objectOf (pairsOf v)) = None) as ->; [|done].
    apply firstMissing_None. intros k Hk. apply truthy_objectOf; [|by apply Hall].
    by apply (required_not_proto version).
Qed.

(** No InvalidValue: AV:X in a v3 vector is accepted and AV is X in the
    result, although X is no value code of AV. *)
Lemma parse_accepts_illegal_value_counterexample :
  snd (parseVector vectorIllegalValue stateScenario1) = None
  ∧ currentMetrics (fst (parseVector vectorIllegalValue stateScenario1)) !! "AV" = Some "X"
  ∧ legalValues shapeV3 "AV" = Some ["N"; "A"; "L"; "P"]
  ∧ "X" ∉ ["N"; "A"; "L"; "P"].
Proof.
  repeat split; try (vm_compute; reflexivity).
  intros H. apply list_elem_of_In in H. simpl in H. intuition discriminate.
Qed.

(** ** Segment extraction *)

(** C7 (as amended). The trimmed input is split on slashes and its first
    piece, which holds the prefix, is set aside.  Every other segment is
    split on each colon and its first two pieces are the key and the
    value, later pieces being dropped: it stands for (key, value) exactly
    when it reads key:value or key:value:more with key and value
    non-empty.  A segment that stands for no pair is skipped, and the
    outcome of [parseVector] depends on the segments only through the
    pairs they stand for, so a skipped segment is never an error by
    itself. *)
Theorem segment_extraction :
  (∀ (obj : Metrics) (segment : string),
     extractSegment obj segment
     = match keyValue segment with Some kv => JS.set obj kv.1 kv.2 | None => obj end)
  ∧ (∀ segment key value : string,
       keyValue segment = Some (key, value) ↔
       key ≠ "" ∧ value ≠ "" ∧ noChar ":" key = true ∧ noChar ":" value = true
       ∧ (segment = (key ++ String ":" value)%string
          ∨ ∃ more : string, segment = (key ++ String ":" (value ++ String ":" more))%string))
  ∧ (∀ (input : string) (st : State),
       parseVector input st
       = let vectorString := JS.trim input in
         if String.eqb vectorString "" then (st, Some EmptyInput)
         else match versionOf vectorString with
              | None => (st, Some InvalidFormat)
              | Some version =>
                  let obj := objectOf (omap keyValue (drop 1 (JS.split "/" vectorString))) in
                  match firstMissing (required version) obj with
                  | Some metric =>
                      (if (version =? currentVersion st)%Z then st
                       else switchVersion version st,
                       Some (MissingMetric metric))
                  | None => (mkState version obj, None)
                  end
              end).
Proof.
  split; [exact extractSegment_keyValue|]. split; [exact keyValue_Some|].
  exact parseVector_cases.
Qed.

(** Where the script departs from [Spec.extract]: split once, the
    segment AV:N:X would give AV the value N:X, while the script gives
    N; and the text after the prefix, split on slashes, would find AV:N
    glued to CVSS:3.1, while the script reports AV missing. *)
Lemma segment_split_once_counterexample :
  Spec.extract vectorTwoColons !! "AV" = Some "N:X"
  ∧ extractMetrics (JS.split "/" (JS.trim vectorTwoColons)) !! "AV" = Some "N"
  ∧ snd (parseVector vectorTwoColons stateScenario1) = None
  ∧ currentMetrics (fst (parseVector vectorTwoColons stateScenario1)) !! "AV" = Some "N"
  ∧ Spec.extract vectorGluedPair !! "AV" = Some "N"
  ∧ extractMetrics (JS.split "/" (JS.trim vectorGluedPair)) !! "AV" = None
  ∧ snd (parseVector vectorGluedPair stateScenario1) = Some (MissingMetric "AV").
Proof. repeat split; vm_compute; reflexivity. Qed.

(** ** Duplicate keys *)

Lemma lastValue_last_occurrence (key value : string) (earlier later : list (string * string)) :
  key ∉ later.*1 → lastValue key (earlier ++ (key, value) :: later) = Some value.
Proof.
  intros Hl. induction earlier as [|kv earlier IH]; simpl.
  - rewrite lastValue_cons. apply lastValue_None in Hl. rewrite Hl. simpl.
    by rewrite decide_True.
  - by rewrite lastValue_cons, IH.
Qed.

(** Nothing is ever stored under the key __proto__. *)
Lemma objectOf_proto (pairs : list (string * string)) : objectOf pairs !! "__proto__" = None.
Proof.
  unfold objectOf.
  assert (H : ∀ obj : Metrics, obj !! "__proto__" = None →
            fold_left (λ obj kv, JS.set obj kv.1 kv.2) pairs obj !! "__proto__" = None).
  { induction pairs as [|kv pairs IH]; intros obj Hobj; [done|].
    simpl. apply IH. rewrite lookup_set, decide_False; [done|]. intros [E H]. by apply H. }
  apply H, lookup_empty.
Qed.

(** C10 (as amended). On a recognised prefix, when the last segment
    standing for a pair with a given key (other segments with the same
    key may precede it) carries the value [value], the extracted metrics
    map the key to [value], unless the key is __proto__, under which
    nothing is stored; the duplicate is never an error: the parse
    succeeds whenever every required key occurs in some pair, its only
    possible alert is MissingMetric of a required key occurring in no
    pair, and on success the resulting metrics hold under the key what
    was extracted: [value], or nothing for __proto__. *)
Theorem duplicate_keys_last_wins :
  ∀ (input : string) (st : State) (version : Z) (key value : string)
    (earlier later : list (string * string)),
    let v := JS.trim input in
    v ≠ "" → versionOf v = Some version →
    pairsOf v = earlier ++ (key, value) :: later → key ∉ later.*1 →
    let obj := extractMetrics (JS.split "/" v) in
    let stored := if decide (key = "__proto__") then None else Some value in
    obj !! key = stored
    ∧ ((∀ k : string, k ∈ required version → k ∈ (pairsOf v).*1) →
         parseVector input st = (mkState version obj, None))
    ∧ (snd (parseVector input st) = None →
         currentMetrics (fst (parseVector input st)) !! key = stored)
    ∧ (snd (parseVector input st) = None
       ∨ ∃ metric : string,
           snd (parseVector input st) = Some (MissingMetric metric)
           ∧ metric ∈ required version ∧ metric ∉ (pairsOf v).*1).
Proof.
  intros input st version key value earlier later v Hne Hv Hpairs Hlater obj stored.
  subst obj. rewrite parseVector_cases. cbv zeta. fold v. rewrite extractMetrics_pairs.
  destruct (String.eqb_spec v "") as [E|_]; [contradiction|]. rewrite Hv.
  assert (Hkey : objectOf (pairsOf v) !! key = stored).
  { subst stored. destruct (decide (key = "__proto__")) as [->|Hproto].
    - apply objectOf_proto.
    - rewrite objectOf_lookup by done. rewrite Hpairs. by apply lastValue_last_occurrence. }
  assert (Hpresent : ∀ k, k ∈ required version →
            JS.truthy (objectOf (pairsOf v) !! k) = true ↔ k ∈ (pairsOf v).*1).
  { intros k Hk. pose proof (required_not_proto version k Hk) as Hp.
    rewrite truthy_objectOf, objectOf_lookup by done.
    rewrite <-not_eq_None_Some, lastValue_None. split; [|tauto].
    intros H. by destruct (decide (k ∈ (pairsOf v).*1)). }
  split; [done|]. split; [|split].
  - intros Hall.
    assert (firstMissing (required version) (objectOf (pairsOf v)) = None) as ->; [|done].
    apply firstMissing_None. intros k Hk. apply Hpresent; auto.
  - destruct (firstMissing _ _); simpl; [discriminate|]. by intros _.
  - destruct (firstMissing _ _) as [metric|] eqn:F; simpl; [right|by left].
    exists metric. split; [done|].
    destruct (proj1 (firstMissing_Some _ _ _) F) as (pre & post & Hreq & _ & Hm).
    assert (Hin : metric ∈ required version) by (rewrite Hreq, elem_of_app; right; left).
    split; [done|]. intros Hc. pose proof (proj2 (Hpresent metric Hin) Hc). congruence.
Qed.

Lemma duplicate_keys_last_wins_witness :
  extractMetrics (JS.split "/" (JS.trim vectorDuplicate)) !! "AV" = Some "L"
  ∧ parseVector vectorDuplicate stateScenario1
    = (mkState 3 (extractMetrics (JS.split "/" (JS.trim vectorDuplicate))), None).
Proof.
  destruct (duplicate_keys_last_wins vectorDuplicate stateScenario1 3 "AV" "L"
              [("AV", "N"); ("AC", "L"); ("PR", "N"); ("UI", "N"); ("S", "U");
               ("C", "H"); ("I", "H"); ("A", "H")] [])
    as (H1 & H2 & _); [discriminate | reflexivity | reflexivity | apply not_elem_of_nil |].
  split; [exact H1|]. apply H2.
  intros k Hk. cases_in Hk; vm_compute; repeat constructor.
Defined.

(** Where last-occurrence-wins fails: a complete v3 vector with the key
    __proto__ written twice is parsed without an alert, but the
    resulting metrics hold no value under that key, where overwriting
    ([Spec.extract]) would leave b. *)
Lemma duplicate_proto_not_stored_counterexample :
  versionOf (JS.trim vectorDuplicateProto) = Some 3%Z
  ∧ pairsOf (JS.trim vectorDuplicateProto)
    = [("AV", "N"); ("AC", "L"); ("PR", "N"); ("UI", "N"); ("S", "U");
       ("C", "H"); ("I", "H"); ("A", "H"); ("__proto__", "a"); ("__proto__", "b")]
  ∧ Spec.extract vectorDuplicateProto !! "__proto__" = Some "b"
  ∧ snd (parseVector vectorDuplicateProto stateScenario1) = None
  ∧ currentMetrics (fst (parseVector vectorDuplicateProto stateScenario1)) !! "__proto__" = None.
Proof. repeat split; vm_compute; reflexivity. Qed.

(** A duplicate does not make a vector complete: with a recognised
    prefix and AV written twice, but nothing else, AC is reported
    missing. *)
Lemma duplicate_without_other_metrics :
  versionOf (JS.trim vectorDuplicateOnly) = Some 3%Z
  ∧ pairsOf (JS.trim vectorDuplicateOnly) = [("AV", "N"); ("AV", "L")]
  ∧ snd (parseVector vectorDuplicateOnly stateScenario1) = Some (MissingMetric "AC").
Proof. repeat split; vm_compute; reflexivity. Qed.

(** ** Round trip through the codec *)

Lemma noChar_app (sep : ascii) (a b : string) :
  noChar sep (a ++ b)%string = noChar sep a && noChar sep b.
Proof.
  induction a as [|c a IH]; [done|].
  change (String c a ++ b)%string with (String c (a ++ b)%string). simpl.
  rewrite IH. by destruct (Ascii.eqb c sep).
Qed.

Lemma keyb_true (k : string) :
  keyb k = true → k ≠ "" ∧ noChar "/" k = true ∧ noChar ":" k = true.
Proof.
  unfold keyb. destruct (String.eqb_spec k ""); simpl; [done|].
  intros [? ?]%andb_true_iff. done.
Qed.

Lemma cleanb_true (v : string) :
  cleanb v = true →
  v ≠ "" ∧ noChar "/" v = true ∧ noChar ":" v = true ∧ JS.trimEnd v = v.
Proof.
  unfold cleanb. destruct (String.eqb_spec v ""); simpl; [done|].
  intros [[? ?]%andb_true_iff ?%String.eqb_eq]%andb_true_iff. done.
Qed.

Lemma keyValue_segmentOf (kv : string * string) :
  keyb kv.1 = true → cleanb kv.2 = true → keyValue (segmentOf kv) = Some kv.
Proof.
  intros (? & ? & ?)%keyb_true (? & ? & ? & ?)%cleanb_true. destruct kv as [k v].
  apply keyValue_Some. simpl in *. repeat split; try done. by left.
Qed.

Lemma noSlash_segmentOf (kv : string * string) :
  keyb kv.1 = true → cleanb kv.2 = true → noChar "/" (segmentOf kv) = true.
Proof.
  intros (? & Hk & ?)%keyb_true (? & Hv & ? & ?)%cleanb_true.
  unfold segmentOf. rewrite noChar_app, Hk. simpl. by rewrite Hv.
Qed.

Lemma trimEnd_segmentOf (kv : string * string) :
  cleanb kv.2 = true →
  JS.trimEnd (segmentOf kv) = segmentOf kv ∧ segmentOf kv ≠ "".
Proof.
  intros (Hne & _ & _ & Hfix)%cleanb_true. unfold segmentOf. split.
  - apply trimEnd_suffix; [done|]. rewrite trimEnd_cons; by rewrite Hfix.
  - by destruct kv.1.
Qed.

Lemma trimEnd_join (segments : list string) (final : string) :
  JS.trimEnd final = final → final ≠ "" →
  JS.trimEnd (join (segments ++ [final])) = join (segments ++ [final])
  ∧ join (segments ++ [final]) ≠ "".
Proof.
  intros Hfix Hne. induction segments as [|s rest [IH1 IH2]]; [by split|].
  assert (E : join ((s :: rest) ++ [final])
              = (s ++ String "/" (join (rest ++ [final])))%string)
    by (simpl; destruct (rest ++ [final]) eqn:E'; [destruct rest; discriminate E'|reflexivity]).
  rewrite E. split.
  - apply trimEnd_suffix; [done|]. rewrite trimEnd_cons; rewrite IH1; done.
  - by destruct s.
Qed.

Lemma trimStart_nonwhite (c : ascii) (s : string) :
  JS.is_white c = false → JS.trimStart (String c s) = String c s.
Proof. intros H. simpl. by rewrite H. Qed.

(** Parsing what was joined from a prefix and the segments of pairs
    with carriable keys and clean values gives the pairs back. *)
Lemma pairsOf_join (prefix : string) (c : ascii) (p : string) (kvs : list (string * string)) :
  prefix = String c p → JS.is_white c = false → noChar "/" prefix = true →
  kvs ≠ [] →
  Forall (λ kv, keyb kv.1 = true ∧ cleanb kv.2 = true) kvs →
  let vector := join (prefix :: (segmentOf <$> kvs)) in
  JS.trim vector = vector ∧ pairsOf vector = kvs.
Proof.
  intros Hprefix Hwhite Hslash Hne Hall vector.
  assert (Htrim : JS.trim vector = vector).
  { unfold JS.trim.
    assert (JS.trimStart vector = vector) as ->.
    { subst vector prefix. destruct kvs as [|kv kvs]; [done|].
      by apply trimStart_nonwhite. }
    destruct (exists_last Hne) as (front & kv & ->).
    apply Forall_app in Hall as [_ [[_ Hkv] _]%Forall_cons_1].
    subst vector. rewrite fmap_app.
    change (prefix :: (segmentOf <$> front) ++ (segmentOf <$> [kv]))
      with ((prefix :: (segmentOf <$> front)) ++ [segmentOf kv]).
    apply trimEnd_join; by apply trimEnd_segmentOf. }
  split; [done|]. unfold pairsOf, vector. rewrite split_join.
  - change (drop 1 (prefix :: (segmentOf <$> kvs))) with (segmentOf <$> kvs).
    clear -Hall. induction Hall as [|kv kvs [Hk Hv] _ IH]; [done|].
    csimpl. rewrite keyValue_segmentOf by done. csimpl. by rewrite IH.
  - done.
  - apply Forall_cons. split; [done|]. apply Forall_fmap.
    eapply Forall_impl; [exact Hall|]. intros kv [? ?]. by apply noSlash_segmentOf.
Qed.

Lemma NoDup_shapeV3 : NoDup shapeV3.*1.
Proof. apply (bool_decide_unpack _). vm_compute. exact I. Qed.

Lemma NoDup_shapeV4 : NoDup shapeV4.*1.
Proof. apply (bool_decide_unpack _). vm_compute. exact I. Qed.

(** Every value code of either shape is clean. *)
Lemma legal_values_clean (shape : list (string * list string)) (vals : list string) :
  shape = shapeV3 ∨ shape = shapeV4 →
  Forall2 (λ kv v, v ∈ kv.2) shape vals →
  Forall (λ kv, keyb kv.1 = true ∧ cleanb kv.2 = true) (zip shape.*1 vals).
Proof.
  assert (Hall : ∀ shape',
    forallb (λ kv, keyb kv.1 && forallb cleanb kv.2) shape' = true →
    ∀ vals', Forall2 (λ kv v, v ∈ kv.2) shape' vals' →
    Forall (λ kv, keyb kv.1 = true ∧ cleanb kv.2 = true) (zip shape'.*1 vals')).
  { intros shape' Hb vals' H. induction H as [|[k vs] v shape' vals' Hv _ IH]; [done|].
    simpl in Hb. apply andb_true_iff in Hb as [[Hk Hvs]%andb_true_iff Hb].
    csimpl. apply Forall_cons. split; [|by apply IH].
    split; [done|]. rewrite forallb_forall in Hvs. apply Hvs. by apply list_elem_of_In. }
  intros [-> | ->]; apply Hall; vm_compute; reflexivity.
Qed.


Lemma required_present (version : Z) (v k : string) :
  k ∈ required version →
  JS.truthy (objectOf (pairsOf v) !! k) = true ↔ k ∈ (pairsOf v).*1.
Proof.
  intros Hk. pose proof (required_not_proto version k Hk) as Hp.
  rewrite truthy_objectOf, objectOf_lookup by done.
  rewrite <-not_eq_None_Some, lastValue_None. split; [|tauto].
  intros H. by destruct (decide (k ∈ (pairsOf v).*1)).
Qed.

(** Serialising then parsing the metric set made of clean values under
    the keys of a shape gives it back, for either version. *)
Lemma roundtrip_clean (version : Z) (prefix : string) (shape : list (string * list string))
    (vals : list string) (st0 : State) :
  (version = 3%Z ∧ prefix = "CVSS:3.1" ∧ shape = shapeV3)
  ∨ (version = 4%Z ∧ prefix = "CVSS:4.0" ∧ shape = shapeV4) →
  length vals = length shape →
  Forall (λ kv, keyb kv.1 = true ∧ cleanb kv.2 = true) (zip shape.*1 vals) →
  generateVector (mkState version (metricsOf shape.*1 vals))
  = join (prefix :: (segmentOf <$> zip shape.*1 vals)) →
  objectOf (zip shape.*1 vals) = metricsOf shape.*1 vals →
  parseVector (generateVector (mkState version (metricsOf shape.*1 vals))) st0
  = (mkState version (metricsOf shape.*1 vals), None).
Proof.
  intros Hcase Hlen Hclean Hgen Hobj. rewrite Hgen.
  assert (Hkeys : (zip shape.*1 vals).*1 = shape.*1)
    by (apply fst_zip; rewrite length_fmap; lia).
  assert (Hne : zip shape.*1 vals ≠ []).
  { intros E. rewrite E in Hkeys. by destruct Hcase as [(_ & _ & ->)|(_ & _ & ->)]. }
  assert (Hreq : required version = shape.*1)
    by (by destruct Hcase as [(-> & _ & ->)|(-> & _ & ->)]).
  destruct (pairsOf_join prefix (ascii_of_nat 67) (String.substring 1 7 prefix)
              (zip shape.*1 vals)) as [Ht Hp];
    [by destruct Hcase as [(_ & -> & _)|(_ & -> & _)]
    |reflexivity
    |by destruct Hcase as [(_ & -> & _)|(_ & -> & _)]
    |done..|].
  rewrite parseVector_cases. cbv zeta. rewrite Ht.
  assert (String.eqb (join (prefix :: (segmentOf <$> zip shape.*1 vals))) "" = false) as ->.
  { destruct Hcase as [(_ & -> & _)|(_ & -> & _)];
      by destruct (segmentOf <$> zip shape.*1 vals). }
  assert (versionOf (join (prefix :: (segmentOf <$> zip shape.*1 vals))) = Some version) as ->.
  { destruct Hcase as [(-> & -> & _)|(-> & -> & _)];
      by destruct (segmentOf <$> zip shape.*1 vals). }
  assert (firstMissing (required version)
            (objectOf (pairsOf (join (prefix :: (segmentOf <$> zip shape.*1 vals))))) = None)
    as ->.
  { apply firstMissing_None. intros k Hk. apply (required_present version); [done|].
    by rewrite Hp, Hkeys, <-Hreq. }
  by rewrite Hp, Hobj.
Qed.

(** C4. Round trip: for every state showing a legal metric set of its
    version (v3 or v4), parsing the vector that [generateVector] makes of
    it succeeds, from any state, and leaves exactly that state: the same
    version and a metric set equal to the one serialised. *)
Theorem roundtrip :
  ∀ st st0 : State, legalState st → parseVector (generateVector st) st0 = (st, None).
Proof.
  intros [version m] st0 [[Hv Hm]|[Hv Hm]]; simpl in Hv, Hm; subst version.
  - destruct (legal_metricsOf shapeV3 m NoDup_shapeV3 Hm) as [Hvals Heq].
    pose proof (legal_values_clean shapeV3 _ (or_introl eq_refl) Hvals) as Hclean.
    pose proof (Forall2_length _ _ _ Hvals) as Hlen.
    revert Heq Hclean Hlen. generalize (valuesOf shapeV3 m) as vals.
    intros vals Heq Hclean Hlen. clear Hvals Hm. subst m.
    do 9 (destruct vals as [|? vals]; try discriminate Hlen).
    apply (roundtrip_clean 3 "CVSS:3.1" shapeV3); [by left|done..| |];
      vm_compute; reflexivity.
  - destruct (legal_metricsOf shapeV4 m NoDup_shapeV4 Hm) as [Hvals Heq].
    pose proof (legal_values_clean shapeV4 _ (or_intror eq_refl) Hvals) as Hclean.
    pose proof (Forall2_length _ _ _ Hvals) as Hlen.
    revert Heq Hclean Hlen. generalize (valuesOf shapeV4 m) as vals.
    intros vals Heq Hclean Hlen. clear Hvals Hm. subst m.
    do 12 (destruct vals as [|? vals]; try discriminate Hlen).
    apply (roundtrip_clean 4 "CVSS:4.0" shapeV4); [by right|done..| |];
      vm_compute; reflexivity.
Qed.

Lemma roundtrip_witness :
  parseVector (generateVector stateScenario1) stateSubsequentHigh = (stateScenario1, None)
  ∧ parseVector (generateVector stateSubsequentHigh) stateScenario1
    = (stateSubsequentHigh, None).
Proof.
  split; apply roundtrip; [left|right];
    (split; [reflexivity|apply metricsOf_legal; repeat constructor]).
Defined.

(** ** Agreement of the binary64 scores with the exact ones *)

Lemma feqb_eq (x y : float) : PrimFloat.Leibniz.eqb x y = true → x = y.
Proof. apply FloatAxioms.Leibniz.eqb_spec. Qed.

Lemma Q2double_Qeq (p q : Q) : (p == q)%Q → Q2double p = Q2double q.
Proof. intros H. unfold Q2double. by rewrite (Qred_complete p q H). Qed.

Lemma roundUp_Qeq (p q : Q) : (p == q)%Q → Spec.roundUp p = Spec.roundUp q.
Proof. intros H. unfold Spec.roundUp. by rewrite H. Qed.

Lemma forallb_elem {A} (f : A → bool) (l : list A) (x : A) :
  forallb f l = true → x ∈ l → f x = true.
Proof. rewrite forallb_forall. intros H Hx. apply H. by apply list_elem_of_In. Qed.

Lemma elem_of_list_prod {A B} (x : A) (y : B) (l : list A) (k : list B) :
  x ∈ l → y ∈ k → (x, y) ∈ list_prod l k.
Proof. rewrite !list_elem_of_In. apply in_prod. Qed.

Lemma tenthNearest_true : forallb tenthNearest (seqZ 0 101) = true.
Proof. vm_compute. reflexivity. Qed.

Lemma maxAgrees_true : maxAgrees = true.
Proof. vm_compute. reflexivity. Qed.

Lemma finalAgreesV4_true : finalAgreesV4 = true.
Proof. vm_compute. reflexivity. Qed.

(** The maximum of two triads, in binary64 and exactly. *)
Lemma max_triads (t1 t2 : string * (string * string)) :
  t1 ∈ triads → t2 ∈ triads →
  ∃ t, t ∈ triads ∧ JS.Math_max (triadF t1) (triadF t2) = triadF t
       ∧ (Qmax (triadQ t1) (triadQ t2) == triadQ t)%Q.
Proof.
  intros H1 H2.
  pose proof (forallb_elem _ _ t2 (forallb_elem _ _ t1 maxAgrees_true H1) H2) as H.
  cbv beta zeta in H.
  apply orb_true_iff in H as [[Hf Hq]%andb_true_iff|[Hf Hq]%andb_true_iff];
    apply feqb_eq in Hf; apply Qle_bool_iff in Hq.
  - exists t1. split; [done|]. split; [done|]. by apply Q.max_l.
  - exists t2. split; [done|]. split; [done|]. by apply Q.max_r.
Qed.

(** C3. For every legal v4 metric set, [calculateCVSSv4Score], computed
    in binary64, returns the double nearest to the exact score of the
    formula: min(Impact + Exploitability, 10) rounded up to one decimal,
    with Exploitability = 8.22 x AVw x ACw x ATw x PRw x UIw over the
    weight tables of [Spec.AV4w] to [Spec.UI4w] and Impact = 6.42 x
    max(VulnImpact, SubImpact), each 1-(1-w)(1-w)(1-w) with N=0, L=0.22,
    H=0.56. *)
Theorem scoreV4_formula :
  ∀ st : State,
    legal shapeV4 (currentMetrics st) →
    calculateCVSSv4Score st = Q2double (Spec.scoreV4 (currentMetrics st)).
Proof.
  intros [version m] Hm; simpl in *.
  legal_key Hm "AV" av. legal_key Hm "AC" ac. legal_key Hm "AT" at_. legal_key Hm "PR" pr.
  legal_key Hm "UI" ui. legal_key Hm "VC" vc. legal_key Hm "VI" vi. legal_key Hm "VA" va.
  legal_key Hm "SC" sc. legal_key Hm "SI" si. legal_key Hm "SA" sa.
  unfold calculateCVSSv4Score, Spec.scoreV4; simpl.
  rewrite Hav, Hac, Hat_, Hpr, Hui, Hvc, Hvi, Hva, Hsc, Hsi, Hsa.
  assert (Hv : (vc, (vi, va)) ∈ triads) by (by repeat apply elem_of_list_prod).
  assert (Hs : (sc, (si, sa)) ∈ triads) by (by repeat apply elem_of_list_prod).
  assert (He : (av, (ac, (at_, (pr, ui)))) ∈ exploitsV4) by (by repeat apply elem_of_list_prod).
  destruct (max_triads _ _ Hv Hs) as (t & Ht & Hf & Hq).
  change (v4Score (Some av) (Some ac) (Some at_) (Some pr) (Some ui)
            (Some vc) (Some vi) (Some va) (Some sc) (Some si) (Some sa))
    with (v4Final (v4Exploitability (Some av) (Some ac) (Some at_) (Some pr) (Some ui))
            (JS.Math_max (triadF (vc, (vi, va))) (triadF (sc, (si, sa))))).
  rewrite Hf.
  pose proof (forallb_elem _ _ t (forallb_elem _ _ _ finalAgreesV4_true He) Ht) as H.
  cbv beta zeta in H. cbn [fst snd] in H. apply feqb_eq in H. rewrite H.
  f_equal. apply roundUp_Qeq. unfold Spec.BaseScoreV4, Spec.ImpactV4.
  change (Spec.triadImpact (Some vc) (Some vi) (Some va)) with (triadQ (vc, (vi, va))).
  change (Spec.triadImpact (Some sc) (Some si) (Some sa)) with (triadQ (sc, (si, sa))).
  rewrite Hq, Qred_correct. reflexivity.
Qed.

Lemma scoreV4_formula_witness :
  calculateCVSSv4Score stateSubsequentHigh
  = Q2double (Spec.scoreV4 (currentMetrics stateSubsequentHigh)).
Proof. apply scoreV4_formula, metricsOf_legal. repeat constructor. Defined.

(** ** The exact v3 base score: a morphism, monotone in the impact *)

Lemma BaseScoreV3_Qeq (S : option string) (i i' e e' : Q) :
  (i == i')%Q → (e == e')%Q → (Spec.BaseScoreV3 S i e == Spec.BaseScoreV3 S i' e')%Q.
Proof.
  intros Hi He. unfold Spec.BaseScoreV3. rewrite Hi.
  destruct (Qle_bool i' 0); [reflexivity|].
  destruct (Spec.isCode S "U"); by rewrite Hi, He.
Qed.

Lemma BaseScoreV3_changed_mono (i1 i2 e : Q) :
  (0 <= e)%Q → (i1 <= i2)%Q →
  (Spec.BaseScoreV3 (Some "C") i1 e <= Spec.BaseScoreV3 (Some "C") i2 e)%Q.
Proof.
  intros He Hi. unfold Spec.BaseScoreV3. cbn [Spec.isCode String.eqb Ascii.eqb Bool.eqb].
  destruct (Qle_bool i1 0) eqn:E1, (Qle_bool i2 0) eqn:E2.
  - apply Qle_refl.
  - apply Q.min_glb; [|discriminate].
    assert (0 < i2)%Q by (apply Qnot_le_lt; rewrite <-Qle_bool_iff; congruence). lra.
  - apply Qle_bool_iff in E2.
    assert (0 < i1)%Q by (apply Qnot_le_lt; rewrite <-Qle_bool_iff; congruence). lra.
  - apply Q.min_le_compat_r. lra.
Qed.

Lemma roundUp_ceiling_mono (x y : Q) :
  (x <= y)%Q → (Qceiling (x * 10) <= Qceiling (y * 10))%Z.
Proof. intros H. apply Qceiling_resp_le. lra. Qed.

Lemma roundUp_Qeq_ceiling (x y : Q) :
  (Spec.roundUp x == Spec.roundUp y)%Q → Qceiling (x * 10) = Qceiling (y * 10).
Proof.
  unfold Spec.roundUp. intros H.
  unfold Qdiv in H. apply Qmult_inj_r in H; [|discriminate].
  unfold Qeq in H. simpl in H. lia.
Qed.

(** A score squeezed between two equal scores. *)
Lemma roundUp_squeeze (lo x hi : Q) :
  (lo <= x)%Q → (x <= hi)%Q → (Spec.roundUp lo == Spec.roundUp hi)%Q →
  Spec.roundUp x = Spec.roundUp lo.
Proof.
  intros H1 H2 H3%roundUp_Qeq_ceiling.
  apply roundUp_ceiling_mono in H1, H2. unfold Spec.roundUp.
  replace (Qceiling (x * 10)) with (Qceiling (lo * 10)) by lia. reflexivity.
Qed.

(** The enclosure of the exact impact under Scope changed. *)
Lemma impactC_enclosed (t : string * (string * string)) :
  (impactLoC t <= Spec.ImpactV3 (Some "C") (issQ t))%Q
  ∧ (Spec.ImpactV3 (Some "C") (issQ t) <= impactHiC t)%Q.
Proof.
  unfold impactLoC, impactHiC, Spec.ImpactV3, powLo.
  cbn [Spec.isCode String.eqb Ascii.eqb Bool.eqb]. rewrite !Qred_correct.
  set (x := ((issQ t - 0.02) ^ 15)%Q).
  pose proof (Qfloor_le (x * inject_Z (10 ^ 18))) as Hlo.
  pose proof (Qlt_floor (x * inject_Z (10 ^ 18))) as Hhi.
  set (n := Qfloor (x * inject_Z (10 ^ 18))) in *.
  assert (E1 : (n # 10 ^ 18 == inject_Z n / inject_Z (10 ^ 18))%Q)
    by (rewrite Qmake_Qdiv; reflexivity).
  assert (E2 : (inject_Z (n + 1) == inject_Z n + 1)%Q) by (rewrite inject_Z_plus; reflexivity).
  assert (Hpos : (0 < inject_Z (10 ^ 18))%Q) by reflexivity.
  rewrite E2 in Hhi. rewrite E1.
  assert (Hx1 : (inject_Z n / inject_Z (10 ^ 18) <= x)%Q).
  { apply Qle_shift_div_r; [done|]. exact Hlo. }
  assert (Hx2 : (x <= inject_Z n / inject_Z (10 ^ 18) + (1 # 10 ^ 18))%Q).
  { assert ((1 # 10 ^ 18) == 1 / inject_Z (10 ^ 18))%Q as -> by reflexivity.
    assert (inject_Z n / inject_Z (10 ^ 18) + 1 / inject_Z (10 ^ 18)
            == (inject_Z n + 1) / inject_Z (10 ^ 18))%Q as -> by (field; discriminate).
    apply Qle_shift_div_l; [done|]. by apply Qlt_le_weak. }
  split; lra.
Qed.

Lemma finalAgreesV3U_true : finalAgreesV3U = true.
Proof. vm_compute. reflexivity. Qed.

Lemma finalAgreesV3C_true : finalAgreesV3C = true.
Proof. vm_compute. reflexivity. Qed.

Lemma v3Score_decompose (Math_pow : float → float → float)
    (AV AC PR UI S C I A : option string) :
  v3Score Math_pow AV AC PR UI S C I A
  = match v3Exploitability AV AC PR UI S with
    | Some ef =>
        Some (roundUp (v3Base S (v3ISS C I A) (Math_pow (v3ISS C I A - 0.02)%float 15%float) ef))
    | None => None
    end.
Proof. unfold v3Score, v3Exploitability. by destruct (JS.get CVSS3_WEIGHTS.PR PR). Qed.

(** Scope unchanged. *)
Lemma scoreV3_unchanged (Math_pow : float → float → float)
    (t : string * (string * string)) (e : string * (string * (string * string))) :
  t ∈ triads → e ∈ exploitsV3 →
  v3Score Math_pow (Some e.1) (Some e.2.1) (Some e.2.2.1) (Some e.2.2.2) (Some "U")
          (Some t.1) (Some t.2.1) (Some t.2.2)
  = Some (Q2double (Spec.roundUp (Spec.BaseScoreV3 (Some "U")
            (Spec.ImpactV3 (Some "U") (issQ t)) (explQ "U" e)))).
Proof.
  intros Ht He. rewrite v3Score_decompose.
  pose proof (forallb_elem _ _ e (forallb_elem _ _ t finalAgreesV3U_true Ht) He) as H.
  cbv beta zeta in H. fold (explF "U" e). destruct (explF "U" e) as [ef|]; [|discriminate H].
  apply feqb_eq in H. f_equal.
  change (v3Base (Some "U") (v3ISS (Some t.1) (Some t.2.1) (Some t.2.2))
            (Math_pow (v3ISS (Some t.1) (Some t.2.1) (Some t.2.2) - 0.02)%float 15%float) ef)
    with (v3Base (Some "U") (issF t) 0%float ef).
  rewrite H. f_equal. apply roundUp_Qeq, BaseScoreV3_Qeq; by rewrite Qred_correct.
Qed.

(** Scope changed, under an accurate [Math.pow]. *)
Lemma scoreV3_changed (Math_pow : float → float → float)
    (t : string * (string * string)) (e : string * (string * (string * string))) :
  pow_accurate Math_pow → t ∈ triads → e ∈ exploitsV3 →
  v3Score Math_pow (Some e.1) (Some e.2.1) (Some e.2.2.1) (Some e.2.2.2) (Some "C")
          (Some t.1) (Some t.2.1) (Some t.2.2)
  = Some (Q2double (Spec.roundUp (Spec.BaseScoreV3 (Some "C")
            (Spec.ImpactV3 (Some "C") (issQ t)) (explQ "C" e)))).
Proof.
  intros Hpow Ht He. rewrite v3Score_decompose.
  pose proof (forallb_elem _ _ t finalAgreesV3C_true Ht) as H. cbv beta zeta in H.
  apply andb_true_iff in H as [Habs H].
  pose proof (forallb_elem _ _ e H He) as H'. cbv beta zeta in H'. clear H.
  fold (explF "C" e). destruct (explF "C" e) as [ef|]; [|discriminate H'].
  apply andb_true_iff in H' as [[Hpos Heq]%andb_true_iff Hall].
  apply Qle_bool_iff in Hpos. apply Qeq_bool_iff in Heq.
  specialize (Hpow _ Habs).
  pose proof (forallb_elem _ _ _ Hall Hpow) as H. cbv beta in H. apply feqb_eq in H.
  f_equal. fold (issF t). rewrite H. f_equal.
  destruct (impactC_enclosed t) as [Hlo Hhi].
  rewrite Qred_correct in Hpos.
  symmetry.
  transitivity (Spec.roundUp (Spec.BaseScoreV3 (Some "C") (Spec.ImpactV3 (Some "C") (issQ t))
                                (Qred (explQ "C" e)))).
  - apply roundUp_Qeq, BaseScoreV3_Qeq; [reflexivity|by rewrite Qred_correct].
  - apply roundUp_squeeze with (hi := Spec.BaseScoreV3 (Some "C") (impactHiC t) (Qred (explQ "C" e))).
    + apply BaseScoreV3_changed_mono; [by rewrite Qred_correct|done].
    + apply BaseScoreV3_changed_mono; [by rewrite Qred_correct|done].
    + done.
Qed.

(** Every engine is as accurate as itself: the power by squaring meets
    [pow_accurate]. *)
Lemma pow15_accurate : pow_accurate (λ x _, pow15 x).
Proof. intros x _. unfold within_ulps. apply elem_of_app. right. left. Qed.

(** C2. For every legal v3 metric set, under an accurate [Math.pow],
    [calculateCVSSv3Score], computed in binary64, returns the double
    nearest to the exact score of the formula: Impact is 6.42 x ISS for
    Scope=U and 7.52 x (ISS - 0.029) - 3.25 x (ISS - 0.02)^15 for Scope=C;
    the base score is 0 when Impact <= 0, else min(Impact +
    Exploitability, 10) for Scope=U and min(1.08 x (Impact +
    Exploitability), 10) for Scope=C; and the result is that base score
    rounded up to one decimal (the ceiling of ten times it, over ten). *)
Theorem scoreV3_formula :
  ∀ Math_pow : float → float → float,
    pow_accurate Math_pow →
    ∀ st : State,
      legal shapeV3 (currentMetrics st) →
      calculateCVSSv3Score Math_pow st = Some (Q2double (Spec.scoreV3 (currentMetrics st))).
Proof.
  intros Math_pow Hpow [version m] Hm; simpl in *.
  legal_key Hm "AV" av. legal_key Hm "AC" ac. legal_key Hm "PR" pr. legal_key Hm "UI" ui.
  legal_key Hm "S" s. legal_key Hm "C" c. legal_key Hm "I" i. legal_key Hm "A" a.
  unfold calculateCVSSv3Score, Spec.scoreV3; simpl.
  rewrite Hav, Hac, Hpr, Hui, Hs, Hc, Hi, Ha.
  assert (Ht : (c, (i, a)) ∈ triads) by (by repeat apply elem_of_list_prod).
  assert (He : (av, (ac, (pr, ui))) ∈ exploitsV3) by (by repeat apply elem_of_list_prod).
  clear -Hpow Ht He Hins. cases_in Hins.
  - exact (scoreV3_unchanged Math_pow _ _ Ht He).
  - exact (scoreV3_changed Math_pow _ _ Hpow Ht He).
Qed.

Lemma scoreV3_formula_witness :
  calculateCVSSv3Score (λ x _, pow15 x) stateScopeChanged
  = Some (Q2double (Spec.scoreV3 (currentMetrics stateScopeChanged))).
Proof.
  apply scoreV3_formula; [exact pow15_accurate|apply metricsOf_legal; repeat constructor].
Defined.

(** ** One-decimal scores *)

Lemma severityAgrees_true : forallb severityAgrees (seqZ 0 101) = true.
Proof. vm_compute. reflexivity. Qed.

(** Severity read off the double is the severity of the score. *)
Lemma getSeverity_tenths (n : Z) :
  (0 <= n <= 100)%Z → getSeverity (Q2double (n # 10)) = Spec.severity (n # 10).
Proof.
  intros Hn. apply String.eqb_eq. apply (forallb_elem severityAgrees (seqZ 0 101)).
  - exact severityAgrees_true.
  - apply elem_of_seqZ. lia.
Qed.

(** The double of a one-decimal score is a double nearest to it. *)
Lemma Q2double_tenths_nearest (n : Z) : (0 <= n <= 100)%Z → tenthNearest n = true.
Proof.
  intros Hn. apply (forallb_elem tenthNearest (seqZ 0 101)).
  - exact tenthNearest_true.
  - apply elem_of_seqZ. lia.
Qed.

Lemma roundUp_tenths (x : Q) :
  (0 <= x)%Q → (x <= 10)%Q →
  ∃ n : Z, (0 <= n <= 100)%Z ∧ (Spec.roundUp x == n # 10)%Q.
Proof.
  intros H0 H10. exists (Qceiling (x * 10)). split.
  - split.
    + change 0%Z with (Qceiling 0). apply Qceiling_resp_le. lra.
    + change 100%Z with (Qceiling 100). apply Qceiling_resp_le. lra.
  - unfold Spec.roundUp. rewrite (Qmake_Qdiv (Qceiling (x * 10)) 10). reflexivity.
Qed.

Lemma lookupQ_unit (table : list (string * Q)) (code : string) :
  Forall (λ cw, 0 <= cw.2 ∧ cw.2 <= 1)%Q table →
  (0 <= Spec.lookupQ table code)%Q ∧ (Spec.lookupQ table code <= 1)%Q.
Proof.
  induction 1 as [|[c w] table [H0 H1] _ IH]; simpl; [split; discriminate|].
  by destruct (String.eqb code c).
Qed.

Lemma weight_unit (table : list (string * Q)) (v : option string) :
  Forall (λ cw, 0 <= cw.2 ∧ cw.2 <= 1)%Q table →
  (0 <= Spec.weight table v)%Q ∧ (Spec.weight table v <= 1)%Q.
Proof.
  intros H. destruct v as [code|]; simpl; [by apply lookupQ_unit|split; discriminate].
Qed.

Lemma ExploitabilityV3_nonneg (AV AC PR UI S : option string) :
  (0 <= Spec.ExploitabilityV3 AV AC PR UI S)%Q.
Proof.
  unfold Spec.ExploitabilityV3.
  assert (0 <= Spec.AVw AV)%Q by (apply weight_unit; unit_table).
  assert (0 <= Spec.ACw AC)%Q by (apply weight_unit; unit_table).
  assert (0 <= Spec.PRw S PR)%Q
    by (unfold Spec.PRw; destruct (Spec.isCode S "U"); apply weight_unit; unit_table).
  assert (0 <= Spec.UIw UI)%Q by (apply weight_unit; unit_table).
  repeat apply Qmult_le_0_compat; try done.
Qed.

Lemma BaseScoreV3_range (S : option string) (impact e : Q) :
  (0 <= e)%Q →
  (0 <= Spec.BaseScoreV3 S impact e)%Q ∧ (Spec.BaseScoreV3 S impact e <= 10)%Q.
Proof.
  intros He. unfold Spec.BaseScoreV3. destruct (Qle_bool impact 0) eqn:E; [split; discriminate|].
  assert (0 < impact)%Q by (apply Qnot_le_lt; rewrite <-Qle_bool_iff; congruence).
  destruct (Spec.isCode S "U"); (split; [apply Q.min_glb; [lra|discriminate]|apply Q.le_min_r]).
Qed.

(** The exact v3 score is a one-decimal number between 0 and 10, for any
    metric set. *)
Lemma scoreV3_tenths (m : Metrics) :
  ∃ n : Z, (0 <= n <= 100)%Z ∧ (Spec.scoreV3 m == n # 10)%Q.
Proof.
  unfold Spec.scoreV3. apply roundUp_tenths; apply BaseScoreV3_range, ExploitabilityV3_nonneg.
Qed.

Lemma triadImpact_unit (X Y Z : option string) :
  (0 <= Spec.triadImpact X Y Z)%Q.
Proof.
  unfold Spec.triadImpact.
  destruct (weight_unit [("N", 0); ("L", 0.22); ("H", 0.56)]%Q X) as [? ?]; [unit_table|].
  destruct (weight_unit [("N", 0); ("L", 0.22); ("H", 0.56)]%Q Y) as [? ?]; [unit_table|].
  destruct (weight_unit [("N", 0); ("L", 0.22); ("H", 0.56)]%Q Z) as [? ?]; [unit_table|].
  fold Spec.impactW in *.
  assert (0 <= (1 - Spec.impactW X) * (1 - Spec.impactW Y))%Q
    by (apply Qmult_le_0_compat; lra).
  assert ((1 - Spec.impactW X) * (1 - Spec.impactW Y) <= 1)%Q by nra.
  assert ((1 - Spec.impactW X) * (1 - Spec.impactW Y) * (1 - Spec.impactW Z) <= 1)%Q by nra.
  lra.
Qed.

Lemma ExploitabilityV4_nonneg (AV AC AT PR UI : option string) :
  (0 <= Spec.ExploitabilityV4 AV AC AT PR UI)%Q.
Proof.
  unfold Spec.ExploitabilityV4.
  assert (0 <= Spec.AV4w AV)%Q by (apply weight_unit; unit_table).
  assert (0 <= Spec.AC4w AC)%Q by (apply weight_unit; unit_table).
  assert (0 <= Spec.AT4w AT)%Q by (apply weight_unit; unit_table).
  assert (0 <= Spec.PR4w PR)%Q by (apply weight_unit; unit_table).
  assert (0 <= Spec.UI4w UI)%Q by (apply weight_unit; unit_table).
  repeat apply Qmult_le_0_compat; try done.
Qed.

(** So is the exact v4 score. *)
Lemma scoreV4_tenths (m : Metrics) :
  ∃ n : Z, (0 <= n <= 100)%Z ∧ (Spec.scoreV4 m == n # 10)%Q.
Proof.
  unfold Spec.scoreV4, Spec.BaseScoreV4, Spec.ImpactV4. apply roundUp_tenths.
  - apply Q.min_glb; [|discriminate].
    set (a := Spec.triadImpact _ _ _). set (b := Spec.triadImpact _ _ _).
    set (e := Spec.ExploitabilityV4 _ _ _ _ _).
    assert (0 <= a)%Q by apply triadImpact_unit.
    assert (a <= Qmax a b)%Q by apply Q.le_max_l.
    assert (0 <= e)%Q by apply ExploitabilityV4_nonneg. lra.
  - apply Q.le_min_r.
Qed.

(** ** What the display makes of illegal values *)

(** With AV:X the score is NaN, which [getSeverity] calls Critical; with
    PR:X the score computation throws. *)
Lemma illegal_values_scored :
  ∀ Math_pow : float → float → float,
    calculateScore Math_pow (fst (parseVector vectorIllegalValue stateScenario1)) = Some nan
    ∧ getSeverity nan = "Critical"
    ∧ snd (parseVector vectorIllegalPR stateScenario1) = None
    ∧ calculateScore Math_pow (fst (parseVector vectorIllegalPR stateScenario1)) = None.
Proof. intros Math_pow. repeat split; vm_compute; reflexivity. Qed.

(** ** Order of the segments and text before the first slash *)

(** With distinct keys, the value of a key is the value of its pair. *)
Lemma lastValue_NoDup (key value : string) (pairs : list (string * string)) :
  NoDup pairs.*1 → lastValue key pairs = Some value ↔ (key, value) ∈ pairs.
Proof.
  intros Hnd. split; [apply lastValue_elem|].
  intros Hin. apply list_elem_of_split in Hin as (earlier & later & ->).
  apply lastValue_last_occurrence.
  rewrite fmap_app, fmap_cons in Hnd. apply NoDup_app in Hnd as (_ & _ & Hnd).
  by apply NoDup_cons in Hnd as [? _].
Qed.

(** Pairs with distinct keys build the same object in any order. *)
Lemma objectOf_Permutation (pairs1 pairs2 : list (string * string)) :
  NoDup pairs1.*1 → pairs1 ≡ₚ pairs2 → objectOf pairs1 = objectOf pairs2.
Proof.
  intros Hnd Hperm.
  assert (Hnd2 : NoDup pairs2.*1) by (by rewrite <-Hperm).
  apply map_eq. intros key. destruct (decide (key = "__proto__")) as [->|Hp].
  - by rewrite !objectOf_proto.
  - rewrite !objectOf_lookup by done. apply option_eq. intros value.
    rewrite !lastValue_NoDup by done. by rewrite Hperm.
Qed.

(** The pairs of a vector are read off the text after its first slash. *)
Lemma pairsOf_after (vectorString : string) :
  pairsOf vectorString
  = match after "/" vectorString with
    | Some rest => omap keyValue (JS.split "/" rest)
    | None => []
    end.
Proof.
  unfold pairsOf. rewrite split_before_after. by destruct (after "/" vectorString).
Qed.

(** What [parseVector] does is fixed by the version its input shows and
    by the pairs it carries. *)
Lemma parseVector_version_pairs (input1 input2 : string) (st : State) :
  is_Some (versionOf (JS.trim input1)) →
  versionOf (JS.trim input1) = versionOf (JS.trim input2) →
  objectOf (pairsOf (JS.trim input1)) = objectOf (pairsOf (JS.trim input2)) →
  parseVector input1 st = parseVector input2 st.
Proof.
  intros [version Hv] Hsame Hobj. rewrite !parseVector_cases. cbv zeta.
  rewrite <-Hsame, <-Hobj, Hv.
  assert (Hne : ∀ v, versionOf v = Some version → String.eqb v "" = false).
  { intros v H. destruct (String.eqb_spec v "") as [->|]; [discriminate H|done]. }
  rewrite (Hne _ Hv). rewrite Hsame in Hv. by rewrite (Hne _ Hv).
Qed.

(** X1. The metrics of a vector may come in any order: two inputs of the
    same version whose segments carry the same key:value pairs, each key
    once, are parsed alike, from any state. *)
Theorem parse_any_order :
  ∀ (input1 input2 : string) (st : State),
    is_Some (versionOf (JS.trim input1)) →
    versionOf (JS.trim input1) = versionOf (JS.trim input2) →
    NoDup (pairsOf (JS.trim input1)).*1 →
    pairsOf (JS.trim input1) ≡ₚ pairsOf (JS.trim input2) →
    parseVector input1 st = parseVector input2 st.
Proof.
  intros input1 input2 st Hv Hsame Hnd Hperm.
  apply parseVector_version_pairs; [done..|]. by apply objectOf_Permutation.
Qed.

Lemma parse_any_order_witness :
  parseVector "CVSS:3.1/A:H/I:H/C:H/S:U/UI:N/PR:N/AC:L/AV:N" stateSubsequentHigh
  = parseVector scenario1 stateSubsequentHigh
  ∧ parseVector scenario1 stateSubsequentHigh = (stateScenario1, None).
Proof.
  split; [|vm_compute; reflexivity].
  apply parse_any_order.
  - by exists 3%Z.
  - reflexivity.
  - apply (bool_decide_unpack _). vm_compute. exact I.
  - vm_compute. symmetry.
    exact (Permutation_rev [("AV", "N"); ("AC", "L"); ("PR", "N"); ("UI", "N");
                            ("S", "U"); ("C", "H"); ("I", "H"); ("A", "H")]).
Defined.

(** X2. The text before the first slash is read for the version only:
    two inputs that show the same version and agree after their first
    slash are parsed alike, so CVSS:3.0 and CVSS:3.1 are one version and
    anything glued to the prefix is ignored. *)
Theorem parse_head_gives_version_only :
  ∀ (input1 input2 : string) (st : State),
    is_Some (versionOf (JS.trim input1)) →
    versionOf (JS.trim input1) = versionOf (JS.trim input2) →
    after "/" (JS.trim input1) = after "/" (JS.trim input2) →
    parseVector input1 st = parseVector input2 st.
Proof.
  intros input1 input2 st Hv Hsame Hafter.
  apply parseVector_version_pairs; [done..|]. by rewrite !pairsOf_after, Hafter.
Qed.

Lemma parse_head_gives_version_only_witness :
  parseVector "CVSS:3.0-draft/AV:N/AC:L/PR:N/UI:N/S:U/C:H/I:H/A:H" stateSubsequentHigh
  = parseVector scenario1 stateSubsequentHigh
  ∧ parseVector scenario1 stateSubsequentHigh = (stateScenario1, None).
Proof.
  split; [|vm_compute; reflexivity].
  apply parse_head_gives_version_only; [by exists 3%Z|reflexivity..].
Defined.

(** ** Parsing what was generated, beyond the legal metric sets *)

(** A legal state spells itself, in clean values. *)
Lemma spelled_legal (st : State) : legalState st → spelled st = currentMetrics st.
Proof.
  destruct st as [version m]. unfold spelled.
  intros [[Hv Hm]|[Hv Hm]]; simpl in *; subst version.
  - destruct (legal_metricsOf shapeV3 m NoDup_shapeV3 Hm) as [_ Heq].
    etrans; [|symmetry; exact Heq]. clear Heq.
    legal_key Hm "AV" av. legal_key Hm "AC" ac. legal_key Hm "PR" pr. legal_key Hm "UI" ui.
    legal_key Hm "S" s. legal_key Hm "C" c. legal_key Hm "I" i. legal_key Hm "A" a.
    unfold valuesOf. simpl. by rewrite Hav, Hac, Hpr, Hui, Hs, Hc, Hi, Ha.
  - destruct (legal_metricsOf shapeV4 m NoDup_shapeV4 Hm) as [_ Heq].
    etrans; [|symmetry; exact Heq]. clear Heq.
    legal_key Hm "AV" av. legal_key Hm "AC" ac. legal_key Hm "AT" at_. legal_key Hm "PR" pr.
    legal_key Hm "UI" ui. legal_key Hm "VC" vc. legal_key Hm "VI" vi. legal_key Hm "VA" va.
    legal_key Hm "SC" sc. legal_key Hm "SI" si. legal_key Hm "SA" sa.
    unfold valuesOf. simpl.
    by rewrite Hav, Hac, Hat_, Hpr, Hui, Hvc, Hvi, Hva, Hsc, Hsi, Hsa.
Qed.

Lemma legal_clean (st : State) (k : string) :
  legalState st → k ∈ required (currentVersion st) →
  cleanb (JS.interp (currentMetrics st !! k)) = true.
Proof.
  destruct st as [version m].
  intros [[Hv Hm]|[Hv Hm]] Hk; simpl in *; subst version;
    specialize (Hm k); cases_in Hk; simpl in Hm; destruct Hm as (v & -> & Hin);
    cases_in Hin; reflexivity.
Qed.

(** Parsing the vector generated from a state of v3 or v4 whose
    interpolated values are clean leaves what the vector spells. *)
Lemma parseVector_generateVector (st st0 : State) :
  currentVersion st = 3%Z ∨ currentVersion st = 4%Z →
  (∀ k : string, k ∈ required (currentVersion st) →
     cleanb (JS.interp (currentMetrics st !! k)) = true) →
  parseVector (generateVector st) st0 = (mkState (currentVersion st) (spelled st), None).
Proof.
  destruct st as [version m]. intros Hversion Hclean. simpl in *.
  assert (Hall : Forall (λ k, cleanb (JS.interp (m !! k)) = true) (required version))
    by (by apply Forall_forall).
  unfold spelled. simpl. destruct Hversion as [-> | ->].
  - change (required 3) with shapeV3.*1 in *.
    assert (generateVector (mkState 3 m)
            = generateVector (mkState 3 (metricsOf shapeV3.*1
                ((λ k, JS.interp (m !! k)) <$> shapeV3.*1)))) as -> by reflexivity.
    apply (roundtrip_clean 3 "CVSS:3.1" shapeV3); [by left|reflexivity| |reflexivity..].
    repeat (apply Forall_cons_1 in Hall as [? Hall]).
    repeat (apply Forall_cons; split; [by split|]). apply Forall_nil_2.
  - change (required 4) with shapeV4.*1 in *.
    assert (generateVector (mkState 4 m)
            = generateVector (mkState 4 (metricsOf shapeV4.*1
                ((λ k, JS.interp (m !! k)) <$> shapeV4.*1)))) as -> by reflexivity.
    apply (roundtrip_clean 4 "CVSS:4.0" shapeV4); [by right|reflexivity| |reflexivity..].
    repeat (apply Forall_cons_1 in Hall as [? Hall]).
    repeat (apply Forall_cons; split; [by split|]). apply Forall_nil_2.
Qed.

Lemma legalState_version (st : State) :
  legalState st → currentVersion st = 3%Z ∨ currentVersion st = 4%Z.
Proof. intros [[? _]|[? _]]; auto. Qed.

Lemma parseVector_generateVector_legal (st st0 : State) :
  legalState st → parseVector (generateVector st) st0 = (st, None).
Proof.
  intros Hst. rewrite parseVector_generateVector.
  - rewrite spelled_legal by done. by destruct st.
  - by apply legalState_version.
  - intros k. by apply legal_clean.
Qed.

(** X3. Parsing the vector generated from a v3 or v4 state whose
    interpolated values are clean (non-empty, free of slashes and colons,
    not ending in white space) succeeds, from any state, and leaves the
    metric set the vector spells: the values of the keys of the version,
    legal or not, with the text undefined for a metric that was missing.
    The vector generated from that metric set is the same vector, and a
    legal state spells its own metric set. *)
Theorem parse_generated :
  ∀ st st0 : State,
    currentVersion st = 3%Z ∨ currentVersion st = 4%Z →
    (∀ k : string, k ∈ required (currentVersion st) →
       cleanb (JS.interp (currentMetrics st !! k)) = true) →
    parseVector (generateVector st) st0 = (mkState (currentVersion st) (spelled st), None)
    ∧ generateVector (mkState (currentVersion st) (spelled st)) = generateVector st
    ∧ (legalState st → spelled st = currentMetrics st).
Proof.
  intros st st0 Hversion Hclean. split; [by apply parseVector_generateVector|].
  split; [|apply spelled_legal].
  destruct st as [version m]. simpl in *. by destruct Hversion as [-> | ->].
Qed.

Lemma parse_generated_witness :
  generateVector stateV4WithV3Defaults
  = "CVSS:4.0/AV:N/AC:L/AT:undefined/PR:N/UI:N/VC:undefined/VI:undefined/VA:undefined/SC:undefined/SI:undefined/SA:undefined"
  ∧ parseVector (generateVector stateV4WithV3Defaults) stateScenario1
    = (mkState 4 (spelled stateV4WithV3Defaults), None)
  ∧ spelled stateV4WithV3Defaults !! "AT" = Some "undefined".
Proof.
  split; [reflexivity|]. split; [|reflexivity].
  apply parse_generated; [by right|].
  intros k Hk. apply list_elem_of_In in Hk. simpl in Hk.
  repeat (destruct Hk as [<-|Hk]; [reflexivity|]). destruct Hk.
Defined.

(** ** Sessions at the buttons *)

Lemma legal_defaultMetricsV3 : legal shapeV3 defaultMetricsV3.
Proof.
  apply (metricsOf_legal shapeV3 ["N"; "L"; "N"; "N"; "U"; "N"; "N"; "N"]). repeat constructor.
Qed.

Lemma legal_defaultMetricsV4 : legal shapeV4 defaultMetricsV4.
Proof.
  apply (metricsOf_legal shapeV4 ["N"; "L"; "N"; "N"; "N"; "N"; "N"; "N"; "N"; "N"; "N"]).
  repeat constructor.
Qed.

Lemma legalState_switchVersion (version : Z) (st : State) :
  version = 3%Z ∨ version = 4%Z → legalState (switchVersion version st).
Proof.
  intros [-> | ->]; [left|right]; (split; [reflexivity|]).
  - exact legal_defaultMetricsV3.
  - exact legal_defaultMetricsV4.
Qed.

Lemma legalState_shapeOf (st : State) :
  legalState st ↔
  (currentVersion st = 3%Z ∨ currentVersion st = 4%Z)
  ∧ legal (shapeOf (currentVersion st)) (currentMetrics st).
Proof.
  unfold legalState, shapeOf. split.
  - intros [[E H]|[E H]]; rewrite E; auto.
  - intros [[E|E] H]; rewrite E in H; auto.
Qed.

(** Writing a value code of a key of the shape under that key keeps a
    metric set legal. *)
Lemma legal_set (shape : list (string * list string)) (m : Metrics)
    (metric value : string) (vs : list string) :
  legal shape m → legalValues shape metric = Some vs → value ∈ vs →
  legal shape (assign m metric (Some value)).
Proof.
  intros Hm Hk Hv k. simpl. destruct (decide (metric = k)) as [<-|Hne].
  - rewrite Hk, lookup_insert_eq. by exists value.
  - rewrite lookup_insert_ne by done. apply Hm.
Qed.

Lemma shape_keys_not_proto (version : Z) (metric : string) (vs : list string) :
  legalValues (shapeOf version) metric = Some vs → metric ≠ "__proto__".
Proof.
  intros H ->. unfold shapeOf in H. by destruct (version =? 3)%Z.
Qed.

Lemma legalState_selectMetric (st : State) (metric value : string) (vs : list string) :
  legalState st →
  legalValues (shapeOf (currentVersion st)) metric = Some vs → value ∈ vs →
  legalState (selectMetric (Some metric) (Some value) st).
Proof.
  rewrite !legalState_shapeOf. intros [Hv Hm] Hk Hin. split; [done|].
  unfold selectMetric. simpl.
  rewrite decide_False by (by eapply shape_keys_not_proto).
  by eapply legal_set.
Qed.

Lemma convertVector_state (st : State) :
  snd (convertVector st)
  = switchVersion (if (currentVersion st =? 3)%Z then 4 else 3) st.
Proof.
  unfold convertVector.
  destruct (if (currentVersion st =? 3)%Z then _ else _) as [cm w]. reflexivity.
Qed.

(** X4. Sessions at the buttons keep the metric set legal: from the
    state the page loads with, any sequence of clicks on the version
    buttons, on the metric buttons of the current version, on convert,
    on clear while v3 is current, and of parsing vectors generated from
    legal states, ends in a state that shows a legal metric set of its
    version. *)
Theorem buttons_keep_legal : ∀ st : State, reachable st → legalState st.
Proof.
  intros st H. induction H as [|st ev _ IH Hev].
  - left. split; [reflexivity|exact legal_defaultMetricsV3].
  - destruct ev as [| |text| | |[metric|] [value|]]; simpl in *; try done.
    + apply legalState_switchVersion. by left.
    + apply legalState_switchVersion. by right.
    + destruct Hev as (st' & Hst' & ->). by rewrite parseVector_generateVector_legal.
    + left. split; [done|exact legal_defaultMetricsV3].
    + rewrite convertVector_state. apply legalState_switchVersion.
      destruct (currentVersion st =? 3)%Z; auto.
    + destruct Hev as (vs & Hk & Hin). by eapply legalState_selectMetric.
Qed.

Lemma buttons_keep_legal_witness :
  legalState (handle (handle (handle (handle loaded ClickV4)
    (ClickMetric (Some "SC") (Some "H"))) ClickConvert) (ClickParse scenario1)).
Proof.
  apply buttons_keep_legal.
  apply reachable_handle; [apply reachable_handle; [apply reachable_handle;
    [apply reachable_handle; [apply reachable_loaded|]|]|]|]; simpl.
  - exact I.
  - exists ["N"; "L"; "H"]. split; [reflexivity|]. apply list_elem_of_In. simpl. tauto.
  - exact I.
  - exists stateScenario1. split; [|reflexivity].
    left. split; [reflexivity|]. apply metricsOf_legal. repeat constructor.
Defined.

(** ** Legal metric sets, by their values *)

Lemma legal_shapeV3_values (m : Metrics) :
  legal shapeV3 m →
  ∃ av ac pr ui s c i a : string,
    m = metricsOf shapeV3.*1 [av; ac; pr; ui; s; c; i; a]
    ∧ av ∈ ["N"; "A"; "L"; "P"] ∧ ac ∈ ["L"; "H"] ∧ pr ∈ ["N"; "L"; "H"]
    ∧ ui ∈ ["N"; "R"] ∧ s ∈ ["U"; "C"]
    ∧ c ∈ ["N"; "L"; "H"] ∧ i ∈ ["N"; "L"; "H"] ∧ a ∈ ["N"; "L"; "H"].
Proof.
  intros Hm. destruct (legal_metricsOf shapeV3 m NoDup_shapeV3 Hm) as [Hvals Heq].
  revert Hvals Heq. generalize (valuesOf shapeV3 m) as vals. intros vals Hvals Heq.
  pose proof (Forall2_length _ _ _ Hvals) as Hlen.
  do 9 (destruct vals as [|? vals]; try discriminate Hlen).
  unfold shapeV3 in Hvals.
  repeat match goal with H : Forall2 _ (_ :: _) (_ :: _) |- _ =>
           apply Forall2_cons_1 in H as [? H] end.
  simpl in *. do 8 eexists. by repeat split.
Qed.

Lemma legal_shapeV4_values (m : Metrics) :
  legal shapeV4 m →
  ∃ av ac at_ pr ui vc vi va sc si sa : string,
    m = metricsOf shapeV4.*1 [av; ac; at_; pr; ui; vc; vi; va; sc; si; sa]
    ∧ av ∈ ["N"; "A"; "L"; "P"] ∧ ac ∈ ["L"; "H"] ∧ at_ ∈ ["N"; "P"]
    ∧ pr ∈ ["N"; "L"; "H"] ∧ ui ∈ ["N"; "P"; "A"]
    ∧ vc ∈ ["N"; "L"; "H"] ∧ vi ∈ ["N"; "L"; "H"] ∧ va ∈ ["N"; "L"; "H"]
    ∧ sc ∈ ["N"; "L"; "H"] ∧ si ∈ ["N"; "L"; "H"] ∧ sa ∈ ["N"; "L"; "H"].
Proof.
  intros Hm. destruct (legal_metricsOf shapeV4 m NoDup_shapeV4 Hm) as [Hvals Heq].
  revert Hvals Heq. generalize (valuesOf shapeV4 m) as vals. intros vals Hvals Heq.
  pose proof (Forall2_length _ _ _ Hvals) as Hlen.
  do 12 (destruct vals as [|? vals]; try discriminate Hlen).
  unfold shapeV4 in Hvals.
  repeat match goal with H : Forall2 _ (_ :: _) (_ :: _) |- _ =>
           apply Forall2_cons_1 in H as [? H] end.
  simpl in *. do 11 eexists. by repeat split.
Qed.

(** ** The converter on metric sets given by their values *)

(** v3 to v4, for any eight values. *)
Lemma convertV3toV4_metricsOf (av ac pr ui s c i a : string) :
  (convertV3toV4 (metricsOf shapeV3.*1 [av; ac; pr; ui; s; c; i; a])).1
  = metricsOf shapeV4.*1
      [av; ac; "N"; pr; if String.eqb ui "N" then "N" else "P"; c; i; a;
       if String.eqb s "U" then "N" else c; if String.eqb s "U" then "N" else i;
       if String.eqb s "U" then "N" else a].
Proof.
  unfold convertV3toV4.
  change (metricsOf shapeV3.*1 [av; ac; pr; ui; s; c; i; a] !! "UI") with (Some ui).
  change (metricsOf shapeV3.*1 [av; ac; pr; ui; s; c; i; a] !! "S") with (Some s).
  cbn [JS.strict_eq].
  destruct (String.eqb ui "N"), (String.eqb s "U"); reflexivity.
Qed.

Lemma maxNLH_legal (x y : string) :
  x ∈ ["N"; "L"; "H"] → y ∈ ["N"; "L"; "H"] → Spec.maxNLH x y ∈ ["N"; "L"; "H"].
Proof. intros Hx Hy. unfold Spec.maxNLH. by destruct (_ <? _)%nat. Qed.

(** v4 to v3, for any values of the exploitability metrics and value
    codes of the six impacts. *)
Lemma convertV4toV3_metricsOf (av ac at_ pr ui vc vi va sc si sa : string) :
  vc ∈ ["N"; "L"; "H"] → vi ∈ ["N"; "L"; "H"] → va ∈ ["N"; "L"; "H"] →
  sc ∈ ["N"; "L"; "H"] → si ∈ ["N"; "L"; "H"] → sa ∈ ["N"; "L"; "H"] →
  (convertV4toV3 (metricsOf shapeV4.*1 [av; ac; at_; pr; ui; vc; vi; va; sc; si; sa])).1
  = metricsOf shapeV3.*1
      [av; ac; pr; if String.eqb ui "N" then "N" else "R";
       if negb (String.eqb sc "N") || negb (String.eqb si "N") || negb (String.eqb sa "N")
       then "C" else "U";
       Spec.maxNLH vc sc; Spec.maxNLH vi si; Spec.maxNLH va sa].
Proof.
  intros Hvc Hvi Hva Hsc Hsi Hsa. unfold convertV4toV3.
  set (m := metricsOf shapeV4.*1 [av; ac; at_; pr; ui; vc; vi; va; sc; si; sa]).
  change (m !! "UI") with (Some ui). change (m !! "VC") with (Some vc).
  change (m !! "VI") with (Some vi). change (m !! "VA") with (Some va).
  change (m !! "SC") with (Some sc). change (m !! "SI") with (Some si).
  change (m !! "SA") with (Some sa).
  rewrite !maxImpact_legal by done. cbn [JS.strict_eq].
  generalize (Spec.maxNLH vc sc) (Spec.maxNLH vi si) (Spec.maxNLH va sa). intros c i a.
  subst m.
  destruct (String.eqb ui "N"), (String.eqb sc "N"), (String.eqb si "N"), (String.eqb sa "N");
    reflexivity.
Qed.

(** What [convertVector] shows, by the version it starts from. *)
Lemma convertVector_v3 (m : Metrics) :
  fst (convertVector (mkState 3 m))
  = mkConversion (convertV3toV4 m).1 (convertV3toV4 m).2
      (generateVector (mkState 4 (convertV3toV4 m).1)).
Proof. unfold convertVector. simpl. by destruct (convertV3toV4 m). Qed.

Lemma convertVector_v4 (m : Metrics) :
  fst (convertVector (mkState 4 m))
  = mkConversion (convertV4toV3 m).1 (convertV4toV3 m).2
      (generateVector (mkState 3 (convertV4toV3 m).1)).
Proof. unfold convertVector. simpl. by destruct (convertV4toV3 m). Qed.

(** X5. Conversion stays within the legal metric sets: the metric set
    converted from a legal state is a legal metric set of the other
    version, the converted vector is the vector generated from it, and
    parsing the converted vector, from any state, gives it back. *)
Theorem conversion_of_legal_is_legal :
  ∀ st st0 : State,
    legalState st →
    let r := fst (convertVector st) in
    let target := mkState (if (currentVersion st =? 3)%Z then 4 else 3) (convertedMetrics r) in
    legalState target
    ∧ convertedVector r = generateVector target
    ∧ parseVector (convertedVector r) st0 = (target, None).
Proof.
  intros [version m] st0 Hst r target.
  assert (Hlegal : legalState target ∧ convertedVector r = generateVector target).
  { subst r target. destruct Hst as [[Hv Hm]|[Hv Hm]]; simpl in Hv, Hm; subst version.
    - rewrite convertVector_v3. simpl. split; [|done]. right. split; [done|]. simpl.
      destruct (legal_shapeV3_values m Hm)
        as (av & ac & pr & ui & s & c & i & a & -> & Hav & Hac & Hpr & Hui & Hs & Hc & Hi & Ha).
      rewrite convertV3toV4_metricsOf. apply metricsOf_legal.
      repeat (apply Forall2_cons; split; [simpl|]); try done; try apply Forall2_nil_2;
        try (destruct (String.eqb _ _); [by left|done]).
      + left.
      + destruct (String.eqb _ _); [left|right; left].
    - rewrite convertVector_v4. simpl. split; [|done]. left. split; [done|]. simpl.
      destruct (legal_shapeV4_values m Hm)
        as (av & ac & at_ & pr & ui & vc & vi & va & sc & si & sa & ->
            & Hav & Hac & Hat & Hpr & Hui & Hvc & Hvi & Hva & Hsc & Hsi & Hsa).
      rewrite convertV4toV3_metricsOf by done. apply metricsOf_legal.
      repeat (apply Forall2_cons; split; [simpl|]); try done; try apply Forall2_nil_2;
        try (by apply maxNLH_legal).
      + destruct (String.eqb _ _); [left|right; left].
      + destruct (_ || _); [right; left|left]. }
  destruct Hlegal as [Hlegal Hconv].
  split; [done|]. split; [done|]. rewrite Hconv. by apply parseVector_generateVector_legal.
Qed.

Lemma conversion_of_legal_is_legal_witness :
  convertedVector (fst (convertVector stateSubsequentHigh))
  = "CVSS:3.1/AV:N/AC:L/PR:N/UI:N/S:C/C:H/I:N/A:N"
  ∧ parseVector (convertedVector (fst (convertVector stateSubsequentHigh))) stateScenario1
    = (mkState 3 (convertedMetrics (fst (convertVector stateSubsequentHigh))), None).
Proof.
  split; [reflexivity|].
  apply (conversion_of_legal_is_legal stateSubsequentHigh stateScenario1).
  right. split; [reflexivity|]. apply metricsOf_legal. repeat constructor.
Defined.

(** X6. From v3 to v4 and back: converting a legal v3 metric set to v4
    and the result back to v3 gives the metric set one started from,
    except that Scope changed with no impact at all (C, I and A all N)
    comes back as Scope unchanged. *)
Theorem v3_to_v4_and_back :
  ∀ m : Metrics,
    legal shapeV3 m →
    let there := convertedMetrics (fst (convertVector (mkState 3 m))) in
    let back := convertedMetrics (fst (convertVector (mkState 4 there))) in
    let idle :=
      bool_decide (m !! "S" = Some "C" ∧ m !! "C" = Some "N"
                   ∧ m !! "I" = Some "N" ∧ m !! "A" = Some "N") in
    back = if idle then <["S":="U"]> m else m.
Proof.
  intros m Hm there back idle. subst there back idle.
  rewrite convertVector_v3. cbn [convertedMetrics]. rewrite convertVector_v4.
  cbn [convertedMetrics].
  destruct (legal_shapeV3_values m Hm)
    as (av & ac & pr & ui & s & c & i & a & -> & Hav & Hac & Hpr & Hui & Hs & Hc & Hi & Ha).
  rewrite convertV3toV4_metricsOf.
  rewrite convertV4toV3_metricsOf;
    try done; try (destruct (String.eqb s "U"); [by left|done]).
  change (metricsOf shapeV3.*1 [av; ac; pr; ui; s; c; i; a] !! "S") with (Some s).
  change (metricsOf shapeV3.*1 [av; ac; pr; ui; s; c; i; a] !! "C") with (Some c).
  change (metricsOf shapeV3.*1 [av; ac; pr; ui; s; c; i; a] !! "I") with (Some i).
  change (metricsOf shapeV3.*1 [av; ac; pr; ui; s; c; i; a] !! "A") with (Some a).
  clear Hm Hav Hac Hpr.
  cases_in Hui; cases_in Hs; cases_in Hc; cases_in Hi; cases_in Ha; reflexivity.
Qed.

Lemma v3_to_v4_and_back_witness :
  convertedMetrics (fst (convertVector (mkState 4
    (convertedMetrics (fst (convertVector stateScopeChanged))))))
  = currentMetrics stateScopeChanged.
Proof.
  apply (v3_to_v4_and_back (currentMetrics stateScopeChanged)).
  apply metricsOf_legal. repeat constructor.
Defined.

(** ** The score of a legal state *)

Lemma calculateCVSSv3Score_legal (Math_pow : float → float → float) (st : State) :
  pow_accurate Math_pow → legal shapeV3 (currentMetrics st) →
  calculateCVSSv3Score Math_pow st = Some (Q2double (Spec.scoreV3 (currentMetrics st))).
Proof.
  intros Hpow Hm. destruct st as [version m]. simpl in *.
  destruct (legal_shapeV3_values m Hm)
    as (av & ac & pr & ui & s & c & i & a & -> & Hav & Hac & Hpr & Hui & Hs & Hc & Hi & Ha).
  assert (Ht : (c, (i, a)) ∈ triads) by (by repeat apply elem_of_list_prod).
  assert (He : (av, (ac, (pr, ui))) ∈ exploitsV3) by (by repeat apply elem_of_list_prod).
  clear -Hpow Ht He Hs. cases_in Hs.
  - exact (scoreV3_unchanged Math_pow _ _ Ht He).
  - exact (scoreV3_changed Math_pow _ _ Hpow Ht He).
Qed.

Lemma calculateCVSSv4Score_legal (st : State) :
  legal shapeV4 (currentMetrics st) →
  calculateCVSSv4Score st = Q2double (Spec.scoreV4 (currentMetrics st)).
Proof.
  intros Hm. destruct st as [version m]. simpl in *.
  destruct (legal_shapeV4_values m Hm)
    as (av & ac & at_ & pr & ui & vc & vi & va & sc & si & sa & ->
        & Hav & Hac & Hat & Hpr & Hui & Hvc & Hvi & Hva & Hsc & Hsi & Hsa).
  assert (Hv : (vc, (vi, va)) ∈ triads) by (by repeat apply elem_of_list_prod).
  assert (Hs : (sc, (si, sa)) ∈ triads) by (by repeat apply elem_of_list_prod).
  assert (He : (av, (ac, (at_, (pr, ui)))) ∈ exploitsV4) by (by repeat apply elem_of_list_prod).
  destruct (max_triads _ _ Hv Hs) as (t & Ht & Hf & Hq).
  change (calculateCVSSv4Score _)
    with (v4Final (v4Exploitability (Some av) (Some ac) (Some at_) (Some pr) (Some ui))
            (JS.Math_max (triadF (vc, (vi, va))) (triadF (sc, (si, sa))))).
  rewrite Hf.
  pose proof (forallb_elem _ _ t (forallb_elem _ _ _ finalAgreesV4_true He) Ht) as H.
  cbv beta zeta in H. cbn [fst snd] in H. apply feqb_eq in H. rewrite H.
  f_equal. apply roundUp_Qeq. symmetry.
  change (Spec.BaseScoreV4 (Spec.ImpactV4 (Some vc) (Some vi) (Some va) (Some sc) (Some si) (Some sa))
            (Spec.ExploitabilityV4 (Some av) (Some ac) (Some at_) (Some pr) (Some ui))
          == Spec.BaseScoreV4 (6.42 * triadQ t)
               (Qred (Spec.ExploitabilityV4 (Some av) (Some ac) (Some at_) (Some pr) (Some ui))))%Q.
  unfold Spec.BaseScoreV4, Spec.ImpactV4.
  change (Spec.triadImpact (Some vc) (Some vi) (Some va)) with (triadQ (vc, (vi, va))).
  change (Spec.triadImpact (Some sc) (Some si) (Some sa)) with (triadQ (sc, (si, sa))).
  rewrite Hq, Qred_correct. reflexivity.
Qed.

(** Under an accurate [Math.pow], the score of a legal state is the
    double nearest to its exact score. *)
Lemma calculateScore_legal (Math_pow : float → float → float) (st : State) :
  pow_accurate Math_pow → legalState st →
  calculateScore Math_pow st = Some (Q2double (exactScore st)).
Proof.
  intros Hpow [[Hv Hm]|[Hv Hm]]; unfold calculateScore, exactScore; rewrite Hv; simpl.
  - by apply calculateCVSSv3Score_legal.
  - f_equal. by apply calculateCVSSv4Score_legal.
Qed.

(** The exact score of a legal state is a one-decimal number from 0 to 10. *)
Lemma exactScore_tenths (st : State) :
  ∃ n : Z, (0 <= n <= 100)%Z ∧ (exactScore st == n # 10)%Q.
Proof.
  unfold exactScore. destruct (_ =? _)%Z; [apply scoreV3_tenths|apply scoreV4_tenths].
Qed.

(** ** What the page shows of a legal state *)

Lemma numeralAgrees_true : forallb numeralAgrees (seqZ 0 101) = true.
Proof. vm_compute. reflexivity. Qed.

(** Below 10^21 the text of [toFixed(1)] does not depend on the engine. *)
Lemma Number_toFixed1_engine (T T' : float → string) (x : float) :
  (1e21 <=? abs x)%float = false → Widget.Number_toFixed1 T x = Widget.Number_toFixed1 T' x.
Proof. intros H. unfold Widget.Number_toFixed1. destruct (Prim2SF x); try done. by rewrite H. Qed.

Lemma Number_toFixed1_tenths (T : float → string) (n : Z) :
  (0 <= n <= 100)%Z → Widget.Number_toFixed1 T (Q2double (n # 10)) = oneDecimal (n # 10).
Proof.
  intros Hn.
  assert (H : numeralAgrees n = true).
  { apply (forallb_elem numeralAgrees (seqZ 0 101)); [exact numeralAgrees_true|].
    apply elem_of_seqZ. lia. }
  apply andb_true_iff in H as [Hsmall Htext]. apply negb_true_iff in Hsmall.
  apply String.eqb_eq in Htext. rewrite <-Htext. by apply Number_toFixed1_engine.
Qed.

Lemma oneDecimal_Qeq (p q : Q) : (p == q)%Q → oneDecimal p = oneDecimal q.
Proof. intros H. unfold oneDecimal. by rewrite H. Qed.

Lemma severity_Qeq (p q : Q) : (p == q)%Q → Spec.severity p = Spec.severity q.
Proof.
  intros H. unfold Spec.severity.
  assert (Qeq_bool p 0 = Qeq_bool q 0) as ->.
  { apply eq_true_iff_eq. rewrite !Qeq_bool_iff. by rewrite H. }
  assert (E : ∀ k : Q, Qle_bool k p = Qle_bool k q).
  { intros k. apply eq_true_iff_eq. rewrite !Qle_bool_iff. by rewrite H. }
  by rewrite !E.
Qed.

(** X7. What the page shows of a legal state: under an accurate
    [Math.pow], [updateUI] returns, both vector fields hold the vector
    generated from the state, the score field holds the numeral, with
    one decimal, of the exact score of the state (a number from 0.0 to
    10.0), the severity field and class hold the rating of that exact
    score, the results are on show and the conversion result is hidden. *)
Theorem page_of_legal_state :
  ∀ (Math_pow : float → float → float) (Number_toString : float → string)
    (st : State) (pg : Widget.Page),
    pow_accurate Math_pow → legalState st →
    ∃ pg' : Widget.Page,
      Widget.updateUI Math_pow Number_toString st pg = (pg', Returned)
      ∧ Widget.vector_string pg' = generateVector st
      ∧ Widget.current_vector pg' = generateVector st
      ∧ Widget.score_display pg' = oneDecimal (exactScore st)
      ∧ Widget.severity_display pg' = Spec.severity (exactScore st)
      ∧ Widget.severity_display_className pg'
        = ("severity-display " ++ String_toLowerCase (Spec.severity (exactScore st)))%string
      ∧ Widget.results_section pg' = "block"
      ∧ Widget.conversion_result pg' = "none"
      ∧ ∃ n : Z, (0 <= n <= 100)%Z ∧ (exactScore st == n # 10)%Q.
Proof.
  intros Math_pow Number_toString st pg Hpow Hst.
  destruct (exactScore_tenths st) as (n & Hn & Hq).
  unfold Widget.updateUI. rewrite (calculateScore_legal Math_pow st Hpow Hst).
  rewrite (Q2double_Qeq _ _ Hq), (Number_toFixed1_tenths _ n Hn), (getSeverity_tenths n Hn).
  rewrite <-(oneDecimal_Qeq _ _ Hq), <-(severity_Qeq _ _ Hq).
  eexists. split; [reflexivity|]. cbn. repeat split; try done. by exists n.
Qed.

Lemma page_of_legal_state_witness :
  ∃ pg' : Widget.Page,
    Widget.updateUI (λ x _, pow15 x) (λ _, "") stateScenario1 blankPage = (pg', Returned)
    ∧ Widget.score_display pg' = "9.8"
    ∧ Widget.severity_display pg' = "Critical"
    ∧ Widget.severity_display_className pg' = "severity-display critical".
Proof.
  destruct (page_of_legal_state (λ x _, pow15 x) (λ _, "") stateScenario1 blankPage
              pow15_accurate)
    as (pg' & Hrun & _ & _ & Hscore & Hseverity & Hclass & _).
  { left. split; [reflexivity|]. apply metricsOf_legal. repeat constructor. }
  exists pg'. split; [exact Hrun|]. rewrite Hscore, Hseverity, Hclass.
  repeat split; vm_compute; reflexivity.
Defined.

(** ** The clear button *)

Lemma calculateScore_defaults (Math_pow : float → float → float) (version : Z) (st : State) :
  calculateScore Math_pow (switchVersion version st)
  = Some (if (version =? 3)%Z then 0 else 3.9)%float.
Proof.
  unfold calculateScore, switchVersion. simpl.
  destruct (version =? 3)%Z; vm_compute; reflexivity.
Qed.

(** X8. The clear button leaves the defaults of v3 whatever the version.
    While v3 is current that is a legal state, shown as the default
    vector (also in the input field, which is not left empty) with score
    0.0 and severity None.  Under any other version the v4 vector is
    read off the v3 defaults: seven metrics show as undefined, the score
    shows as NaN and the severity as Critical. *)
Theorem clear_leaves_v3_defaults :
  ∀ (Math_pow : float → float → float) (Number_toString : float → string)
    (st : State) (pg : Widget.Page),
    let r := Widget.clearAll Math_pow Number_toString st pg in
    Widget.state r = clearAll st
    ∧ Widget.state r = mkState (currentVersion st) defaultMetricsV3
    ∧ Widget.outcome r = Returned
    ∧ Widget.conversion_result (Widget.page r) = "none"
    ∧ Widget.vector_string (Widget.page r) = Widget.current_vector (Widget.page r)
    ∧ (currentVersion st = 3%Z →
         legalState (Widget.state r)
         ∧ Widget.vector_string (Widget.page r) = defaultVectorV3
         ∧ Widget.score_display (Widget.page r) = "0.0"
         ∧ Widget.severity_display (Widget.page r) = "None")
    ∧ (currentVersion st ≠ 3%Z →
         Widget.vector_string (Widget.page r) = undefinedVectorV4
         ∧ Widget.score_display (Widget.page r) = "NaN"
         ∧ Widget.severity_display (Widget.page r) = "Critical"
         ∧ Widget.severity_display_className (Widget.page r) = "severity-display critical").
Proof.
  intros Math_pow Number_toString [version m] pg r. subst r.
  unfold Widget.clearAll, Widget.initializeDefaultMetrics, Widget.updateUI, calculateScore.
  cbn [currentVersion currentMetrics].
  destruct (Z.eqb_spec version 3) as [->|Hne].
  - assert (calculateCVSSv3Score Math_pow (mkState 3 defaultMetricsV3) = Some 0%float) as ->
      by (vm_compute; reflexivity).
    cbn. repeat split; try done. left. split; [done|exact legal_defaultMetricsV3].
  - assert (calculateCVSSv4Score (mkState version defaultMetricsV3) = nan) as ->
      by (vm_compute; reflexivity).
    assert (generateVector (mkState version defaultMetricsV3) = undefinedVectorV4) as ->.
    { unfold generateVector. cbn [currentVersion currentMetrics].
      apply Z.eqb_neq in Hne. rewrite Hne. reflexivity. }
    cbn. repeat split; done.
Qed.

(** ** The convert button *)

Lemma warnings_not_empty (st : State) : (0 <? length (warnings (fst (convertVector st))))%nat = true.
Proof.
  unfold convertVector, convertV3toV4, convertV4toV3.
  destruct (currentVersion st =? 3)%Z;
    repeat match goal with |- context [JS.strict_eq ?a ?b] => destruct (JS.strict_eq a b) end;
    reflexivity.
Qed.

Lemma switchVersion_on_page (Math_pow : float → float → float) (Number_toString : float → string)
    (version : Z) (st : State) (pg : Widget.Page) :
  let r := Widget.switchVersion Math_pow Number_toString version st pg in
  Widget.state r = switchVersion version st
  ∧ Widget.outcome r = Returned
  ∧ Widget.vector_string (Widget.page r) = generateVector (switchVersion version st)
  ∧ Widget.current_vector (Widget.page r) = generateVector (switchVersion version st)
  ∧ Widget.conversion_result (Widget.page r) = "none"
  ∧ Widget.converted_vector (Widget.page r) = Widget.converted_vector pg
  ∧ Widget.conversion_warning (Widget.page r) = Widget.conversion_warning pg
  ∧ Widget.score_display (Widget.page r) = (if (version =? 3)%Z then "0.0" else "3.9")
  ∧ Widget.severity_display (Widget.page r) = (if (version =? 3)%Z then "None" else "Low").
Proof.
  unfold Widget.switchVersion, Widget.updateUI.
  change {| currentVersion := version;
            currentMetrics := if (version =? 3)%Z then defaultMetricsV3 else defaultMetricsV4 |}
    with (switchVersion version st).
  rewrite calculateScore_defaults. cbn. repeat split; try done.
  - destruct (version =? 3)%Z; vm_compute; reflexivity.
  - by destruct (version =? 3)%Z.
Qed.

(** X9. The convert button hides what it has just shown and drops the
    selection.  For any state and page, [convertVector] returns, having
    written the converted vector and a list of notes that is never
    empty; but its closing call of [switchVersion] leaves the conversion
    result hidden, the defaults of the target version as the current
    metrics, and the default vector of the target version in both
    vector fields. *)
Theorem convert_hides_its_result :
  ∀ (Math_pow : float → float → float) (Number_toString : float → string)
    (st : State) (pg : Widget.Page),
    let r := Widget.convertVector Math_pow Number_toString st pg in
    let v3 := (currentVersion st =? 3)%Z in
    Widget.outcome r = Returned
    ∧ Widget.converted_vector (Widget.page r) = convertedVector (fst (convertVector st))
    ∧ Widget.conversion_warning (Widget.page r) = Some (warnings (fst (convertVector st)))
    ∧ warnings (fst (convertVector st)) ≠ []
    ∧ Widget.conversion_result (Widget.page r) = "none"
    ∧ Widget.state r = snd (convertVector st)
    ∧ Widget.state r = mkState (if v3 then 4 else 3) (if v3 then defaultMetricsV4 else defaultMetricsV3)
    ∧ Widget.vector_string (Widget.page r) = (if v3 then defaultVectorV4 else defaultVectorV3)
    ∧ Widget.current_vector (Widget.page r) = (if v3 then defaultVectorV4 else defaultVectorV3).
Proof.
  intros Math_pow Number_toString st pg r v3. subst r v3.
  pose proof (warnings_not_empty st) as Hw.
  rewrite convertVector_state.
  unfold Widget.convertVector. unfold convertVector in Hw |- *.
  destruct (if (currentVersion st =? 3)%Z then convertV3toV4 (currentMetrics st)
            else convertV4toV3 (currentMetrics st)) as [cm w] eqn:E.
  cbn [fst convertedVector warnings] in *. rewrite Hw.
  match goal with |- context [Widget.switchVersion _ _ ?v ?s ?p] =>
    destruct (switchVersion_on_page Math_pow Number_toString v s p)
      as (Hst & Ho & Hvs & Hcv & Hcr & Hcd & Hcw & _) end.
  rewrite Ho, Hst, Hvs, Hcv, Hcr, Hcd, Hcw. cbn.
  repeat split; try done; try (by destruct (currentVersion st =? 3)%Z).
  by intros ->.
Qed.

(** ** The parse button *)

Lemma updateUI_cases (Math_pow : float → float → float) (Number_toString : float → string)
    (st : State) (pg : Widget.Page) :
  let r := Widget.updateUI Math_pow Number_toString st pg in
  Widget.vector_string r.1 = generateVector st
  ∧ Widget.current_vector r.1 = generateVector st
  ∧ match calculateScore Math_pow st with
    | Some score =>
        r.2 = Returned
        ∧ Widget.score_display r.1 = Widget.Number_toFixed1 Number_toString score
        ∧ Widget.severity_display r.1 = getSeverity score
    | None =>
        r.2 = Thrown
        ∧ Widget.score_display r.1 = Widget.score_display pg
        ∧ Widget.severity_display r.1 = Widget.severity_display pg
        ∧ Widget.severity_display_className r.1 = Widget.severity_display_className pg
    end.
Proof. unfold Widget.updateUI. by destruct (calculateScore Math_pow st). Qed.

(** X10. The parse button, on the page.  What [parseVector] makes of the
    text of the input field is what it makes of the globals: the same
    state and the same alert.  It is left by a TypeError exactly when
    the parse succeeded and the score of the new state throws.  A parse
    that alerts without changing the state leaves the page as it was;
    whenever the state changed or the parse succeeded, both vector
    fields hold the vector generated from the state that was left, so a
    vector of the other version that misses a metric is replaced, in
    the input field, by the default vector of that version. *)
Theorem parse_on_page :
  ∀ (Math_pow : float → float → float) (Number_toString : float → string)
    (st : State) (pg : Widget.Page),
    let text := Widget.vector_string pg in
    let r := Widget.parseVector Math_pow Number_toString st pg in
    Widget.state r = fst (parseVector text st)
    ∧ (∀ message : string,
         Widget.outcome r = Alerted message ↔ snd (parseVector text st) = Some message)
    ∧ (Widget.outcome r = Thrown ↔
         snd (parseVector text st) = None ∧ calculateScore Math_pow (Widget.state r) = None)
    ∧ (Widget.state r = st → is_Some (snd (parseVector text st)) → Widget.page r = pg)
    ∧ (Widget.state r ≠ st ∨ snd (parseVector text st) = None →
         Widget.vector_string (Widget.page r) = generateVector (Widget.state r)
         ∧ Widget.current_vector (Widget.page r) = generateVector (Widget.state r)).
Proof.
  intros Math_pow Number_toString st pg text r. subst text r.
  unfold Widget.parseVector, parseVector. cbv zeta.
  destruct (String.eqb (JS.trim (Widget.vector_string pg)) ""); cbn [Widget.state Widget.outcome Widget.page fst snd].
  { outcome_facts. }
  destruct (versionOf (JS.trim (Widget.vector_string pg))) as [version|];
    cbn [Widget.state Widget.outcome Widget.page fst snd].
  2: { outcome_facts. }
  set (newMetrics := extractMetrics (JS.split "/" (JS.trim (Widget.vector_string pg)))).
  destruct (Z.eqb_spec version (currentVersion st)) as [->|Hne]; cbn [negb].
  - cbn [Widget.state Widget.outcome Widget.page].
    destruct (firstMissing (required (currentVersion st)) newMetrics) as [metric|];
      cbn [Widget.state Widget.outcome Widget.page fst snd].
    { outcome_facts. }
    pose proof (updateUI_cases Math_pow Number_toString
                  (mkState (currentVersion st) newMetrics) pg) as (Hvs & Hcv & Hscore).
    destruct (Widget.updateUI Math_pow Number_toString
                (mkState (currentVersion st) newMetrics) pg) as [pg2 o].
    cbn [Widget.state Widget.outcome Widget.page fst snd] in *.
    destruct (calculateScore Math_pow (mkState (currentVersion st) newMetrics));
      destruct Hscore as [-> _]; outcome_facts.
  - match goal with |- context [Widget.switchVersion _ _ ?v ?s ?p] =>
      destruct (switchVersion_on_page Math_pow Number_toString v s p)
        as (Hst & Ho & Hvs & Hcv & _);
      destruct (Widget.switchVersion Math_pow Number_toString v s p) as [st1 pg1 o1] end.
    cbn [Widget.state Widget.outcome Widget.page] in *. subst st1 o1.
    assert (Hchanged : ∀ m, mkState version m ≠ st).
    { intros m E. apply Hne. by rewrite <-E. }
    destruct (firstMissing (required version) newMetrics) as [metric|];
      cbn [Widget.state Widget.outcome Widget.page fst snd].
    { outcome_facts. intros E. by apply Hchanged in E. }
    cbn [switchVersion currentVersion].
    pose proof (updateUI_cases Math_pow Number_toString (mkState version newMetrics) pg1)
      as (Hvs2 & Hcv2 & Hscore).
    destruct (Widget.updateUI Math_pow Number_toString (mkState version newMetrics) pg1)
      as [pg2 o].
    cbn [Widget.state Widget.outcome Widget.page fst snd] in *.
    destruct (calculateScore Math_pow (mkState version newMetrics));
      destruct Hscore as [-> _]; outcome_facts.
Qed.

Lemma lookup_PR_unknown (pr : string) :
  pr ∉ ["N"; "L"; "H"] → CVSS3_WEIGHTS.PR !! pr = None.
Proof.
  intros H. repeat (apply not_elem_of_cons in H as [? H]).
  unfold CVSS3_WEIGHTS.PR. by rewrite !lookup_insert_ne, lookup_empty.
Qed.

(** What the switch to v3 shows of its defaults. *)
Lemma switchVersion_3_display (Math_pow : float → float → float)
    (Number_toString : float → string) (st : State) (pg : Widget.Page) :
  let r := Widget.switchVersion Math_pow Number_toString 3 st pg in
  Widget.state r = switchVersion 3 st
  ∧ Widget.outcome r = Returned
  ∧ Widget.score_display (Widget.page r) = "0.0"
  ∧ Widget.severity_display (Widget.page r) = "None"
  ∧ Widget.severity_display_className (Widget.page r) = "severity-display none".
Proof. repeat split; vm_compute; reflexivity. Qed.

(** X11. A v3 vector whose PR value is not N, L or H (nor the name of an
    inherited property) is parsed without an alert, but then the score
    computation throws a TypeError: the new metrics are stored and both
    vector fields show the new vector, while the score, the severity and
    its class are not rewritten.  If v3 was current they are left as
    they were, those of the state before; if another version was
    current they are those of the v3 defaults (0.0, None), written by
    the switch of version before the metrics were stored. *)
Theorem unknown_PR_half_updates_page :
  ∀ (Math_pow : float → float → float) (Number_toString : float → string)
    (st st' : State) (pg : Widget.Page) (pr : string),
    parseVector (Widget.vector_string pg) st = (st', None) →
    currentVersion st' = 3%Z →
    currentMetrics st' !! "PR" = Some pr →
    pr ∉ ["N"; "L"; "H"] → pr ∉ Object_prototype_names →
    let r := Widget.parseVector Math_pow Number_toString st pg in
    let v3 := (currentVersion st =? 3)%Z in
    Widget.outcome r = Thrown
    ∧ Widget.state r = st'
    ∧ Widget.vector_string (Widget.page r) = generateVector st'
    ∧ Widget.current_vector (Widget.page r) = generateVector st'
    ∧ Widget.score_display (Widget.page r)
      = (if v3 then Widget.score_display pg else "0.0")
    ∧ Widget.severity_display (Widget.page r)
      = (if v3 then Widget.severity_display pg else "None")
    ∧ Widget.severity_display_className (Widget.page r)
      = (if v3 then Widget.severity_display_className pg else "severity-display none").
Proof.
  intros Math_pow Number_toString st st' pg pr Hparse Hv' Hpr Hunknown _ r v3. subst r v3.
  unfold Widget.parseVector. unfold parseVector in Hparse. cbv zeta in Hparse |- *.
  destruct (String.eqb (JS.trim (Widget.vector_string pg)) ""); [discriminate Hparse|].
  destruct (versionOf (JS.trim (Widget.vector_string pg))) as [version|]; [|discriminate Hparse].
  destruct (firstMissing _ _) eqn:Hmissing; [discriminate Hparse|].
  injection Hparse as <-. cbn [currentVersion currentMetrics] in Hv', Hpr.
  assert (version = 3%Z) as ->.
  { destruct (Z.eqb_spec version (currentVersion st)) as [?|?]; cbn [negb] in Hv';
      [congruence|exact Hv']. }
  clear Hv'. set (newMetrics := extractMetrics _) in *.
  assert (Hscore : calculateScore Math_pow (mkState 3 newMetrics) = None).
  { unfold calculateScore, calculateCVSSv3Score, v3Score.
    cbn [currentVersion currentMetrics Z.eqb Pos.eqb].
    rewrite Hpr. unfold JS.get. cbn [JS.ToPropertyKey].
    by rewrite lookup_PR_unknown. }
  rewrite (Z.eqb_sym 3 (currentVersion st)).
  destruct (Z.eqb_spec (currentVersion st) 3) as [Hv|Hv]; cbn [negb].
  - cbn [Widget.outcome Widget.state Widget.page]. rewrite ?Hv.
    pose proof (updateUI_cases Math_pow Number_toString (mkState 3 newMetrics) pg)
      as (Hvs & Hcv & H).
    rewrite Hscore in H. destruct H as (Ho & Hsd & Hsev & Hcls).
    destruct (Widget.updateUI Math_pow Number_toString (mkState 3 newMetrics) pg) as [pg2 o].
    cbn [fst snd Widget.outcome Widget.state Widget.page] in *. by subst o.
  - destruct (switchVersion_3_display Math_pow Number_toString st pg)
      as (Hst & Ho & Hsd1 & Hsev1 & Hcls1).
    destruct (Widget.switchVersion Math_pow Number_toString 3 st pg) as [st1 pg1 o1].
    cbn [Widget.outcome Widget.state Widget.page] in *. subst st1 o1.
    cbn [switchVersion currentVersion].
    pose proof (updateUI_cases Math_pow Number_toString (mkState 3 newMetrics) pg1)
      as (Hvs & Hcv & H).
    rewrite Hscore in H. destruct H as (Ho & Hsd & Hsev & Hcls).
    destruct (Widget.updateUI Math_pow Number_toString (mkState 3 newMetrics) pg1) as [pg2 o].
    cbn [fst snd Widget.outcome Widget.state Widget.page] in *. subst o.
    by rewrite Hsd, Hsev, Hcls, Hsd1, Hsev1, Hcls1.
Qed.

Lemma unknown_PR_half_updates_page_witness :
  let r := Widget.parseVector (λ x _, pow15 x) (λ _, "") stateScenario1 pageIllegalPR in
  let r4 := Widget.parseVector (λ x _, pow15 x) (λ _, "") (mkState 4 defaultMetricsV4)
              pageIllegalPRv4 in
  (Widget.outcome r = Thrown
   ∧ currentMetrics (Widget.state r) !! "PR" = Some "X"
   ∧ Widget.current_vector (Widget.page r) = vectorIllegalPR
   ∧ Widget.score_display (Widget.page r) = "9.8"
   ∧ Widget.severity_display (Widget.page r) = "Critical")
  ∧ (Widget.outcome r4 = Thrown
     ∧ currentMetrics (Widget.state r4) !! "PR" = Some "X"
     ∧ Widget.current_vector (Widget.page r4) = vectorIllegalPR
     ∧ Widget.score_display (Widget.page r4) = "0.0"
     ∧ Widget.severity_display (Widget.page r4) = "None").
Proof.
  intros r r4. split.
  - destruct (unknown_PR_half_updates_page (λ x _, pow15 x) (λ _, "") stateScenario1
                (fst (parseVector vectorIllegalPR stateScenario1)) pageIllegalPR "X")
      as (Ho & Hst & _ & Hcv & Hsd & Hsev & _);
      [reflexivity..| | |].
    + apply (bool_decide_unpack _). vm_compute. exact I.
    + apply (bool_decide_unpack _). vm_compute. exact I.
    + subst r. rewrite Ho, Hst, Hcv, Hsd, Hsev. repeat split; reflexivity.
  - destruct (unknown_PR_half_updates_page (λ x _, pow15 x) (λ _, "")
                (mkState 4 defaultMetricsV4)
                (fst (parseVector vectorIllegalPR (mkState 4 defaultMetricsV4)))
                pageIllegalPRv4 "X")
      as (Ho & Hst & _ & Hcv & Hsd & Hsev & _);
      [reflexivity..| | |].
    + apply (bool_decide_unpack _). vm_compute. exact I.
    + apply (bool_decide_unpack _). vm_compute. exact I.
    + subst r4. rewrite Ho, Hst, Hcv, Hsd, Hsev. repeat split; reflexivity.
Defined.

(** ** The score across the conversion *)

Lemma exploitabilityKept_true : forallb exploitabilityKept exploitsUN = true.
Proof. vm_compute. reflexivity. Qed.

Lemma impactKept_true : forallb impactKept triads = true.
Proof. vm_compute. reflexivity. Qed.

(** X12. Converting keeps the score of a v3 state with Scope unchanged,
    no user interaction and some impact: the v4 score of the converted
    metric set is the v3 score of the metric set one started from,
    whatever [Math.pow] does. *)
Theorem conversion_keeps_score :
  ∀ (Math_pow : float → float → float) (st : State),
    currentVersion st = 3%Z → legal shapeV3 (currentMetrics st) →
    currentMetrics st !! "S" = Some "U" → currentMetrics st !! "UI" = Some "N" →
    (currentMetrics st !! "C", currentMetrics st !! "I", currentMetrics st !! "A")
      ≠ (Some "N", Some "N", Some "N") →
    calculateCVSSv3Score Math_pow st
    = Some (calculateCVSSv4Score (mkState 4 (convertedMetrics (fst (convertVector st))))).
Proof.
  intros Math_pow [version m] Hv Hm Hs Hui Himpact. simpl in *. subst version.
  rewrite convertVector_v3. cbn [convertedMetrics].
  destruct (legal_shapeV3_values m Hm)
    as (av & ac & pr & ui & s & c & i & a & -> & Hav & Hac & Hpr & _ & _ & Hc & Hi & Ha).
  change (metricsOf shapeV3.*1 [av; ac; pr; ui; s; c; i; a] !! "S") with (Some s) in Hs.
  change (metricsOf shapeV3.*1 [av; ac; pr; ui; s; c; i; a] !! "UI") with (Some ui) in Hui.
  injection Hs as ->. injection Hui as ->.
  change (metricsOf shapeV3.*1 [av; ac; pr; "N"; "U"; c; i; a] !! "C") with (Some c) in Himpact.
  change (metricsOf shapeV3.*1 [av; ac; pr; "N"; "U"; c; i; a] !! "I") with (Some i) in Himpact.
  change (metricsOf shapeV3.*1 [av; ac; pr; "N"; "U"; c; i; a] !! "A") with (Some a) in Himpact.
  rewrite convertV3toV4_metricsOf. cbn [String.eqb Ascii.eqb Bool.eqb].
  change (calculateCVSSv4Score _)
    with (v4Final (v4Exploitability (Some av) (Some ac) (Some "N") (Some pr) (Some "N"))
            (JS.Math_max (triadF (c, (i, a))) (triadF ("N", ("N", "N"))))).
  change (calculateCVSSv3Score Math_pow _)
    with (v3Score Math_pow (Some av) (Some ac) (Some pr) (Some "N") (Some "U")
            (Some c) (Some i) (Some a)).
  rewrite v3Score_decompose.
  assert (Ht : (c, (i, a)) ∈ triads) by (by repeat apply elem_of_list_prod).
  assert (He : (av, (ac, pr)) ∈ exploitsUN) by (by repeat apply elem_of_list_prod).
  pose proof (forallb_elem _ _ _ exploitabilityKept_true He) as H1.
  unfold exploitabilityKept in H1. cbn [fst snd] in H1.
  pose proof (forallb_elem _ _ _ impactKept_true Ht) as H2. unfold impactKept in H2.
  destruct (v3Exploitability _ _ _ _ _) as [ef|]; [|discriminate H1].
  apply feqb_eq in H1. apply andb_true_iff in H2 as [H2 H3]. apply feqb_eq in H2.
  rewrite <-H1, H2. f_equal. unfold v4Final. f_equal.
  apply orb_true_iff in H3 as [H3|H3].
  - apply bool_decide_eq_true in H3. injection H3 as -> -> ->. by destruct Himpact.
  - apply negb_true_iff in H3. unfold v3Base. cbn [JS.strict_eq String.eqb Ascii.eqb Bool.eqb].
    change (v3ISS (Some c) (Some i) (Some a)) with (issF (c, (i, a))). by rewrite H3.
Qed.

Lemma conversion_keeps_score_witness :
  calculateCVSSv3Score (λ _ _, nan) stateScenario1
  = Some (calculateCVSSv4Score (mkState 4 (convertedMetrics (fst (convertVector stateScenario1)))))
  ∧ calculateCVSSv3Score (λ _ _, nan) stateScenario1 = Some 9.8%float.
Proof.
  split; [|vm_compute; reflexivity].
  apply conversion_keeps_score; try reflexivity.
  - apply metricsOf_legal. repeat constructor.
  - vm_compute. discriminate.
Defined.

(** ** Scores of no impact *)

Lemma impactSign_true : forallb impactSign triads = true.
Proof. vm_compute. reflexivity. Qed.

Lemma exploitabilityV4Positive_true : forallb exploitabilityV4Positive exploitsV4 = true.
Proof. vm_compute. reflexivity. Qed.

Lemma tenthPositive_true : forallb tenthPositive (seqZ 1 100) = true.
Proof. vm_compute. reflexivity. Qed.

Lemma Qle_bool_false (x y : Q) : Qle_bool x y = false ↔ (y < x)%Q.
Proof.
  split.
  - intros H. apply Qnot_le_lt. rewrite <-Qle_bool_iff. congruence.
  - intros H. apply not_true_is_false. rewrite Qle_bool_iff. by apply Qlt_not_le.
Qed.

(** The sign of the exact v3 impact. *)
Lemma ImpactV3_sign (s : string) (t : string * (string * string)) :
  s ∈ ["U"; "C"] → t ∈ triads →
  if bool_decide (t = ("N", ("N", "N")))
  then (Spec.ImpactV3 (Some s) (issQ t) <= 0)%Q
  else (0 < Spec.ImpactV3 (Some s) (issQ t))%Q.
Proof.
  intros Hs Ht. pose proof (forallb_elem _ _ t impactSign_true Ht) as H. unfold impactSign in H.
  cases_in Hs.
  - change (Spec.ImpactV3 (Some "U") (issQ t)) with (6.42 * issQ t)%Q.
    destruct (bool_decide (t = ("N", ("N", "N"))));
      apply andb_true_iff in H as [H _].
    + by apply Qle_bool_iff.
    + by apply Qle_bool_false, negb_true_iff.
  - destruct (impactC_enclosed t) as [Hlo Hhi]. revert H Hlo Hhi.
    generalize (impactLoC t) (impactHiC t) (Spec.ImpactV3 (Some "C") (issQ t))
               (6.42 * issQ t)%Q.
    intros lo hi impact x H Hlo Hhi.
    destruct (bool_decide (t = ("N", ("N", "N"))));
      apply andb_true_iff in H as [_ H].
    + apply Qle_bool_iff in H. lra.
    + apply negb_true_iff, Qle_bool_false in H. lra.
Qed.

Lemma roundUp_tenths_positive (x : Q) :
  (0 < x)%Q → (x <= 10)%Q →
  ∃ n : Z, (1 <= n <= 100)%Z ∧ (Spec.roundUp x == n # 10)%Q.
Proof.
  intros H0 H10. exists (Qceiling (x * 10)). split.
  - split.
    + pose proof (Qle_ceiling (x * 10)) as Hc.
      assert (Hpos : (0 < inject_Z (Qceiling (x * 10)))%Q) by lra.
      unfold Qlt in Hpos. simpl in Hpos. lia.
    + change 100%Z with (Qceiling 100). apply Qceiling_resp_le. lra.
  - unfold Spec.roundUp. rewrite (Qmake_Qdiv (Qceiling (x * 10)) 10). reflexivity.
Qed.

(** The double and the rating of a one-decimal score from 0.1 on. *)
Lemma tenths_positive (n : Z) :
  (1 <= n <= 100)%Z →
  (0.1 <=? Q2double (n # 10))%float = true ∧ getSeverity (Q2double (n # 10)) ∈ ratings.
Proof.
  intros Hn. split.
  - apply (forallb_elem tenthPositive (seqZ 1 100)); [exact tenthPositive_true|].
    apply elem_of_seqZ. lia.
  - rewrite getSeverity_tenths by lia. unfold Spec.severity.
    assert (Qeq_bool (n # 10) 0 = false) as ->.
    { apply not_true_is_false. rewrite Qeq_bool_iff. unfold Qeq. simpl. lia. }
    unfold ratings.
    repeat match goal with |- context [Qle_bool ?a ?b] => destruct (Qle_bool a b) end;
      apply list_elem_of_In; simpl; tauto.
Qed.

(** X13. A legal v3 state scores zero exactly when it has no impact:
    under an accurate [Math.pow], with C, I and A all N the score is 0
    and the rating None, under either scope and whatever the other
    metrics are; with any impact the score is at least 0.1 and the rating
    is Low, Medium, High or Critical. *)
Theorem v3_zero_iff_no_impact :
  ∀ (Math_pow : float → float → float) (st : State),
    pow_accurate Math_pow → legal shapeV3 (currentMetrics st) →
    let m := currentMetrics st in
    ∃ score : float,
      calculateCVSSv3Score Math_pow st = Some score
      ∧ ((m !! "C", m !! "I", m !! "A") = (Some "N", Some "N", Some "N") →
           score = 0%float ∧ getSeverity score = "None")
      ∧ ((m !! "C", m !! "I", m !! "A") ≠ (Some "N", Some "N", Some "N") →
           (0.1 <=? score)%float = true ∧ getSeverity score ∈ ratings).
Proof.
  intros Math_pow st Hpow Hm m. subst m.
  rewrite (calculateCVSSv3Score_legal Math_pow st Hpow Hm). eexists. split; [reflexivity|].
  destruct st as [version m]. cbn [currentMetrics] in *.
  destruct (legal_shapeV3_values m Hm)
    as (av & ac & pr & ui & s & c & i & a & -> & Hav & Hac & Hpr & Hui & Hs & Hc & Hi & Ha).
  set (m := metricsOf shapeV3.*1 [av; ac; pr; ui; s; c; i; a]).
  change (m !! "C") with (Some c). change (m !! "I") with (Some i).
  change (m !! "A") with (Some a).
  assert (Ht : (c, (i, a)) ∈ triads) by (by repeat apply elem_of_list_prod).
  pose proof (ImpactV3_sign s _ Hs Ht) as Hsign.
  change (Spec.scoreV3 m)
    with (Spec.roundUp (Spec.BaseScoreV3 (Some s) (Spec.ImpactV3 (Some s) (issQ (c, (i, a))))
            (Spec.ExploitabilityV3 (Some av) (Some ac) (Some pr) (Some ui) (Some s)))).
  pose proof (ExploitabilityV3_nonneg (Some av) (Some ac) (Some pr) (Some ui) (Some s)) as He.
  revert Hsign He.
  generalize (Spec.ImpactV3 (Some s) (issQ (c, (i, a))))
             (Spec.ExploitabilityV3 (Some av) (Some ac) (Some pr) (Some ui) (Some s)).
  intros impact e Hsign He. clear m.
  split.
  - intros [= -> -> ->]. rewrite bool_decide_eq_true_2 in Hsign by done.
    unfold Spec.BaseScoreV3. apply Qle_bool_iff in Hsign. rewrite Hsign.
    split; reflexivity.
  - intros Hne. rewrite bool_decide_eq_false_2 in Hsign by congruence.
    destruct (BaseScoreV3_range (Some s) impact e) as [_ H10]; [done|].
    assert (Hpos : (0 < Spec.BaseScoreV3 (Some s) impact e)%Q).
    { unfold Spec.BaseScoreV3.
      assert (Qle_bool impact 0 = false) as -> by (by apply Qle_bool_false).
      destruct (Spec.isCode (Some s) "U"); apply Q.min_glb_lt; try reflexivity; lra. }
    destruct (roundUp_tenths_positive _ Hpos H10) as (n & Hn & Hq).
    rewrite (Q2double_Qeq _ _ Hq). by apply tenths_positive.
Qed.

Lemma v3_zero_iff_no_impact_witness :
  ∃ score : float,
    calculateCVSSv3Score (λ x _, pow15 x) (mkState 3 defaultMetricsV3) = Some score
    ∧ score = 0%float ∧ getSeverity score = "None".
Proof.
  destruct (v3_zero_iff_no_impact (λ x _, pow15 x) (mkState 3 defaultMetricsV3) pow15_accurate)
    as (score & Hscore & Hzero & _).
  - apply (metricsOf_legal shapeV3 ["N"; "L"; "N"; "N"; "U"; "N"; "N"; "N"]). repeat constructor.
  - exists score. split; [exact Hscore|]. apply Hzero. reflexivity.
Defined.

(** X14. A legal v4 state never scores zero: the score is at least 0.1
    and the rating is Low, Medium, High or Critical, also when all six
    impacts are N. *)
Theorem v4_never_zero :
  ∀ st : State,
    legal shapeV4 (currentMetrics st) →
    (0.1 <=? calculateCVSSv4Score st)%float = true
    ∧ getSeverity (calculateCVSSv4Score st) ∈ ratings.
Proof.
  intros st Hm. rewrite (calculateCVSSv4Score_legal st Hm).
  destruct st as [version m]. cbn [currentMetrics] in *.
  destruct (legal_shapeV4_values m Hm)
    as (av & ac & at_ & pr & ui & vc & vi & va & sc & si & sa & ->
        & Hav & Hac & Hat & Hpr & Hui & Hvc & Hvi & Hva & Hsc & Hsi & Hsa).
  set (m := metricsOf shapeV4.*1 [av; ac; at_; pr; ui; vc; vi; va; sc; si; sa]).
  change (Spec.scoreV4 m)
    with (Spec.roundUp (Spec.BaseScoreV4
            (Spec.ImpactV4 (Some vc) (Some vi) (Some va) (Some sc) (Some si) (Some sa))
            (Spec.ExploitabilityV4 (Some av) (Some ac) (Some at_) (Some pr) (Some ui)))).
  assert (He : (av, (ac, (at_, (pr, ui)))) ∈ exploitsV4) by (by repeat apply elem_of_list_prod).
  pose proof (forallb_elem _ _ _ exploitabilityV4Positive_true He) as Hpos.
  unfold exploitabilityV4Positive in Hpos. cbn [fst snd] in Hpos. apply negb_true_iff, Qle_bool_false in Hpos.
  unfold Spec.BaseScoreV4, Spec.ImpactV4.
  pose proof (triadImpact_unit (Some vc) (Some vi) (Some va)) as Hx.
  revert Hpos Hx.
  generalize (Spec.ExploitabilityV4 (Some av) (Some ac) (Some at_) (Some pr) (Some ui))
             (Spec.triadImpact (Some vc) (Some vi) (Some va))
             (Spec.triadImpact (Some sc) (Some si) (Some sa)).
  intros e x y Hpos Hx. clear m.
  assert (x <= Qmax x y)%Q by apply Q.le_max_l.
  destruct (roundUp_tenths_positive (Qmin (6.42 * Qmax x y + e) 10)) as (n & Hn & Hq).
  - apply Q.min_glb_lt; [lra|reflexivity].
  - apply Q.le_min_r.
  - rewrite (Q2double_Qeq _ _ Hq). by apply tenths_positive.
Qed.

Lemma v4_never_zero_witness :
  (0.1 <=? calculateCVSSv4Score (mkState 4 defaultMetricsV4))%float = true
  ∧ getSeverity (calculateCVSSv4Score (mkState 4 defaultMetricsV4)) = "Low".
Proof.
  split; [|vm_compute; reflexivity].
  apply (v4_never_zero (mkState 4 defaultMetricsV4)).
  apply (metricsOf_legal shapeV4 ["N"; "L"; "N"; "N"; "N"; "N"; "N"; "N"; "N"; "N"; "N"]).
  repeat constructor.
Defined.

(** ** A higher weight never lowers the score *)

Lemma tenthsOrdered_true :
  forallb tenthsOrdered (list_prod (seqZ 0 101) (seqZ 0 101)) = true.
Proof. vm_compute. reflexivity. Qed.

Lemma impactOrdered_true :
  forallb impactOrdered (list_prod (enclosure <$> triads) (enclosure <$> triads)) = true.
Proof. vm_compute. reflexivity. Qed.

Lemma Q2double_tenths_le (a b : Z) :
  (0 <= a <= 100)%Z → (0 <= b <= 100)%Z → (a <= b)%Z →
  (Q2double (a # 10) <=? Q2double (b # 10))%float = true.
Proof.
  intros Ha Hb Hab.
  assert (H : tenthsOrdered (a, b) = true).
  { apply (forallb_elem tenthsOrdered (list_prod (seqZ 0 101) (seqZ 0 101)));
      [exact tenthsOrdered_true|].
    apply elem_of_list_prod; apply elem_of_seqZ; lia. }
  unfold tenthsOrdered in H. cbn [fst snd] in H.
  by rewrite (proj2 (Z.leb_le a b) Hab) in H.
Qed.

(** Exact scores in order give doubles in order. *)
Lemma Q2double_roundUp_le (x y : Q) :
  (0 <= x)%Q → (x <= y)%Q → (y <= 10)%Q →
  (Q2double (Spec.roundUp x) <=? Q2double (Spec.roundUp y))%float = true.
Proof.
  intros H0 Hxy H10.
  assert (Hx : (0 <= Qceiling (x * 10) <= 100)%Z).
  { split; [change 0%Z with (Qceiling 0)|change 100%Z with (Qceiling 100)];
      apply Qceiling_resp_le; lra. }
  assert (Hy : (0 <= Qceiling (y * 10) <= 100)%Z).
  { split; [change 0%Z with (Qceiling 0)|change 100%Z with (Qceiling 100)];
      apply Qceiling_resp_le; lra. }
  assert (E : ∀ z, (Spec.roundUp z == Qceiling (z * 10) # 10)%Q).
  { intros z. unfold Spec.roundUp. by rewrite (Qmake_Qdiv (Qceiling (z * 10)) 10). }
  rewrite (Q2double_Qeq _ _ (E x)), (Q2double_Qeq _ _ (E y)).
  apply Q2double_tenths_le; [done..|]. by apply roundUp_ceiling_mono.
Qed.

Lemma Qmult_le_nonneg (a a' b b' : Q) :
  (0 <= a)%Q → (a <= a')%Q → (0 <= b)%Q → (b <= b')%Q → (a * b <= a' * b')%Q.
Proof. intros. nra. Qed.

Lemma Qmult_nonneg (a b : Q) : (0 <= a)%Q → (0 <= b)%Q → (0 <= a * b)%Q.
Proof. intros. nra. Qed.

(** 1 - (1-a)(1-b)(1-c) grows with a, b and c in the unit interval. *)
Lemma triad_le (a b c a' b' c' : Q) :
  (0 <= a)%Q → (a <= a')%Q → (a' <= 1)%Q →
  (0 <= b)%Q → (b <= b')%Q → (b' <= 1)%Q →
  (0 <= c)%Q → (c <= c')%Q → (c' <= 1)%Q →
  (1 - (1 - a) * (1 - b) * (1 - c) <= 1 - (1 - a') * (1 - b') * (1 - c'))%Q
  ∧ (0 <= 1 - (1 - a) * (1 - b) * (1 - c))%Q.
Proof.
  intros.
  assert ((1 - a') * (1 - b') <= (1 - a) * (1 - b))%Q by (apply Qmult_le_nonneg; lra).
  assert (0 <= (1 - a') * (1 - b'))%Q by (apply Qmult_nonneg; lra).
  assert ((1 - a') * (1 - b') * (1 - c') <= (1 - a) * (1 - b) * (1 - c))%Q
    by (apply Qmult_le_nonneg; lra).
  assert ((1 - a) * (1 - b) <= 1 * 1)%Q by (apply Qmult_le_nonneg; lra).
  assert (0 <= (1 - a) * (1 - b))%Q by (apply Qmult_nonneg; lra).
  assert ((1 - a) * (1 - b) * (1 - c) <= 1 * 1)%Q by (apply Qmult_le_nonneg; lra).
  split; lra.
Qed.

Lemma impactW_unit (v : option string) : (0 <= Spec.impactW v)%Q ∧ (Spec.impactW v <= 1)%Q.
Proof. apply weight_unit. unit_table. Qed.

(** The product of five weights, scaled, grows with each of them. *)
Lemma product_le (k a b c d e a' b' c' d' e' : Q) :
  (0 <= k)%Q →
  (0 <= a)%Q → (a <= a')%Q → (0 <= b)%Q → (b <= b')%Q → (0 <= c)%Q → (c <= c')%Q →
  (0 <= d)%Q → (d <= d')%Q → (0 <= e)%Q → (e <= e')%Q →
  (0 <= k * a * b * c * d * e)%Q ∧ (k * a * b * c * d * e <= k * a' * b' * c' * d' * e')%Q.
Proof.
  intros.
  assert (0 <= k * a)%Q by (by apply Qmult_nonneg).
  assert (k * a <= k * a')%Q by (apply Qmult_le_nonneg; lra).
  assert (0 <= k * a * b)%Q by (by apply Qmult_nonneg).
  assert (k * a * b <= k * a' * b')%Q by (by apply Qmult_le_nonneg).
  assert (0 <= k * a * b * c)%Q by (by apply Qmult_nonneg).
  assert (k * a * b * c <= k * a' * b' * c')%Q by (by apply Qmult_le_nonneg).
  assert (0 <= k * a * b * c * d)%Q by (by apply Qmult_nonneg).
  assert (k * a * b * c * d <= k * a' * b' * c' * d')%Q by (by apply Qmult_le_nonneg).
  split; [by apply Qmult_nonneg|by apply Qmult_le_nonneg].
Qed.

(** The doubles of the v4 scores of two triads and exploitabilities in order. *)
Lemma v4_base_le (x1 y1 e1 x2 y2 e2 : Q) :
  (0 <= x1)%Q → (x1 <= x2)%Q → (y1 <= y2)%Q → (0 <= e1)%Q → (e1 <= e2)%Q →
  (Q2double (Spec.roundUp (Qmin (6.42 * Qmax x1 y1 + e1) 10))
   <=? Q2double (Spec.roundUp (Qmin (6.42 * Qmax x2 y2 + e2) 10)))%float = true.
Proof.
  intros Hx0 Hx Hy He0 He.
  assert (Hmax : (Qmax x1 y1 <= Qmax x2 y2)%Q) by (by apply Q.max_le_compat).
  assert (0 <= Qmax x1 y1)%Q by (apply Qle_trans with x1; [exact Hx0|apply Q.le_max_l]).
  apply Q2double_roundUp_le.
  - apply Q.min_glb; [lra|discriminate].
  - apply Q.min_le_compat_r. lra.
  - apply Q.le_min_r.
Qed.

Lemma weight_nonneg (table : list (string * Q)) (v : option string) :
  Forall (λ cw, 0 <= cw.2 ∧ cw.2 <= 1)%Q table → (0 <= Spec.weight table v)%Q.
Proof. intros H. by apply weight_unit. Qed.

(** X15. In v4 a higher weight never lowers the score: of two legal v4
    states, if no metric of the second has a lower weight than the same
    metric of the first, the score of the second is not lower. *)
Theorem v4_score_monotone :
  ∀ st1 st2 : State,
    legal shapeV4 (currentMetrics st1) → legal shapeV4 (currentMetrics st2) →
    Forall2 Qle (weightsV4 (currentMetrics st1)) (weightsV4 (currentMetrics st2)) →
    (calculateCVSSv4Score st1 <=? calculateCVSSv4Score st2)%float = true.
Proof.
  intros st1 st2 H1 H2 Hw.
  rewrite (calculateCVSSv4Score_legal st1 H1), (calculateCVSSv4Score_legal st2 H2).
  generalize (currentMetrics st1) (currentMetrics st2) Hw. clear. intros m1 m2 Hw.
  unfold weightsV4 in Hw.
  repeat match goal with H : Forall2 _ (_ :: _) (_ :: _) |- _ =>
           apply Forall2_cons_1 in H as [? H] end.
  unfold Spec.scoreV4, Spec.BaseScoreV4, Spec.ImpactV4, Spec.ExploitabilityV4, Spec.triadImpact.
  destruct (impactW_unit (m1 !! "VC")), (impactW_unit (m1 !! "VI")), (impactW_unit (m1 !! "VA")),
    (impactW_unit (m1 !! "SC")), (impactW_unit (m1 !! "SI")), (impactW_unit (m1 !! "SA")),
    (impactW_unit (m2 !! "VC")), (impactW_unit (m2 !! "VI")), (impactW_unit (m2 !! "VA")),
    (impactW_unit (m2 !! "SC")), (impactW_unit (m2 !! "SI")), (impactW_unit (m2 !! "SA")).
  destruct (triad_le (Spec.impactW (m1 !! "VC")) (Spec.impactW (m1 !! "VI"))
              (Spec.impactW (m1 !! "VA")) (Spec.impactW (m2 !! "VC"))
              (Spec.impactW (m2 !! "VI")) (Spec.impactW (m2 !! "VA"))) as [Hx Hx0]; try done.
  destruct (triad_le (Spec.impactW (m1 !! "SC")) (Spec.impactW (m1 !! "SI"))
              (Spec.impactW (m1 !! "SA")) (Spec.impactW (m2 !! "SC"))
              (Spec.impactW (m2 !! "SI")) (Spec.impactW (m2 !! "SA"))) as [Hy Hy0]; try done.
  destruct (product_le 8.22 (Spec.AV4w (m1 !! "AV")) (Spec.AC4w (m1 !! "AC"))
              (Spec.AT4w (m1 !! "AT")) (Spec.PR4w (m1 !! "PR")) (Spec.UI4w (m1 !! "UI"))
              (Spec.AV4w (m2 !! "AV")) (Spec.AC4w (m2 !! "AC"))
              (Spec.AT4w (m2 !! "AT")) (Spec.PR4w (m2 !! "PR")) (Spec.UI4w (m2 !! "UI")))
    as [He0 He]; try done; try (apply weight_nonneg; unit_table).
  by apply v4_base_le.
Qed.

Lemma v4_score_monotone_witness :
  (calculateCVSSv4Score (mkState 4 defaultMetricsV4)
   <=? calculateCVSSv4Score stateSubsequentHigh)%float = true.
Proof.
  apply v4_score_monotone.
  - apply (metricsOf_legal shapeV4 ["N"; "L"; "N"; "N"; "N"; "N"; "N"; "N"; "N"; "N"; "N"]).
    repeat constructor.
  - apply metricsOf_legal. repeat constructor.
  - repeat (apply Forall2_cons; split; [vm_compute; discriminate|]). apply Forall2_nil_2.
Defined.

Lemma product4_le (k a b c d a' b' c' d' : Q) :
  (0 <= k)%Q →
  (0 <= a)%Q → (a <= a')%Q → (0 <= b)%Q → (b <= b')%Q → (0 <= c)%Q → (c <= c')%Q →
  (0 <= d)%Q → (d <= d')%Q →
  (0 <= k * a * b * c * d)%Q ∧ (k * a * b * c * d <= k * a' * b' * c' * d')%Q.
Proof.
  intros.
  assert (0 <= k * a)%Q by (by apply Qmult_nonneg).
  assert (k * a <= k * a')%Q by (apply Qmult_le_nonneg; lra).
  assert (0 <= k * a * b)%Q by (by apply Qmult_nonneg).
  assert (k * a * b <= k * a' * b')%Q by (by apply Qmult_le_nonneg).
  assert (0 <= k * a * b * c)%Q by (by apply Qmult_nonneg).
  assert (k * a * b * c <= k * a' * b' * c')%Q by (by apply Qmult_le_nonneg).
  split; [by apply Qmult_nonneg|by apply Qmult_le_nonneg].
Qed.

(** The exact v3 base score grows with the impact and the exploitability. *)
Lemma BaseScoreV3_le (S : option string) (i1 i2 e1 e2 : Q) :
  (i1 <= i2)%Q → (0 <= e1)%Q → (e1 <= e2)%Q →
  (Spec.BaseScoreV3 S i1 e1 <= Spec.BaseScoreV3 S i2 e2)%Q.
Proof.
  intros Hi He0 He. unfold Spec.BaseScoreV3.
  destruct (Qle_bool i1 0) eqn:E1, (Qle_bool i2 0) eqn:E2.
  - apply Qle_refl.
  - apply Qle_bool_false in E2.
    destruct (Spec.isCode S "U"); (apply Q.min_glb; [lra|discriminate]).
  - apply Qle_bool_iff in E2. apply Qle_bool_false in E1. lra.
  - destruct (Spec.isCode S "U"); apply Q.min_le_compat_r; lra.
Qed.

Lemma ImpactV3_Qeq (S : option string) (x y : Q) :
  (x == y)%Q → (Spec.ImpactV3 S x == Spec.ImpactV3 S y)%Q.
Proof. intros H. unfold Spec.ImpactV3. destruct (Spec.isCode S "U"); by rewrite H. Qed.

(** Under either scope, of two triads the one with the higher impact
    sub score has the higher exact impact. *)
Lemma ImpactV3_le (s : string) (t1 t2 : string * (string * string)) :
  s ∈ ["U"; "C"] → t1 ∈ triads → t2 ∈ triads → (issQ t1 <= issQ t2)%Q →
  (Spec.ImpactV3 (Some s) (issQ t1) <= Spec.ImpactV3 (Some s) (issQ t2))%Q.
Proof.
  intros Hs H1 H2 Hle. cases_in Hs.
  - change (6.42 * issQ t1 <= 6.42 * issQ t2)%Q. lra.
  - assert (H : impactOrdered (enclosure t1, enclosure t2) = true).
    { apply (forallb_elem impactOrdered
               (list_prod (enclosure <$> triads) (enclosure <$> triads)));
        [exact impactOrdered_true|].
      apply elem_of_list_prod; apply list_elem_of_fmap; eauto. }
    unfold impactOrdered, enclosure in H. cbn [fst snd] in H.
    assert (Qle_bool (Qred (issQ t1)) (Qred (issQ t2)) = true) as E
      by (apply Qle_bool_iff; by rewrite !Qred_correct).
    rewrite E in H. cbn [implb] in H. apply orb_true_iff in H as [H|H].
    + apply Qeq_bool_iff in H. rewrite !Qred_correct in H.
      apply Qle_lteq. right. by apply ImpactV3_Qeq.
    + apply Qle_bool_iff in H.
      destruct (impactC_enclosed t1) as [_ Hhi], (impactC_enclosed t2) as [Hlo _].
      revert H Hhi Hlo.
      generalize (impactHiC t1) (impactLoC t2) (Spec.ImpactV3 (Some "C") (issQ t1))
                 (Spec.ImpactV3 (Some "C") (issQ t2)).
      intros. lra.
Qed.

Lemma CIAw_unit (v : option string) : (0 <= Spec.CIAw v)%Q ∧ (Spec.CIAw v <= 1)%Q.
Proof. apply weight_unit. unit_table. Qed.

(** X16. In v3 a higher weight never lowers the score: under an accurate
    [Math.pow], of two legal v3 states of the same scope, if no metric
    of the second has a lower weight than the same metric of the first,
    the score of the second is not lower. *)
Theorem v3_score_monotone :
  ∀ (Math_pow : float → float → float) (st1 st2 : State),
    pow_accurate Math_pow →
    legal shapeV3 (currentMetrics st1) → legal shapeV3 (currentMetrics st2) →
    currentMetrics st1 !! "S" = currentMetrics st2 !! "S" →
    Forall2 Qle (weightsV3 (currentMetrics st1)) (weightsV3 (currentMetrics st2)) →
    ∃ score1 score2 : float,
      calculateCVSSv3Score Math_pow st1 = Some score1
      ∧ calculateCVSSv3Score Math_pow st2 = Some score2
      ∧ (score1 <=? score2)%float = true.
Proof.
  intros Math_pow st1 st2 Hpow H1 H2 Hs Hw.
  rewrite (calculateCVSSv3Score_legal Math_pow st1 Hpow H1),
          (calculateCVSSv3Score_legal Math_pow st2 Hpow H2).
  eexists _, _. split; [reflexivity|]. split; [reflexivity|].
  revert H1 H2 Hs Hw. generalize (currentMetrics st1) (currentMetrics st2).
  clear. intros m1 m2 H1 H2 Hs Hw.
  legal_key H1 "S" s. legal_key H1 "C" c1. legal_key H1 "I" i1. legal_key H1 "A" a1.
  legal_key H2 "C" c2. legal_key H2 "I" i2. legal_key H2 "A" a2.
  assert (Ht1 : (c1, (i1, a1)) ∈ triads) by (by repeat apply elem_of_list_prod).
  assert (Ht2 : (c2, (i2, a2)) ∈ triads) by (by repeat apply elem_of_list_prod).
  unfold weightsV3 in Hw. rewrite <-Hs in Hw.
  repeat match goal with H : Forall2 _ (_ :: _) (_ :: _) |- _ =>
           apply Forall2_cons_1 in H as [? H] end.
  unfold Spec.scoreV3. rewrite <-Hs, Hs0, Hc1, Hi1, Ha1, Hc2, Hi2, Ha2 in *.
  destruct (CIAw_unit (Some c1)), (CIAw_unit (Some i1)), (CIAw_unit (Some a1)),
    (CIAw_unit (Some c2)), (CIAw_unit (Some i2)), (CIAw_unit (Some a2)).
  destruct (triad_le (Spec.CIAw (Some c1)) (Spec.CIAw (Some i1)) (Spec.CIAw (Some a1))
              (Spec.CIAw (Some c2)) (Spec.CIAw (Some i2)) (Spec.CIAw (Some a2)))
    as [Hiss _]; try done.
  pose proof (ImpactV3_le s (c1, (i1, a1)) (c2, (i2, a2)) Hins Ht1 Ht2 Hiss) as Himpact.
  change (issQ (c1, (i1, a1))) with (Spec.ISS (Some c1) (Some i1) (Some a1)) in Himpact.
  change (issQ (c2, (i2, a2))) with (Spec.ISS (Some c2) (Some i2) (Some a2)) in Himpact.
  assert (HPR : ∀ v, (0 <= Spec.PRw (Some s) v)%Q).
  { intros v. unfold Spec.PRw. destruct (Spec.isCode (Some s) "U");
      apply weight_nonneg; unit_table. }
  destruct (product4_le 8.22 (Spec.AVw (m1 !! "AV")) (Spec.ACw (m1 !! "AC"))
              (Spec.PRw (Some s) (m1 !! "PR")) (Spec.UIw (m1 !! "UI"))
              (Spec.AVw (m2 !! "AV")) (Spec.ACw (m2 !! "AC"))
              (Spec.PRw (Some s) (m2 !! "PR")) (Spec.UIw (m2 !! "UI")))
    as [He0 He]; try done; try (apply weight_nonneg; unit_table).
  fold (Spec.ExploitabilityV3 (m1 !! "AV") (m1 !! "AC") (m1 !! "PR") (m1 !! "UI") (Some s))
    in He0, He.
  fold (Spec.ExploitabilityV3 (m2 !! "AV") (m2 !! "AC") (m2 !! "PR") (m2 !! "UI") (Some s))
    in He.
  revert Himpact He0 He.
  generalize (Spec.ImpactV3 (Some s) (Spec.ISS (Some c1) (Some i1) (Some a1)))
    (Spec.ImpactV3 (Some s) (Spec.ISS (Some c2) (Some i2) (Some a2)))
    (Spec.ExploitabilityV3 (m1 !! "AV") (m1 !! "AC") (m1 !! "PR") (m1 !! "UI") (Some s))
    (Spec.ExploitabilityV3 (m2 !! "AV") (m2 !! "AC") (m2 !! "PR") (m2 !! "UI") (Some s)).
  intros impact1 impact2 e1 e2 Himpact He0 He.
  apply Q2double_roundUp_le.
  - by apply BaseScoreV3_range.
  - by apply BaseScoreV3_le.
  - apply BaseScoreV3_range. lra.
Qed.

Lemma v3_score_monotone_witness :
  ∃ score1 score2 : float,
    calculateCVSSv3Score (λ x _, pow15 x) stateScopeChanged = Some score1
    ∧ calculateCVSSv3Score (λ x _, pow15 x)
        (mkState 3 (metricsOf shapeV3.*1 ["N"; "L"; "N"; "N"; "C"; "H"; "H"; "H"])) = Some score2
    ∧ (score1 <=? score2)%float = true.
Proof.
  apply v3_score_monotone.
  - exact pow15_accurate.
  - apply metricsOf_legal. repeat constructor.
  - apply metricsOf_legal. repeat constructor.
  - reflexivity.
  - repeat (apply Forall2_cons; split; [vm_compute; discriminate|]). apply Forall2_nil_2.
Defined.

(** ** [maxImpact] outside the impact codes *)

Lemma order_unknown (v : option string) :
  isNLH v = false →
  JS.get (<["N":=0%float]> (<["L":=1%float]> (<["H":=2%float]> ∅)) : Weights) v = None.
Proof.
  intros H. unfold JS.get.
  assert (Hne : JS.ToPropertyKey v ∉ ["N"; "L"; "H"]).
  { destruct v as [s|]; simpl in *.
    - by apply bool_decide_eq_false in H.
    - apply (bool_decide_unpack _). vm_compute. exact I. }
  repeat (apply not_elem_of_cons in Hne as [? Hne]).
  by rewrite !lookup_insert_ne, lookup_empty.
Qed.

Lemma order_known (v : option string) :
  isNLH v = true →
  ∃ x : float,
    JS.get (<["N":=0%float]> (<["L":=1%float]> (<["H":=2%float]> ∅)) : Weights) v = Some x
    ∧ x ∈ [0%float; 1%float; 2%float].
Proof.
  destruct v as [s|]; [|done]. simpl. intros H%bool_decide_eq_true. cases_in H.
  - exists 0%float. split; [reflexivity|]. left.
  - exists 1%float. split; [reflexivity|]. right. left.
  - exists 2%float. split; [reflexivity|]. right. right. left.
Qed.

(** X17. On arguments that do not name a property inherited from
    [Object.prototype] (for such a name the script compares the
    inherited values, which the model leaves out), [maxImpact] returns
    its second argument whenever one of the two is not an impact code: a
    missing metric or a value other than N, L and H has no rank, no
    comparison with it holds, and the first argument is never chosen.
    On two impact codes it returns the higher under N < L < H. *)
Theorem maxImpact_without_rank :
  ∀ impact1 impact2 : option string,
    plain impact1 → plain impact2 →
    (isNLH impact1 && isNLH impact2 = false → maxImpact impact1 impact2 = impact2)
    ∧ (∀ x y : string, impact1 = Some x → impact2 = Some y →
         isNLH impact1 && isNLH impact2 = true →
         maxImpact impact1 impact2 = Some (Spec.maxNLH x y)).
Proof.
  intros impact1 impact2 _ _. split.
  - intros H. unfold maxImpact.
    destruct (isNLH impact1) eqn:E1; cbn [andb] in H.
    + rewrite (order_unknown impact2 H). destruct (order_known impact1 E1) as (x & -> & Hx).
      cases_in Hx; reflexivity.
    + rewrite (order_unknown impact1 E1).
      destruct (isNLH impact2) eqn:E2.
      * destruct (order_known impact2 E2) as (y & -> & Hy). cases_in Hy; reflexivity.
      * rewrite (order_unknown impact2 E2). reflexivity.
  - intros x y -> -> [H1 H2]%andb_true_iff. simpl in H1, H2.
    apply bool_decide_eq_true in H1, H2. by apply maxImpact_legal.
Qed.

Lemma maxImpact_without_rank_witness :
  maxImpact (Some "H") None = None
  ∧ maxImpact (Some "H") (Some "X") = Some "X"
  ∧ maxImpact None (Some "N") = Some "N"
  ∧ maxImpact (Some "L") (Some "H") = Some "H".
Proof.
  assert (H0 : plain None) by (intros s [=]).
  assert (Hplain : ∀ code : string,
            bool_decide (code ∉ Object_prototype_names) = true → plain (Some code)).
  { intros code H s [= <-]. by apply bool_decide_eq_true in H. }
  split; [|split; [|split]].
  - exact (proj1 (maxImpact_without_rank (Some "H") None (Hplain "H" eq_refl) H0) eq_refl).
  - exact (proj1 (maxImpact_without_rank (Some "H") (Some "X") (Hplain "H" eq_refl)
                    (Hplain "X" eq_refl)) eq_refl).
  - exact (proj1 (maxImpact_without_rank None (Some "N") H0 (Hplain "N" eq_refl)) eq_refl).
  - exact (proj2 (maxImpact_without_rank (Some "L") (Some "H") (Hplain "L" eq_refl)
                    (Hplain "H" eq_refl)) "L" "H" eq_refl eq_refl eq_refl).
Defined.

(** ** Metrics beyond those of the version *)

Lemma lastValue_app_notin (key : string) (pairs more : list (string * string)) :
  key ∉ more.*1 → lastValue key (pairs ++ more) = lastValue key pairs.
Proof.
  intros Hn. apply lastValue_None in Hn. unfold lastValue in *.
  rewrite filter_app. apply fmap_None, last_None in Hn. by rewrite Hn, app_nil_r.
Qed.

Lemma firstMissing_agree (keys : list string) (m m' : Metrics) :
  agreeOn keys m m' → firstMissing keys m = firstMissing keys m'.
Proof.
  induction keys as [|k keys IH]; intros H; [done|]. simpl.
  rewrite (H k) by left. rewrite IH; [done|]. intros k' Hk'. apply H. by right.
Qed.

(** What is shown, scored and converted of a state is read off the keys
    of its version. *)
Lemma shown_agree (Math_pow : float → float → float) (version : Z) (m m' : Metrics) :
  agreeOn (required version) m m' →
  generateVector (mkState version m) = generateVector (mkState version m')
  ∧ calculateScore Math_pow (mkState version m) = calculateScore Math_pow (mkState version m')
  ∧ fst (convertVector (mkState version m)) = fst (convertVector (mkState version m')).
Proof.
  intros H. unfold required in H.
  unfold generateVector, calculateScore, calculateCVSSv3Score, calculateCVSSv4Score,
    convertVector, convertV3toV4, convertV4toV3.
  cbn [currentVersion currentMetrics].
  destruct (version =? 3)%Z.
  - assert (E : ∀ k, k ∈ requiredV3 → m !! k = m' !! k) by exact H.
    rewrite !(E "AV"), !(E "AC"), !(E "PR"), !(E "UI"), !(E "S"), !(E "C"), !(E "I"), !(E "A")
      by (apply list_elem_of_In; simpl; tauto).
    done.
  - assert (E : ∀ k, k ∈ requiredV4 → m !! k = m' !! k) by exact H.
    rewrite !(E "AV"), !(E "AC"), !(E "AT"), !(E "PR"), !(E "UI"), !(E "VC"), !(E "VI"),
      !(E "VA"), !(E "SC"), !(E "SI"), !(E "SA")
      by (apply list_elem_of_In; simpl; tauto).
    done.
Qed.

(** X18. Metrics beyond those of the version are accepted and ignored:
    if a second input of the same version carries the pairs of a first
    one followed by pairs under keys that the version does not require
    (temporal or environmental metrics, say), both are answered by the
    same alert or by none, and the states they leave show the same
    vector, the same score and the same conversion. *)
Theorem further_metrics_ignored :
  ∀ (Math_pow : float → float → float) (input1 input2 : string) (st : State)
    (version : Z) (more : list (string * string)),
    versionOf (JS.trim input1) = Some version →
    versionOf (JS.trim input2) = Some version →
    pairsOf (JS.trim input2) = pairsOf (JS.trim input1) ++ more →
    (∀ k : string, k ∈ required version → k ∉ more.*1) →
    let st1 := fst (parseVector input1 st) in
    let st2 := fst (parseVector input2 st) in
    snd (parseVector input2 st) = snd (parseVector input1 st)
    ∧ currentVersion st2 = currentVersion st1
    ∧ generateVector st2 = generateVector st1
    ∧ calculateScore Math_pow st2 = calculateScore Math_pow st1
    ∧ fst (convertVector st2) = fst (convertVector st1).
Proof.
  intros Math_pow input1 input2 st version more Hv1 Hv2 Hpairs Hmore st1 st2.
  subst st1 st2. rewrite !parseVector_cases. cbv zeta. rewrite Hv1, Hv2.
  assert (Hne : ∀ v, versionOf v = Some version → String.eqb v "" = false).
  { intros v H. destruct (String.eqb_spec v "") as [->|]; [discriminate H|done]. }
  rewrite (Hne _ Hv1), (Hne _ Hv2).
  assert (Hagree : agreeOn (required version) (objectOf (pairsOf (JS.trim input2)))
                     (objectOf (pairsOf (JS.trim input1)))).
  { intros k Hk. pose proof (required_not_proto version k Hk) as Hp.
    rewrite !objectOf_lookup, Hpairs by done. apply lastValue_app_notin. by apply Hmore. }
  rewrite (firstMissing_agree _ _ _ Hagree).
  destruct (firstMissing (required version) (objectOf (pairsOf (JS.trim input1))));
    cbn [fst snd currentVersion]; [done|].
  destruct (shown_agree Math_pow version _ _ Hagree) as (? & ? & ?). done.
Qed.

Lemma further_metrics_ignored_witness :
  snd (parseVector vectorWithTemporal stateSubsequentHigh) = None
  ∧ generateVector (fst (parseVector vectorWithTemporal stateSubsequentHigh)) = scenario1
  ∧ currentMetrics (fst (parseVector vectorWithTemporal stateSubsequentHigh)) !! "RL" = Some "O".
Proof.
  destruct (further_metrics_ignored (λ x _, pow15 x) scenario1 vectorWithTemporal
              stateSubsequentHigh 3 [("E", "P"); ("RL", "O"); ("RC", "C")])
    as (Halert & _ & Hvector & _); [reflexivity..| |].
  - intros k Hk. apply (bool_decide_unpack _). cases_in Hk; vm_compute; exact I.
  - rewrite Halert, Hvector. repeat split; vm_compute; reflexivity.
Defined.

(** ** When the score throws *)

Lemma lookup_PR_known (v : option string) :
  isNLH v = true → is_Some (JS.get CVSS3_WEIGHTS.PR v).
Proof.
  destruct v as [s|]; [|done]. simpl. intros H%bool_decide_eq_true.
  cases_in H; by eexists.
Qed.

Lemma lookup_PR_without_rank (v : option string) :
  isNLH v = false → JS.get CVSS3_WEIGHTS.PR v = None.
Proof.
  intros H. unfold JS.get. apply lookup_PR_unknown. destruct v as [s|]; simpl in *.
  - by apply bool_decide_eq_false in H.
  - apply (bool_decide_unpack _). vm_compute. exact I.
Qed.

(** X19. The score throws in v3 only, and only for want of a PR among N,
    L and H: for any state, [calculateScore] fails with the TypeError
    exactly when v3 is current and PR is missing or is none of N, L and
    H (nor the name of an inherited property); under any other version,
    and whatever the other metrics hold, it returns a number, which may
    be NaN. *)
Theorem score_throws_iff_PR_unknown :
  ∀ (Math_pow : float → float → float) (st : State),
    plain (currentMetrics st !! "PR") →
    (calculateScore Math_pow st = None ↔
       currentVersion st = 3%Z ∧ isNLH (currentMetrics st !! "PR") = false)
    ∧ (currentVersion st ≠ 3%Z →
         calculateScore Math_pow st = Some (calculateCVSSv4Score st)).
Proof.
  intros Math_pow [version m] _. unfold calculateScore. cbn [currentVersion currentMetrics].
  destruct (Z.eqb_spec version 3) as [->|Hne].
  - split; [|done]. unfold calculateCVSSv3Score. cbn [currentMetrics].
    rewrite v3Score_decompose. unfold v3Exploitability.
    destruct (isNLH (m !! "PR")) eqn:E.
    + destruct (lookup_PR_known _ E) as [table ->]. split; [done|]. by intros [_ ?].
    + by rewrite (lookup_PR_without_rank _ E).
  - split; [|done]. split; [done|]. by intros [? _].
Qed.

Lemma score_throws_iff_PR_unknown_witness :
  calculateScore (λ x _, pow15 x) (fst (parseVector vectorIllegalPR stateScenario1)) = None
  ∧ calculateScore (λ x _, pow15 x) stateV4WithV3Defaults = Some nan.
Proof.
  split.
  - apply (score_throws_iff_PR_unknown (λ x _, pow15 x)
             (fst (parseVector vectorIllegalPR stateScenario1))).
    + intros s H. vm_compute in H. injection H as <-.
      apply (bool_decide_unpack _). vm_compute. exact I.
    + split; reflexivity.
  - etrans.
    + apply (score_throws_iff_PR_unknown (λ x _, pow15 x) stateV4WithV3Defaults).
      * intros s H. vm_compute in H. injection H as <-.
        apply (bool_decide_unpack _). vm_compute. exact I.
      * discriminate.
    + vm_compute. reflexivity.
Defined.

(** ** From v4 to v3 and back *)

Lemma viaV3_metricsOf (av ac at_ pr ui vc vi va sc si sa : string) :
  vc ∈ ["N"; "L"; "H"] → vi ∈ ["N"; "L"; "H"] → va ∈ ["N"; "L"; "H"] →
  sc ∈ ["N"; "L"; "H"] → si ∈ ["N"; "L"; "H"] → sa ∈ ["N"; "L"; "H"] →
  let sub := negb (String.eqb sc "N") || negb (String.eqb si "N") || negb (String.eqb sa "N") in
  viaV3 (metricsOf shapeV4.*1 [av; ac; at_; pr; ui; vc; vi; va; sc; si; sa])
  = metricsOf shapeV4.*1
      [av; ac; "N"; pr; if String.eqb ui "N" then "N" else "P";
       Spec.maxNLH vc sc; Spec.maxNLH vi si; Spec.maxNLH va sa;
       if sub then Spec.maxNLH vc sc else "N"; if sub then Spec.maxNLH vi si else "N";
       if sub then Spec.maxNLH va sa else "N"].
Proof.
  intros Hvc Hvi Hva Hsc Hsi Hsa sub. unfold viaV3.
  rewrite convertVector_v4. cbn [convertedMetrics]. rewrite convertVector_v3.
  cbn [convertedMetrics]. rewrite convertV4toV3_metricsOf by done.
  rewrite convertV3toV4_metricsOf. fold sub.
  by destruct (String.eqb ui "N"), sub.
Qed.

(** Eleven values under the keys of v4 can be read back. *)
Lemma metricsOf_shapeV4_inj (a1 a2 a3 a4 a5 a6 a7 a8 a9 a10 a11
                             b1 b2 b3 b4 b5 b6 b7 b8 b9 b10 b11 : string) :
  metricsOf shapeV4.*1 [a1; a2; a3; a4; a5; a6; a7; a8; a9; a10; a11]
  = metricsOf shapeV4.*1 [b1; b2; b3; b4; b5; b6; b7; b8; b9; b10; b11] →
  [a1; a2; a3; a4; a5; a6; a7; a8; a9; a10; a11]
  = [b1; b2; b3; b4; b5; b6; b7; b8; b9; b10; b11].
Proof.
  intros H.
  assert (Some a1 = Some b1) as [= ->] by exact (f_equal (.!! "AV") H).
  assert (Some a2 = Some b2) as [= ->] by exact (f_equal (.!! "AC") H).
  assert (Some a3 = Some b3) as [= ->] by exact (f_equal (.!! "AT") H).
  assert (Some a4 = Some b4) as [= ->] by exact (f_equal (.!! "PR") H).
  assert (Some a5 = Some b5) as [= ->] by exact (f_equal (.!! "UI") H).
  assert (Some a6 = Some b6) as [= ->] by exact (f_equal (.!! "VC") H).
  assert (Some a7 = Some b7) as [= ->] by exact (f_equal (.!! "VI") H).
  assert (Some a8 = Some b8) as [= ->] by exact (f_equal (.!! "VA") H).
  assert (Some a9 = Some b9) as [= ->] by exact (f_equal (.!! "SC") H).
  assert (Some a10 = Some b10) as [= ->] by exact (f_equal (.!! "SI") H).
  assert (Some a11 = Some b11) as [= ->] by exact (f_equal (.!! "SA") H).
  reflexivity.
Qed.

Lemma maxNLH_same (x : string) : Spec.maxNLH x x = x.
Proof. unfold Spec.maxNLH. by rewrite Nat.ltb_irrefl. Qed.

Lemma maxNLH_N (x : string) : x ∈ ["N"; "L"; "H"] → Spec.maxNLH x "N" = x.
Proof. intros H. by cases_in H. Qed.

(** The values that come back unchanged. *)
Lemma viaV3_fixed (av ac pr ui vc vi va sc si sa : string) :
  ui ∈ ["N"; "P"] →
  vc ∈ ["N"; "L"; "H"] → vi ∈ ["N"; "L"; "H"] → va ∈ ["N"; "L"; "H"] →
  sc ∈ ["N"; "L"; "H"] → si ∈ ["N"; "L"; "H"] → sa ∈ ["N"; "L"; "H"] →
  (sc, si, sa) = ("N", "N", "N") ∨ (vc, vi, va) = (sc, si, sa) →
  viaV3 (metricsOf shapeV4.*1 [av; ac; "N"; pr; ui; vc; vi; va; sc; si; sa])
  = metricsOf shapeV4.*1 [av; ac; "N"; pr; ui; vc; vi; va; sc; si; sa].
Proof.
  intros Hui Hvc Hvi Hva Hsc Hsi Hsa Hcase. rewrite viaV3_metricsOf by done. cbv zeta.
  assert ((if String.eqb ui "N" then "N" else "P") = ui) as -> by (by cases_in Hui).
  destruct Hcase as [[= -> -> ->]|[= -> -> ->]].
  - cbn [String.eqb Ascii.eqb Bool.eqb negb orb]. by rewrite !maxNLH_N.
  - rewrite !maxNLH_same.
    destruct (String.eqb_spec sc "N") as [->|?], (String.eqb_spec si "N") as [->|?],
      (String.eqb_spec sa "N") as [->|?]; reflexivity.
Qed.

(** X20. From v4 to v3 and back: a legal v4 metric set comes back
    unchanged exactly when it has no attack requirement (AT is N), no
    active user interaction (UI is not A), and either no subsequent
    impact at all or the same impacts on the subsequent as on the
    vulnerable system.  What comes back is a legal v4 metric set, and a
    second round trip changes nothing more. *)
Theorem v4_to_v3_and_back :
  ∀ m : Metrics,
    legal shapeV4 m →
    (viaV3 m = m ↔
       m !! "AT" = Some "N" ∧ m !! "UI" ≠ Some "A"
       ∧ ((m !! "SC", m !! "SI", m !! "SA") = (Some "N", Some "N", Some "N")
          ∨ (m !! "VC", m !! "VI", m !! "VA") = (m !! "SC", m !! "SI", m !! "SA")))
    ∧ legal shapeV4 (viaV3 m)
    ∧ viaV3 (viaV3 m) = viaV3 m.
Proof.
  intros m Hm.
  destruct (legal_shapeV4_values m Hm)
    as (av & ac & at_ & pr & ui & vc & vi & va & sc & si & sa & ->
        & Hav & Hac & Hat & Hpr & Hui & Hvc & Hvi & Hva & Hsc & Hsi & Hsa).
  set (m := metricsOf shapeV4.*1 [av; ac; at_; pr; ui; vc; vi; va; sc; si; sa]).
  change (m !! "AT") with (Some at_). change (m !! "UI") with (Some ui).
  change (m !! "VC") with (Some vc). change (m !! "VI") with (Some vi).
  change (m !! "VA") with (Some va). change (m !! "SC") with (Some sc).
  change (m !! "SI") with (Some si). change (m !! "SA") with (Some sa).
  pose proof (viaV3_metricsOf av ac at_ pr ui vc vi va sc si sa Hvc Hvi Hva Hsc Hsi Hsa) as E.
  cbv zeta in E. fold m in E.
  set (sub := negb (String.eqb sc "N") || negb (String.eqb si "N") || negb (String.eqb sa "N"))
    in E.
  assert (Hui' : (if String.eqb ui "N" then "N" else "P") ∈ ["N"; "P"]).
  { destruct (String.eqb ui "N"); [left|right; left]. }
  pose proof (maxNLH_legal vc sc Hvc Hsc) as HC.
  pose proof (maxNLH_legal vi si Hvi Hsi) as HI.
  pose proof (maxNLH_legal va sa Hva Hsa) as HA.
  assert (HN : "N" ∈ ["N"; "L"; "H"]) by left.
  split; [|split].
  - rewrite E. split.
    + intros H. apply metricsOf_shapeV4_inj in H.
      injection H as Hat' Hui'' HvC HvI HvA HsC HsI HsA.
      split; [by rewrite <-Hat'|]. split.
      * intros [= ->]. by destruct (String.eqb "A" "N").
      * destruct sub eqn:Hsub.
        -- right. congruence.
        -- left. congruence.
    + intros ([= ->] & HuiA & Hcase). rewrite <-E. apply viaV3_fixed; try done.
      * cases_in Hui; [left|right; left|done].
      * destruct Hcase as [[= -> -> ->]|[= -> -> ->]]; auto.
  - rewrite E. apply metricsOf_legal.
    repeat (apply Forall2_cons; split; [simpl|]); try done; try apply Forall2_nil_2;
      try (by destruct sub).
    + left.
    + destruct (String.eqb ui "N"); [left|right; left].
  - rewrite E. apply viaV3_fixed; try done; try (by destruct sub).
    destruct sub; [by right|by left].
Qed.

Lemma v4_to_v3_and_back_witness :
  viaV3 (currentMetrics stateActivePresent) !! "UI" = Some "P"
  ∧ viaV3 (currentMetrics stateActivePresent) !! "AT" = Some "N"
  ∧ viaV3 (viaV3 (currentMetrics stateActivePresent)) = viaV3 (currentMetrics stateActivePresent).
Proof.
  split; [reflexivity|]. split; [reflexivity|].
  apply (v4_to_v3_and_back (currentMetrics stateActivePresent)).
  apply metricsOf_legal. repeat constructor.
Defined.
